(** * Password strength evaluator and bounded password store

    A shallow embedding of [password_utils.py] (and of the save path of
    [main.py]) together with the properties the specification states
    about them.

    Python values are modelled as the code handles them:
    - a [str] is a sequence of Unicode code points ([pystr]);
    - the patterns handed to [re] are kept as syntax trees ([regex]) and
      run by a backtracking matcher, so that [password_regex_pattern] and
      the four searches of [password_evaluator] read like the source;
    - the objects that travel through [json] are the inductive [json];
    - the storage directory is a finite map from paths to file contents:
      to the text of the files ([files]) where the code only handles what
      it wrote itself, to their bytes ([disk]) where the decoding done by
      [open] in text mode matters. *)

From Stdlib Require Import NArith ZArith List Bool Lia.
From Stdlib Require Import Strings.Ascii Strings.String.
From Stdlib Require Strings.Byte.
From stdpp Require Import base option list gmap.
Import ListNotations.

Local Open Scope N_scope.

(** ** Python strings *)

Abbreviation codepoint := N.
Definition pystr := list codepoint.

(** An ASCII literal of the source, as a sequence of code points. *)
Definition lit (s : string) : pystr :=
  List.map N_of_ascii (list_ascii_of_string s).

Definition newline : codepoint := 10.
(** U+274C and U+2705, the two marks that open the messages. *)
Definition cross_mark : codepoint := 0x274C.
Definition check_mark : codepoint := 0x2705.

Definition str_eqb (a b : pystr) : bool := bool_decide (a = b).

(** ** Unicode decimal digits

    [\d] in a [str] pattern matches every character of general category
    Nd.  The category is a union of runs of ten consecutive code points
    (the run at U+1D7CE holds fifty); [decimal_runs] lists them. *)

Definition decimal_runs : list (codepoint * codepoint) :=
  [ (0x30, 0x39); (0x660, 0x669); (0x6F0, 0x6F9); (0x7C0, 0x7C9);
    (0x966, 0x96F); (0x9E6, 0x9EF); (0xA66, 0xA6F); (0xAE6, 0xAEF);
    (0xB66, 0xB6F); (0xBE6, 0xBEF); (0xC66, 0xC6F); (0xCE6, 0xCEF);
    (0xD66, 0xD6F); (0xDE6, 0xDEF); (0xE50, 0xE59); (0xED0, 0xED9);
    (0xF20, 0xF29); (0x1040, 0x1049); (0x1090, 0x1099); (0x17E0, 0x17E9);
    (0x1810, 0x1819); (0x1946, 0x194F); (0x19D0, 0x19D9); (0x1A80, 0x1A89);
    (0x1A90, 0x1A99); (0x1B50, 0x1B59); (0x1BB0, 0x1BB9); (0x1C40, 0x1C49);
    (0x1C50, 0x1C59); (0xA620, 0xA629); (0xA8D0, 0xA8D9); (0xA900, 0xA909);
    (0xA9D0, 0xA9D9); (0xA9F0, 0xA9F9); (0xAA50, 0xAA59); (0xABF0, 0xABF9);
    (0xFF10, 0xFF19); (0x104A0, 0x104A9); (0x10D30, 0x10D39);
    (0x11066, 0x1106F); (0x110F0, 0x110F9); (0x11136, 0x1113F);
    (0x111D0, 0x111D9); (0x112F0, 0x112F9); (0x11450, 0x11459);
    (0x114D0, 0x114D9); (0x11650, 0x11659); (0x116C0, 0x116C9);
    (0x11730, 0x11739); (0x118E0, 0x118E9); (0x11950, 0x11959);
    (0x11C50, 0x11C59); (0x11D50, 0x11D59); (0x11DA0, 0x11DA9);
    (0x16A60, 0x16A69); (0x16AC0, 0x16AC9); (0x16B50, 0x16B59);
    (0x1D7CE, 0x1D7FF); (0x1E140, 0x1E149); (0x1E2F0, 0x1E2F9);
    (0x1E950, 0x1E959); (0x1FBF0, 0x1FBF9) ].

Definition in_run (c : codepoint) (r : codepoint * codepoint) : bool :=
  (fst r <=? c) && (c <=? snd r).

Definition unicode_decimal (c : codepoint) : bool :=
  existsb (in_run c) decimal_runs.

(** ** Regular expressions

    The fragment of [re] syntax the two source files use. *)

Inductive class_item :=
| CRange (lo hi : codepoint)     (* lo-hi *)
| COneOf (cs : pystr)            (* characters listed one by one *)
| CDigit.                        (* \d *)

Definition char_class := list class_item.

Definition item_matches (c : codepoint) (it : class_item) : bool :=
  match it with
  | CRange lo hi => (lo <=? c) && (c <=? hi)
  | COneOf cs => existsb (N.eqb c) cs
  | CDigit => unicode_decimal c
  end.

Definition class_matches (cls : char_class) (c : codepoint) : bool :=
  existsb (item_matches c) cls.

Inductive regex :=
| Chr (cls : char_class)         (* [...] or \d *)
| Dot                            (* .      *)
| Bol                            (* ^      *)
| Eol                            (* $      *)
| Cat (r1 r2 : regex)            (* r1 r2  *)
| Star (r : regex)               (* r*     *)
| AtLeast (n : nat) (r : regex)  (* r{n,}  *)
| Ahead (r : regex).             (* (?=r)  *)

(** A matcher is run at an offset [i] of the subject, on the text [s]
    that remains there, and hands every way of matching to the
    continuation [k]. *)
Definition matcher := nat -> pystr -> (nat -> pystr -> bool) -> bool.

(** Greedy iteration.  An iteration that consumes nothing is cut, as
    [re] cuts it, so at most [length s] iterations take place. *)
Fixpoint star (m : matcher) (fuel : nat) : matcher :=
  fun i s k =>
    match fuel with
    | O => k i s
    | S fuel' =>
        m i s (fun i' s' =>
                 (length s' <? length s)%nat && star m fuel' i' s' k)
        || k i s
    end.

Fixpoint times (m : matcher) (n : nat) : matcher :=
  fun i s k =>
    match n with
    | O => k i s
    | S n' => m i s (fun i' s' => times m n' i' s' k)
    end.

Fixpoint accepts (r : regex) : matcher :=
  fun i s k =>
    match r with
    | Chr cls =>
        match s with
        | c :: s' => class_matches cls c && k (S i) s'
        | [] => false
        end
    | Dot =>
        match s with
        | c :: s' => negb (c =? newline) && k (S i) s'
        | [] => false
        end
    | Bol => (i =? 0)%nat && k i s
    | Eol =>
        (* the end of the string, or just before a newline that ends it *)
        match s with
        | [] => k i s
        | [c] => (c =? newline) && k i s
        | _ => false
        end
    | Cat r1 r2 => accepts r1 i s (fun i' s' => accepts r2 i' s' k)
    | Star r' => star (accepts r') (S (length s)) i s k
    | AtLeast n r' =>
        times (accepts r') n i s
          (fun i' s' => star (accepts r') (S (length s')) i' s' k)
    | Ahead r' => accepts r' i s (fun _ _ => true) && k i s
    end.

Definition found : nat -> pystr -> bool := fun _ _ => true.

(** [bool(pattern.match(s))]: a match that starts at offset 0. *)
Definition re_match (r : regex) (s : pystr) : bool := accepts r 0%nat s found.

(** [bool(re.search(pattern, s))]: a match that starts anywhere. *)
Fixpoint search_from (r : regex) (i : nat) (s : pystr) : bool :=
  accepts r i s found
  || match s with
     | [] => false
     | _ :: s' => search_from r (S i) s'
     end.

Definition re_search (r : regex) (s : pystr) : bool := search_from r 0%nat s.

(** ** password_utils.py: validator and evaluator *)

Definition ascii_upper : class_item := CRange 65 90.    (* A-Z *)
Definition ascii_lower : class_item := CRange 97 122.   (* a-z *)

(** [@$!%*?&] *)
Definition validator_specials : pystr := lit "@$!%*?&".
(** [!@#$%^&*] *)
Definition evaluator_specials : pystr := lit "!@#$%^&*".

(** [^(?=.*[A-Za-z])(?=.*\d)(?=.*[@$!%*?&])[A-Za-z\d@$!%*?&]{8,}$] *)
Definition password_regex_pattern : regex :=
  Cat Bol
 (Cat (Ahead (Cat (Star Dot) (Chr [ascii_upper; ascii_lower])))
 (Cat (Ahead (Cat (Star Dot) (Chr [CDigit])))
 (Cat (Ahead (Cat (Star Dot) (Chr [COneOf validator_specials])))
 (Cat (AtLeast 8 (Chr [ascii_upper; ascii_lower; CDigit;
                       COneOf validator_specials]))
      Eol)))).

Definition password_validator (password : pystr) : bool :=
  re_match password_regex_pattern password.

Record analysis := {
  score : nat;
  rank : pystr;
  feedback : list pystr
}.

Definition msg_length : pystr :=
  cross_mark :: lit " Password must be at least 8 characters long.".
Definition msg_case : pystr :=
  cross_mark :: lit " Include both uppercase and lowercase letters.".
Definition msg_digit : pystr :=
  cross_mark :: lit " Add at least one number (0-9).".
Definition msg_special : pystr :=
  cross_mark :: lit " Include at least one special character (!@#$%^&*).".

Definition password_strength_ranking : list pystr :=
  [lit "Weak"; lit "Moderate"; lit "Good"; lit "Strong"; lit "Excellent"].

(** One [if]/[else] of the evaluator: a point, or a message appended. *)
Definition check (passed : bool) (msg : pystr)
    (acc : nat * list pystr) : nat * list pystr :=
  if passed then (S (fst acc), snd acc) else (fst acc, snd acc ++ [msg]).

Definition password_evaluator (password : pystr) : analysis :=
  let acc := (O, []) in
  let acc := check (8 <=? length password)%nat msg_length acc in
  let acc := check (re_search (Chr [ascii_upper]) password
                    && re_search (Chr [ascii_lower]) password)
                   msg_case acc in
  let acc := check (re_search (Chr [CDigit]) password) msg_digit acc in
  let acc := check (re_search (Chr [COneOf evaluator_specials]) password)
                   msg_special acc in
  let password_strength_score := fst acc in
  {| score := password_strength_score;
     rank := nth (Nat.min password_strength_score 4)
               password_strength_ranking [];
     feedback := snd acc |}.

(** ** The evaluator and the validator in the words of the specification

    The four predicates, read off the characters of the password, and
    the result the specification assembles from them.  An uppercase
    letter is one of A to Z and a lowercase letter one of a to z, as the
    classes of the source have them; a decimal digit is a character of
    category Nd. *)

Definition is_upper (c : codepoint) : Prop := 65 <= c <= 90.
Definition is_lower (c : codepoint) : Prop := 97 <= c <= 122.
Definition is_decimal (c : codepoint) : Prop := unicode_decimal c = true.
Definition is_evaluator_special (c : codepoint) : Prop :=
  c ∈ evaluator_specials.

Definition length_ok (p : pystr) : Prop := (8 <= length p)%nat.
Definition case_mix (p : pystr) : Prop := Exists is_upper p /\ Exists is_lower p.
Definition has_digit (p : pystr) : Prop := Exists is_decimal p.
Definition has_special (p : pystr) : Prop := Exists is_evaluator_special p.

(** The predicates in their fixed order, each with its message. *)
Definition predicates (p : pystr) : list (bool * pystr) :=
  [ (bool_decide (length_ok p), msg_length);
    (bool_decide (case_mix p), msg_case);
    (bool_decide (has_digit p), msg_digit);
    (bool_decide (has_special p), msg_special) ].

Definition evaluator_spec (p : pystr) : analysis :=
  let satisfied := length (List.filter fst (predicates p)) in
  {| score := satisfied;
     rank := nth (Nat.min satisfied 4)
               [lit "Weak"; lit "Moderate"; lit "Good"; lit "Strong";
                lit "Excellent"] [];
     feedback :=
       List.map snd (List.filter (fun c => negb (fst c)) (predicates p)) |}.

Definition is_letter (c : codepoint) : Prop := is_upper c \/ is_lower c.
Definition is_validator_special (c : codepoint) : Prop :=
  c ∈ validator_specials.
Definition validator_char (c : codepoint) : Prop :=
  is_letter c \/ is_decimal c \/ is_validator_special c.

(** What the specification asks of a password that [is_valid] accepts. *)
Definition validator_spec (p : pystr) : Prop :=
  Exists is_letter p /\ Exists is_decimal p
  /\ Exists is_validator_special p
  /\ (8 <= length p)%nat /\ Forall validator_char p.

(** [s] without the newline that ends it, if one does. *)
Fixpoint chomp (s : pystr) : pystr :=
  match s with
  | [] => []
  | [c] => if c =? newline then [] else [c]
  | c :: s' => c :: chomp s'
  end.

(** The characters before the first newline of [s]. *)
Fixpoint first_line (s : pystr) : pystr :=
  match s with
  | [] => []
  | c :: s' => if c =? newline then [] else c :: first_line s'
  end.

(** ** Objects that travel through [json]

    The records of both collections are dictionaries with string keys
    whose values are strings, integers and lists.  A [dict] keeps its
    insertion order, so it is an association list; floats do not occur
    in the records and are left out. *)

#[warnings="-register-all"]
Inductive json :=
| JNull
| JBool (b : bool)
| JInt (n : Z)
| JStr (s : pystr)
| JList (l : list json)
| JDict (d : list (pystr * json)).

(** The two calls into the [json] module: [json_dump data] is the text
    [json.dump(data, file, indent=4)] writes, [json_load text] is what
    [json.load] makes of a file holding [text], [None] standing for
    [JSONDecodeError]. *)
Class JsonCodec := {
  json_dump : json -> pystr;
  json_load : pystr -> option json
}.

(** ** Exceptions *)

Inductive exn := KeyError | TypeError | AttributeError | JSONDecodeError.

Inductive outcome (A : Type) :=
| Return (a : A)
| Raise (e : exn).
Arguments Return {A} a.
Arguments Raise {A} e.

Definition bind {A B} (m : outcome A) (f : A -> outcome B) : outcome B :=
  match m with
  | Return a => f a
  | Raise e => Raise e
  end.

Notation "'let*' x ':=' m 'in' k" := (bind m (fun x => k))
  (at level 10, x name, m at level 100, k at level 200).

Fixpoint assoc (key : pystr) (d : list (pystr * json)) : option json :=
  match d with
  | [] => None
  | (k, v) :: d' => if str_eqb k key then Some v else assoc key d'
  end.

(** [entry[key]] for a string [key]. *)
Definition py_getitem (entry : json) (key : pystr) : outcome json :=
  match entry with
  | JDict d =>
      match assoc key d with
      | Some v => Return v
      | None => Raise KeyError
      end
  | _ => Raise TypeError
  end.

(** [for entry in v]: the elements of a list, the keys of a dict, the
    characters of a string; anything else is not iterable. *)
Definition py_iter (v : json) : outcome (list json) :=
  match v with
  | JList l => Return l
  | JDict d => Return (List.map (fun kv => JStr (fst kv)) d)
  | JStr s => Return (List.map (fun c => JStr [c]) s)
  | _ => Raise TypeError
  end.

(** [v.append(x)]: only a list has the method. *)
Definition py_append (v : json) (x : json) : outcome (list json) :=
  match v with
  | JList l => Return (l ++ [x])
  | _ => Raise AttributeError
  end.

(** [v == s] for a string [s]. *)
Definition py_eq_str (v : json) (s : pystr) : bool :=
  match v with
  | JStr s' => str_eqb s' s
  | _ => false
  end.

(** ** password_utils.py: persistence *)

Abbreviation files := (gmap pystr pystr).

Definition PASSWORDS_FILE : pystr := lit "storage/passwords.json".
Definition LINKS_FILE : pystr := lit "storage/links.json".

Definition data_loader `{JsonCodec} (fs : files) (file_path : pystr) : json :=
  match fs !! file_path with
  | None => JList []
  | Some text =>
      match json_load text with
      | Some data => data
      | None => JList []
      end
  end.

Definition data_saver `{JsonCodec} (file_path : pystr) (data : json)
    (fs : files) : files :=
  <[file_path := json_dump data]> fs.

(** ** password_utils.py: the loader on the bytes of a file

    [data_loader] opens the file in text mode and without an encoding, so
    [json.load] receives what [file.read()] makes of the bytes: they are
    decoded with the encoding of the platform, taken here to be UTF-8 (the
    one of Linux and macOS, and of Python in UTF-8 mode), with the error
    handler [strict], and the line ends [\r\n] and [\r] are turned into
    [\n].  The decoder follows the UTF-8 codec of CPython: the shortest
    form only, no surrogate, nothing above U+10FFFF. *)

Abbreviation disk := (gmap pystr (list Byte.byte)).

(** A byte [10xxxxxx]. *)
Definition continuation (b : N) : bool := (0x80 <=? b) && (b <=? 0xBF).

(** The second byte of a sequence of three: [E0] excludes the forms that
    two bytes can hold, [ED] the surrogates. *)
Definition second_of_3 (b1 b2 : N) : bool :=
  if b1 =? 0xE0 then (0xA0 <=? b2) && (b2 <=? 0xBF)
  else if b1 =? 0xED then (0x80 <=? b2) && (b2 <=? 0x9F)
  else continuation b2.

(** The second byte of a sequence of four: [F0] excludes the forms that
    three bytes can hold, [F4] what lies above U+10FFFF. *)
Definition second_of_4 (b1 b2 : N) : bool :=
  if b1 =? 0xF0 then (0x90 <=? b2) && (b2 <=? 0xBF)
  else if b1 =? 0xF4 then (0x80 <=? b2) && (b2 <=? 0x8F)
  else continuation b2.

(** [bytes.decode('utf-8')], [None] standing for [UnicodeDecodeError]. *)
Fixpoint utf8_decode (bytes : list Byte.byte) : option pystr :=
  match bytes with
  | [] => Some []
  | byte1 :: rest =>
      let b1 := Byte.to_N byte1 in
      if b1 <? 0x80 then
        option_map (cons b1) (utf8_decode rest)
      else if (0xC2 <=? b1) && (b1 <=? 0xDF) then
        match rest with
        | byte2 :: rest =>
            let b2 := Byte.to_N byte2 in
            if continuation b2 then
              option_map (cons ((b1 - 0xC0) * 0x40 + (b2 - 0x80)))
                (utf8_decode rest)
            else None
        | _ => None
        end
      else if (0xE0 <=? b1) && (b1 <=? 0xEF) then
        match rest with
        | byte2 :: byte3 :: rest =>
            let b2 := Byte.to_N byte2 in
            let b3 := Byte.to_N byte3 in
            if second_of_3 b1 b2 && continuation b3 then
              option_map
                (cons ((b1 - 0xE0) * 0x1000 + (b2 - 0x80) * 0x40
                       + (b3 - 0x80)))
                (utf8_decode rest)
            else None
        | _ => None
        end
      else if (0xF0 <=? b1) && (b1 <=? 0xF4) then
        match rest with
        | byte2 :: byte3 :: byte4 :: rest =>
            let b2 := Byte.to_N byte2 in
            let b3 := Byte.to_N byte3 in
            let b4 := Byte.to_N byte4 in
            if second_of_4 b1 b2 && continuation b3 && continuation b4 then
              option_map
                (cons ((b1 - 0xF0) * 0x40000 + (b2 - 0x80) * 0x1000
                       + (b3 - 0x80) * 0x40 + (b4 - 0x80)))
                (utf8_decode rest)
            else None
        | _ => None
        end
      else None
  end.

(** The translation of line ends a file opened for reading in text mode
    applies. *)
Fixpoint universal_newlines (s : pystr) : pystr :=
  match s with
  | [] => []
  | c :: rest =>
      if c =? 13 then
        newline :: match rest with
                   | c' :: rest' =>
                       if c' =? newline then universal_newlines rest'
                       else universal_newlines rest
                   | [] => []
                   end
      else c :: universal_newlines rest
  end.

(** [file.read()] on a file opened in text mode. *)
Definition read_text (bytes : list Byte.byte) : option pystr :=
  option_map universal_newlines (utf8_decode bytes).

(** The bytes of an ASCII literal. *)
Definition ascii_bytes (s : string) : list Byte.byte :=
  list_byte_of_string s.

(** How a call of [data_loader] ends: with the value it returns, or with
    the exception [file.read()] raises inside [json.load], which the
    clause for [json.JSONDecodeError] does not catch.  The parser itself
    stays the codec's [json_load], whose [None] is [JSONDecodeError]; the
    exceptions it has besides that one are outside this model. *)
Inductive load_result :=
| Returned (data : json)
| UnicodeDecodeError.

Definition data_loader_on_disk `{JsonCodec} (d : disk) (file_path : pystr)
    : load_result :=
  match d !! file_path with
  | None => Returned (JList [])
  | Some bytes =>
      match read_text bytes with
      | None => UnicodeDecodeError
      | Some text =>
          match json_load text with
          | Some data => Returned data
          | None => Returned (JList [])
          end
      end
  end.

(** ** password_utils.py: history *)

Definition msg_recent : pystr :=
  cross_mark :: lit " This password was recently used. Choose another.".
Definition msg_unique : pystr :=
  check_mark :: lit " Password is unique and not reused.".
Definition msg_criteria : pystr :=
  cross_mark :: lit " Password does not meet security criteria.".
Definition msg_added : pystr :=
  check_mark :: lit " Success: Password added successfully.".

(** The loop of [check_repeated_password]. *)
Fixpoint scan_passwords (entries : list json) (password : pystr)
    : outcome (bool * pystr) :=
  match entries with
  | [] => Return (true, msg_unique)
  | entry :: rest =>
      let* v := py_getitem entry (lit "password") in
      if py_eq_str v password then Return (false, msg_recent)
      else scan_passwords rest password
  end.

Definition check_repeated_password `{JsonCodec} (fs : files)
    (password : pystr) : outcome (bool * pystr) :=
  let passwords := data_loader fs PASSWORDS_FILE in
  let* entries := py_iter passwords in
  scan_passwords entries password.

Definition password_record (password : pystr) : json :=
  let analysis := password_evaluator password in
  JDict [ (lit "password", JStr password);
          (lit "score", JInt (Z.of_nat (score analysis)));
          (lit "rank", JStr (rank analysis));
          (lit "feedback", JList (List.map JStr (feedback analysis))) ].

(** [if len(passwords) > 5: passwords.pop(0)] *)
Definition maintain_last_5 (passwords : list json) : list json :=
  if (5 <? length passwords)%nat then tail passwords else passwords.

Definition add_password `{JsonCodec} (password : pystr) (fs : files)
    : outcome (pystr * files) :=
  let passwords := data_loader fs PASSWORDS_FILE in
  let* r := check_repeated_password fs password in
  let '(is_unique, history_message) := r in
  if negb is_unique then Return (history_message, fs)
  else if negb (password_validator password) then Return (msg_criteria, fs)
  else
    let* passwords := py_append passwords (password_record password) in
    let passwords := maintain_last_5 passwords in
    Return (msg_added, data_saver PASSWORDS_FILE (JList passwords) fs).

(** Calls of [add_password] one after the other, the messages collected;
    the first exception ends the run. *)
Fixpoint add_passwords `{JsonCodec} (passwords : list pystr) (fs : files)
    : outcome (list pystr * files) :=
  match passwords with
  | [] => Return ([], fs)
  | p :: ps =>
      let* r := add_password p fs in
      let* r' := add_passwords ps (snd r) in
      Return (fst r :: fst r', snd r')
  end.

(** ** password_utils.py: links *)

Definition msg_link_exists : pystr :=
  cross_mark
  :: lit " Error: A password is already stored for this site and username.".
Definition msg_link_saved : pystr :=
  check_mark :: lit " Success: Password saved for the site.".

(** The loop of [store_link]; [and] does not look at the user name when
    the site differs. *)
Fixpoint scan_links (entries : list json) (site username : pystr)
    : outcome bool :=
  match entries with
  | [] => Return false
  | entry :: rest =>
      let* s := py_getitem entry (lit "site") in
      let* same :=
        (if py_eq_str s site
         then let* u := py_getitem entry (lit "username") in
              Return (py_eq_str u username)
         else Return false) in
      if same : bool then Return true else scan_links rest site username
  end.

Definition link_record (site username password : pystr) : json :=
  let analysis := password_evaluator password in
  JDict [ (lit "site", JStr site);
          (lit "username", JStr username);
          (lit "password", JStr password);
          (lit "score", JInt (Z.of_nat (score analysis)));
          (lit "rank", JStr (rank analysis)) ].

Definition store_link `{JsonCodec} (site username password : pystr)
    (fs : files) : outcome (pystr * files) :=
  let links := data_loader fs LINKS_FILE in
  let* entries := py_iter links in
  let* taken := scan_links entries site username in
  if taken : bool then Return (msg_link_exists, fs)
  else
    let* links := py_append links (link_record site username password) in
    Return (msg_link_saved, data_saver LINKS_FILE (JList links) fs).

Definition get_linked_passwords `{JsonCodec} (fs : files) : json :=
  data_loader fs LINKS_FILE.

(** ** main.py: the page's own history and its save button *)

Definition password_file : pystr := lit "storage/passwords.json".

Definition load_passwords `{JsonCodec} (fs : files) : outcome json :=
  match fs !! password_file with
  | Some text =>
      match json_load text with
      | Some data => Return data
      | None => Raise JSONDecodeError
      end
  | None => Return (JList [])
  end.

Definition save_passwords `{JsonCodec} (passwords : json) (fs : files)
    : files :=
  <[password_file := json_dump passwords]> fs.

Fixpoint collect_passwords (entries : list json) : outcome (list json) :=
  match entries with
  | [] => Return []
  | entry :: rest =>
      let* v := py_getitem entry (lit "password") in
      let* vs := collect_passwords rest in
      Return (v :: vs)
  end.

(** Lines 81 to 93 of [main.py], run on the [password_history] the page
    loaded.  [passed_checks] is the count the display loop of lines 62 to
    78 reached over its five checks and [clicked] tells whether the Save
    Password button was pressed; both are inputs here.  The result is the
    history the page holds afterwards and the files. *)
Definition save_password_button `{JsonCodec} (passed_checks : nat)
    (clicked : bool) (password : pystr) (result : analysis)
    (password_history : json) (fs : files) : outcome (json * files) :=
  let* entries := py_iter password_history in
  let* existing_passwords := collect_passwords entries in
  if (passed_checks =? 5)%nat then
    if existsb (fun v => py_eq_str v password) existing_passwords
    then Return (password_history, fs)
    else if clicked then
      let password_entry :=
        JDict [ (lit "password", JStr password);
                (lit "rank", JInt (Z.of_nat (score result))) ] in
      let* history' := py_append password_history password_entry in
      Return (JList history', save_passwords (JList history') fs)
    else Return (password_history, fs)
  else Return (password_history, fs).

(** ** The JSON text of the records

    A printer and a reader for the text layout [json.dump(..., indent=4)]
    gives to the values of [json]: four spaces per level, a comma at
    the end of the line after each item but the last, a colon and a
    space after a key, strings escaped down to ASCII.  They are one
    instance of [JsonCodec]; the properties of the store below are stated
    for any instance.  Numbers with a
    fraction or an exponent and the names [NaN] and [Infinity] denote
    floats; they have no counterpart in [json] and the reader refuses
    them. *)

Definition hex_digit (d : N) : codepoint :=
  if d <? 10 then 48 + d else 87 + d.

Definition hex4 (n : N) : pystr :=
  [ hex_digit (n / 4096); hex_digit (n / 256 mod 16);
    hex_digit (n / 16 mod 16); hex_digit (n mod 16) ].

(** [\uXXXX] *)
Definition u_escape (n : N) : pystr := 92 :: 117 :: hex4 n.

Definition escape_char (c : codepoint) : pystr :=
  if c =? 34 then [92; 34]                  (* quote *)
  else if c =? 92 then [92; 92]             (* backslash *)
  else if c =? 10 then [92; 110]            (* \n *)
  else if c =? 13 then [92; 114]            (* \r *)
  else if c =? 9 then [92; 116]             (* \t *)
  else if c =? 12 then [92; 102]            (* \f *)
  else if c =? 8 then [92; 98]              (* \b *)
  else if (32 <=? c) && (c <=? 126) then [c]
  else if c <? 0x10000 then u_escape c
  else
    (* a surrogate pair *)
    let n := c - 0x10000 in
    u_escape (0xD800 + n / 0x400 mod 0x400) ++ u_escape (0xDC00 + n mod 0x400).

Definition dump_str (s : pystr) : pystr :=
  34 :: flat_map escape_char s ++ [34].

Fixpoint digits_from (fuel : nat) (n : N) (acc : pystr) : pystr :=
  let acc' := (48 + n mod 10) :: acc in
  match fuel with
  | O => acc'
  | S fuel' => if n <? 10 then acc' else digits_from fuel' (n / 10) acc'
  end.

(** The decimal digits of [n], most significant first. *)
Definition digits (n : N) : pystr := digits_from (N.to_nat (N.log2 n)) n [].

Definition dump_int (n : Z) : pystr :=
  if (n <? 0)%Z then 45 :: digits (Z.to_N (- n)) else digits (Z.to_N n).

(** A line break and the indentation of [level]. *)
Definition indent_to (level : nat) : pystr :=
  newline :: repeat 32 (4 * level).

Fixpoint join (sep : pystr) (chunks : list pystr) : pystr :=
  match chunks with
  | [] => []
  | [c] => c
  | c :: cs => c ++ sep ++ join sep cs
  end.

Fixpoint dump (level : nat) (v : json) : pystr :=
  match v with
  | JNull => lit "null"
  | JBool true => lit "true"
  | JBool false => lit "false"
  | JInt n => dump_int n
  | JStr s => dump_str s
  | JList [] => lit "[]"
  | JList l =>
      lit "[" ++ indent_to (S level)
      ++ join (lit "," ++ indent_to (S level)) (List.map (dump (S level)) l)
      ++ indent_to level ++ lit "]"
  | JDict [] => lit "{}"
  | JDict d =>
      lit "{" ++ indent_to (S level)
      ++ join (lit "," ++ indent_to (S level))
           (List.map (fun kv => dump_str (fst kv) ++ lit ": "
                                ++ dump (S level) (snd kv)) d)
      ++ indent_to level ++ lit "}"
  end.

Definition is_ws (c : codepoint) : bool :=
  (c =? 32) || (c =? 9) || (c =? 10) || (c =? 13).

Fixpoint skip_ws (s : pystr) : pystr :=
  match s with
  | c :: s' => if is_ws c then skip_ws s' else s
  | [] => []
  end.

Definition hex_value (c : codepoint) : option N :=
  if (48 <=? c) && (c <=? 57) then Some (c - 48)
  else if (97 <=? c) && (c <=? 102) then Some (c - 87)
  else if (65 <=? c) && (c <=? 70) then Some (c - 55)
  else None.

Definition hex4_value (a b c d : codepoint) : option N :=
  match hex_value a, hex_value b, hex_value c, hex_value d with
  | Some x3, Some x2, Some x1, Some x0 =>
      Some (4096 * x3 + 256 * x2 + 16 * x1 + x0)
  | _, _, _, _ => None
  end.

Definition push (c : codepoint) (r : option (pystr * pystr))
    : option (pystr * pystr) :=
  match r with
  | Some (str, rest) => Some (c :: str, rest)
  | None => None
  end.

Definition simple_escape (e : codepoint) : option codepoint :=
  if e =? 34 then Some 34
  else if e =? 92 then Some 92
  else if e =? 47 then Some 47
  else if e =? 98 then Some 8
  else if e =? 102 then Some 12
  else if e =? 110 then Some 10
  else if e =? 114 then Some 13
  else if e =? 116 then Some 9
  else None.

Definition is_high_surrogate (n : N) : bool := (0xD800 <=? n) && (n <=? 0xDBFF).
Definition is_low_surrogate (n : N) : bool := (0xDC00 <=? n) && (n <=? 0xDFFF).

(** The characters of a string up to its closing quote, and the text
    after it; [s] starts after the opening quote. *)
Fixpoint scan_string (s : pystr) : option (pystr * pystr) :=
  match s with
  | [] => None
  | c :: s1 =>
      if c =? 34 then Some ([], s1)
      else if c =? 92 then
        match s1 with
        | [] => None
        | e :: s2 =>
            if e =? 117 then
              match s2 with
              | h1 :: h2 :: h3 :: h4 :: s3 =>
                  match hex4_value h1 h2 h3 h4 with
                  | None => None
                  | Some uni =>
                      match s3 with
                      | b :: u :: l1 :: l2 :: l3 :: l4 :: s4 =>
                          match hex4_value l1 l2 l3 l4 with
                          | Some uni2 =>
                              if is_high_surrogate uni && (b =? 92)
                                 && (u =? 117) && is_low_surrogate uni2
                              then push (0x10000 + (uni - 0xD800) * 0x400
                                         + (uni2 - 0xDC00))
                                        (scan_string s4)
                              else push uni (scan_string s3)
                          | None => push uni (scan_string s3)
                          end
                      | _ => push uni (scan_string s3)
                      end
                  end
              | _ => None
              end
            else
              match simple_escape e with
              | Some c' => push c' (scan_string s2)
              | None => None
              end
        end
      else if c <? 32 then None
      else push c (scan_string s1)
  end.

Definition is_digit (c : codepoint) : bool := (48 <=? c) && (c <=? 57).

Fixpoint span_digits (s : pystr) : pystr * pystr :=
  match s with
  | c :: s' =>
      if is_digit c
      then (c :: fst (span_digits s'), snd (span_digits s'))
      else ([], s)
  | [] => ([], [])
  end.

Definition digits_value (a : N) (ds : pystr) : N :=
  fold_left (fun a c => 10 * a + (c - 48)) ds a.

Definition starts_fraction (s : pystr) : bool :=
  match s with
  | c :: _ => (c =? 46) || (c =? 101) || (c =? 69)
  | [] => false
  end.

(** An integer: an optional sign, then [0] or a run of digits that does
    not start with [0]. *)
Definition scan_number (s : pystr) : option (Z * pystr) :=
  let negative := match s with c :: _ => c =? 45 | [] => false end in
  let s1 := if negative then tail s else s in
  let '(ds, rest) := span_digits s1 in
  match ds with
  | [] => None
  | d :: ds' =>
      if (d =? 48) && negb (bool_decide (ds' = [])) then None
      else if starts_fraction rest then None
      else
        let n := Z.of_N (digits_value 0 ds) in
        Some (if negative then (- n)%Z else n, rest)
  end.

Definition strip_prefix (p s : pystr) : option pystr :=
  if bool_decide (take (length p) s = p) then Some (drop (length p) s)
  else None.

(** [d[k] = v] *)
Fixpoint dict_set (k : pystr) (v : json) (d : list (pystr * json))
    : list (pystr * json) :=
  match d with
  | [] => [(k, v)]
  | (k', v') :: d' =>
      if str_eqb k' k then (k', v) :: d' else (k', v') :: dict_set k v d'
  end.

Definition dict_of_pairs (pairs : list (pystr * json))
    : list (pystr * json) :=
  fold_left (fun d kv => dict_set (fst kv) (snd kv) d) pairs [].

Definition opt_bind {A B} (o : option A) (f : A -> option B) : option B :=
  match o with
  | Some a => f a
  | None => None
  end.

Fixpoint parse_value (fuel : nat) (s : pystr) : option (json * pystr) :=
  match fuel with
  | O => None
  | S fuel' =>
      match s with
      | [] => None
      | c :: s' =>
          if c =? 34 then
            opt_bind (scan_string s') (fun r => Some (JStr (fst r), snd r))
          else if c =? 91 then
            match skip_ws s' with
            | c1 :: s1 =>
                if c1 =? 93 then Some (JList [], s1)
                else opt_bind (parse_items fuel' (c1 :: s1))
                       (fun r => Some (JList (fst r), snd r))
            | [] => None
            end
          else if c =? 123 then
            match skip_ws s' with
            | c1 :: s1 =>
                if c1 =? 125 then Some (JDict [], s1)
                else opt_bind (parse_members fuel' (c1 :: s1))
                       (fun r => Some (JDict (dict_of_pairs (fst r)), snd r))
            | [] => None
            end
          else if c =? 110 then
            opt_bind (strip_prefix (lit "null") s) (fun r => Some (JNull, r))
          else if c =? 116 then
            opt_bind (strip_prefix (lit "true") s)
              (fun r => Some (JBool true, r))
          else if c =? 102 then
            opt_bind (strip_prefix (lit "false") s)
              (fun r => Some (JBool false, r))
          else
            opt_bind (scan_number s) (fun r => Some (JInt (fst r), snd r))
      end
  end

with parse_items (fuel : nat) (s : pystr) : option (list json * pystr) :=
  match fuel with
  | O => None
  | S fuel' =>
      opt_bind (parse_value fuel' s) (fun r =>
        match skip_ws (snd r) with
        | c :: s1 =>
            if c =? 93 then Some ([fst r], s1)
            else if c =? 44 then
              opt_bind (parse_items fuel' (skip_ws s1))
                (fun r' => Some (fst r :: fst r', snd r'))
            else None
        | [] => None
        end)
  end

with parse_members (fuel : nat) (s : pystr)
    : option (list (pystr * json) * pystr) :=
  match fuel with
  | O => None
  | S fuel' =>
      match s with
      | q :: s0 =>
          if q =? 34 then
            opt_bind (scan_string s0) (fun key =>
              match skip_ws (snd key) with
              | colon :: s1 =>
                  if colon =? 58 then
                    opt_bind (parse_value fuel' (skip_ws s1)) (fun r =>
                      match skip_ws (snd r) with
                      | c :: s2 =>
                          if c =? 125 then Some ([(fst key, fst r)], s2)
                          else if c =? 44 then
                            opt_bind (parse_members fuel' (skip_ws s2))
                              (fun r' =>
                                 Some ((fst key, fst r) :: fst r', snd r'))
                          else None
                      | [] => None
                      end)
                  else None
              | [] => None
              end)
          else None
      | [] => None
      end
  end.

Definition loads (s : pystr) : option json :=
  opt_bind (parse_value (length s) (skip_ws s)) (fun r =>
    match skip_ws (snd r) with
    | [] => Some (fst r)
    | _ :: _ => None
    end).

Definition python_json : JsonCodec :=
  {| json_dump := dump 0; json_load := loads |}.

(** *** Layout of the text

    Notions the round trip of the codec is stated with. *)

(** What may follow a number: nothing, or a character that neither
    continues it nor turns it into a float. *)
Definition number_ends (rest : pystr) : bool :=
  match rest with
  | [] => true
  | c :: _ => negb (is_digit c) && negb (starts_fraction rest)
  end.

(** Text that opens with a character of a value: no white space and no
    closing bracket. *)
Definition starts_value (s : pystr) : bool :=
  match s with
  | c :: _ => negb (is_ws c) && negb (c =? 93) && negb (c =? 125)
  | [] => false
  end.

(** The comma and the line break between two items. *)
Definition item_sep (level : nat) : pystr := 44 :: indent_to (S level).

(** A key, the colon and the value. *)
Definition member_text (level : nat) (kv : pystr * json) : pystr :=
  dump_str (fst kv) ++ [58; 32] ++ dump (S level) (snd kv).

(** ** Valid collections

    What [json.dump] followed by [json.load] is expected to give back
    unchanged: strings of Unicode scalar values (no surrogate code
    points) and dictionaries without a repeated key. *)

Definition scalar_value (c : codepoint) : bool :=
  (c <? 0xD800) || ((0xDFFF <? c) && (c <=? 0x10FFFF)).

Definition str_valid (s : pystr) : bool := forallb scalar_value s.

Fixpoint distinct (keys : list pystr) : bool :=
  match keys with
  | [] => true
  | k :: ks => negb (existsb (str_eqb k) ks) && distinct ks
  end.

Fixpoint json_valid (v : json) : bool :=
  match v with
  | JStr s => str_valid s
  | JList l => forallb json_valid l
  | JDict d =>
      forallb (fun kv => str_valid (fst kv) && json_valid (snd kv)) d
      && distinct (List.map fst d)
  | _ => true
  end.

(** The assumption on the [json] module. *)
Definition lawful (codec : JsonCodec) : Prop :=
  forall v, json_valid v = true -> json_load (json_dump v) = Some v.

Fixpoint weight (v : json) : nat :=
  match v with
  | JList l => S (list_sum (List.map (fun x => S (weight x)) l))
  | JDict d => S (list_sum (List.map (fun kv => S (weight (snd kv))) d))
  | _ => 1
  end.

(** ** Well-formed collections *)

(** The value a record holds under [key], if it is a dictionary that has
    the key. *)
Definition field (key : pystr) (entry : json) : option json :=
  match entry with
  | JDict d => assoc key d
  | _ => None
  end.

Definition has_field (key : pystr) (entry : json) : Prop :=
  is_Some (field key entry).

(** The record's [password] field is exactly [password]. *)
Definition password_is (password : pystr) (entry : json) : Prop :=
  field (lit "password") entry = Some (JStr password).

Definition is_link_record (entry : json) : Prop :=
  has_field (lit "site") entry /\ has_field (lit "username") entry.

(** The record is about the pair ([site], [username]). *)
Definition link_is (site username : pystr) (entry : json) : Prop :=
  field (lit "site") entry = Some (JStr site)
  /\ field (lit "username") entry = Some (JStr username).

(** The password fields of a history, in order. *)
Definition stored_passwords (entries : list json) : list (option json) :=
  List.map (field (lit "password")) entries.

(** The (site, username) pairs of a link collection, in order. *)
Definition link_pairs (entries : list json)
    : list (option json * option json) :=
  List.map (fun e => (field (lit "site") e, field (lit "username") e))
    entries.

(** ** main.py: one run of the page

    Streamlit runs the script from the top on every interaction;
    [st.rerun()] ends the run after a change was saved, and an exception
    ends it with the error shown.  The inputs of a run are the text of
    the checker field, the number of display checks that passed (lines 54
    to 78, taken as an input as in [save_password_button]), the Save
    Password button, and for each row of the history tab the text of its
    edit field and its Delete button.  The style sheet the script opens
    first is taken to exist. *)

(** [if v:] *)
Definition py_truthy (v : json) : bool :=
  match v with
  | JNull => false
  | JBool b => b
  | JInt n => negb (n =? 0)%Z
  | JStr s => negb (bool_decide (s = []))
  | JList l => negb (bool_decide (l = []))
  | JDict d => negb (bool_decide (d = []))
  end.

Inductive page_error :=
| StoreError (e : exn)     (* an exception of the kinds the store raises *)
| NameError                (* a name that was never bound *)
| IndexError.

Inductive step (A : Type) :=
| Continue                 (* the run goes on, nothing was changed *)
| Rerun (a : A)            (* a change was saved and [st.rerun()] called *)
| Crash (e : page_error).
Arguments Continue {A}.
Arguments Rerun {A} a.
Arguments Crash {A} e.

(** [password_history[i]['password'] = new_password] *)
Definition set_password_at (password_history : json) (i : nat)
    (new_password : pystr) : page_error + json :=
  match password_history with
  | JList l =>
      match l !! i with
      | Some (JDict d) =>
          inr (JList (<[i := JDict (dict_set (lit "password")
                                      (JStr new_password) d)]> l))
      | Some _ => inl (StoreError TypeError)
      | None => inl IndexError
      end
  | JDict _ => inl (StoreError KeyError)
  | JStr s =>
      if (i <? length s)%nat then inl (StoreError TypeError)
      else inl IndexError
  | _ => inl (StoreError TypeError)
  end.

(** [password_history.pop(i)] *)
Definition pop_at (password_history : json) (i : nat) : page_error + json :=
  match password_history with
  | JList l =>
      if (i <? length l)%nat then inr (JList (delete i l)) else inl IndexError
  | JDict _ => inl (StoreError KeyError)
  | _ => inl (StoreError AttributeError)
  end.

Definition saved `{JsonCodec} (r : page_error + json) (fs : files)
    : step (json * files) :=
  match r with
  | inl e => Crash e
  | inr password_history =>
      Rerun (password_history, save_passwords password_history fs)
  end.

(** Lines 102 to 123: the row of [entry], the [i]-th of the history.
    [existing_passwords] is [None] when line 81 did not run. *)
Definition history_row `{JsonCodec} (existing_passwords : option (list json))
    (i : nat) (entry : json) (new_password : pystr) (delete_clicked : bool)
    (password_history : json) (fs : files) : step (json * files) :=
  match py_getitem entry (lit "rank") with
  | Raise e => Crash (StoreError e)
  | Return _ =>
      match py_getitem entry (lit "password") with
      | Raise e => Crash (StoreError e)
      | Return _ =>
          let delete_column :=
            if delete_clicked then saved (pop_at password_history i) fs
            else Continue in
          match new_password with
          | [] => delete_column
          | _ :: _ =>
              match existing_passwords with
              | None => Crash NameError
              | Some existing =>
                  if existsb (fun v => py_eq_str v new_password) existing
                  then delete_column
                  else saved (set_password_at password_history i
                                new_password) fs
              end
          end
      end
  end.

(** The loop of line 101 from row [i] on. *)
Fixpoint history_rows `{JsonCodec} (existing_passwords : option (list json))
    (rows : nat -> pystr * bool) (i : nat) (entries : list json)
    (password_history : json) (fs : files) : step (json * files) :=
  match entries with
  | [] => Continue
  | entry :: rest =>
      match history_row existing_passwords i entry (fst (rows i))
              (snd (rows i)) password_history fs with
      | Continue =>
          history_rows existing_passwords rows (S i) rest password_history fs
      | r => r
      end
  end.

(** Lines 97 to 127. *)
Definition history_tab `{JsonCodec} (existing_passwords : option (list json))
    (rows : nat -> pystr * bool) (password_history : json) (fs : files)
    : step (json * files) :=
  if py_truthy password_history then
    match py_iter password_history with
    | Raise e => Crash (StoreError e)
    | Return entries =>
        history_rows existing_passwords rows 0 entries password_history fs
    end
  else Continue.

Record page_input := {
  typed : pystr;                   (* the checker field *)
  passed_checks : nat;             (* display checks passed, of five *)
  save_clicked : bool;             (* the Save Password button *)
  rows : nat -> pystr * bool       (* edit field and Delete button per row *)
}.

(** The whole script: the history is loaded, the checker tab runs when
    its field is not empty, then the history tab. *)
Definition page_run `{JsonCodec} (inp : page_input) (fs : files)
    : step (json * files) :=
  match load_passwords fs with
  | Raise e => Crash (StoreError e)
  | Return password_history =>
      match typed inp with
      | [] => history_tab None (rows inp) password_history fs
      | _ :: _ =>
          let password := typed inp in
          let result := password_evaluator password in
          match (let* entries := py_iter password_history in
                 collect_passwords entries) with
          | Raise e => Crash (StoreError e)
          | Return existing_passwords =>
              if (passed_checks inp =? 5)%nat
                 && negb (existsb (fun v => py_eq_str v password)
                            existing_passwords)
                 && save_clicked inp
              then
                let password_entry :=
                  JDict [ (lit "password", JStr password);
                          (lit "rank", JInt (Z.of_nat (score result))) ] in
                match py_append password_history password_entry with
                | Raise e => Crash (StoreError e)
                | Return history' =>
                    Rerun (JList history',
                           save_passwords (JList history') fs)
                end
              else
                history_tab (Some existing_passwords) (rows inp)
                  password_history fs
          end
      end
  end.

(** The special characters both sets share. *)
Definition shared_specials : pystr := lit "@$!%*&".

(** A record the history tab can show: it has a rank and a password. *)
Definition row_ok (entry : json) : Prop :=
  has_field (lit "rank") entry /\ has_field (lit "password") entry.

(** * Properties *)

(** ** Character classes *)

Lemma item_matches_range c lo hi :
  item_matches c (CRange lo hi) = true <-> lo <= c <= hi.
Proof.
  simpl. rewrite andb_true_iff, !N.leb_le. tauto.
Qed.

Lemma item_matches_one_of c cs :
  item_matches c (COneOf cs) = true <-> c ∈ cs.
Proof.
  simpl. rewrite existsb_exists. split.
  - intros (x & Hin & Heq). apply N.eqb_eq in Heq. subst x.
    by apply list_elem_of_In.
  - intros Hin. exists c. split; [by apply list_elem_of_In | apply N.eqb_refl].
Qed.

Lemma class_single it c : class_matches [it] c = item_matches c it.
Proof. unfold class_matches. simpl. apply orb_false_r. Qed.

Lemma existsb_Exists {A} (f : A -> bool) (P : A -> Prop) (l : list A) :
  (forall x, f x = true <-> P x) ->
  existsb f l = true <-> Exists P l.
Proof.
  intros Hf. rewrite existsb_exists, Exists_exists.
  split; intros (x & Hin & Hx); exists x.
  - split; [by apply list_elem_of_In | by apply Hf].
  - split; [by apply list_elem_of_In | by apply Hf].
Qed.

Lemma forallb_Forall' {A} (f : A -> bool) (P : A -> Prop) (l : list A) :
  (forall x, f x = true <-> P x) ->
  forallb f l = true <-> Forall P l.
Proof.
  intros Hf. induction l as [|x l IH]; simpl.
  - split; [constructor | done].
  - rewrite andb_true_iff, IH, Hf, Forall_cons. tauto.
Qed.

(** ** Searching for one character of a class *)

Lemma search_from_class cls i s :
  search_from (Chr cls) i s = existsb (class_matches cls) s.
Proof.
  revert i. induction s as [|c s IH]; intros i; simpl; [done|].
  rewrite IH. unfold found. by rewrite andb_true_r.
Qed.

Lemma re_search_class cls s :
  re_search (Chr cls) s = existsb (class_matches cls) s.
Proof. apply search_from_class. Qed.

Lemma search_upper p :
  re_search (Chr [ascii_upper]) p = true <-> Exists is_upper p.
Proof.
  rewrite re_search_class. apply existsb_Exists. intros c.
  rewrite class_single. apply item_matches_range.
Qed.

Lemma search_lower p :
  re_search (Chr [ascii_lower]) p = true <-> Exists is_lower p.
Proof.
  rewrite re_search_class. apply existsb_Exists. intros c.
  rewrite class_single. apply item_matches_range.
Qed.

Lemma search_digit p :
  re_search (Chr [CDigit]) p = true <-> has_digit p.
Proof.
  rewrite re_search_class. apply existsb_Exists. intros c.
  by rewrite class_single.
Qed.

Lemma search_special p :
  re_search (Chr [COneOf evaluator_specials]) p = true <-> has_special p.
Proof.
  rewrite re_search_class. apply existsb_Exists. intros c.
  rewrite class_single. apply item_matches_one_of.
Qed.

Lemma bool_decide_of (b : bool) (P : Prop) `{Decision P} :
  (b = true <-> P) -> b = bool_decide P.
Proof.
  intros Hb. destruct b; symmetry.
  - apply bool_decide_eq_true. by apply Hb.
  - apply bool_decide_eq_false. intros HP. apply Hb in HP. done.
Qed.

Lemma length_check p : (8 <=? length p)%nat = bool_decide (length_ok p).
Proof. apply bool_decide_of. apply Nat.leb_le. Qed.

Lemma case_check p :
  re_search (Chr [ascii_upper]) p && re_search (Chr [ascii_lower]) p
  = bool_decide (case_mix p).
Proof.
  apply bool_decide_of. rewrite andb_true_iff, search_upper, search_lower.
  done.
Qed.

Lemma digit_check p :
  re_search (Chr [CDigit]) p = bool_decide (has_digit p).
Proof. apply bool_decide_of, search_digit. Qed.

Lemma special_check p :
  re_search (Chr [COneOf evaluator_specials]) p = bool_decide (has_special p).
Proof. apply bool_decide_of, search_special. Qed.

(** ** The evaluator *)

Lemma evaluator_refines (p : pystr) :
  password_evaluator p = evaluator_spec p.
Proof.
  unfold password_evaluator, evaluator_spec, predicates.
  rewrite length_check, case_check, digit_check, special_check.
  destruct (bool_decide (length_ok p)), (bool_decide (case_mix p)),
    (bool_decide (has_digit p)), (bool_decide (has_special p));
    reflexivity.
Qed.


Lemma check_total passed msg acc :
  (fst (check passed msg acc) + length (snd (check passed msg acc))
   = S (fst acc + length (snd acc)))%nat.
Proof.
  destruct acc as [n fb], passed; simpl; [done|].
  rewrite length_app. simpl. lia.
Qed.

(** C9: the score and the number of feedback messages add up to 4, each
    predicate giving either a point or one message. *)
Theorem score_plus_feedback (p : pystr) :
  (score (password_evaluator p) + length (feedback (password_evaluator p))
   = 4)%nat.
Proof.
  unfold password_evaluator. cbn [score feedback].
  by rewrite !check_total.
Qed.

(** ** The validator's pattern *)

Lemma chomp_cons2 c c' s : chomp (c :: c' :: s) = c :: chomp (c' :: s).
Proof. reflexivity. Qed.

Lemma chomp_length s : (length (chomp s) <= length s)%nat.
Proof.
  induction s as [|c [|c' s] IH]; [done| |].
  - simpl. destruct (c =? newline); simpl; lia.
  - rewrite chomp_cons2. cbn [length] in *. lia.
Qed.

Lemma chomp_cases s : s = chomp s \/ s = chomp s ++ [newline].
Proof.
  induction s as [|c [|c' s] IH]; [by left| |].
  - simpl. destruct (c =? newline) eqn:E; [|by left].
    apply N.eqb_eq in E. subst c. by right.
  - rewrite chomp_cons2. destruct IH as [IH|IH]; [left|right].
    + by rewrite <- IH.
    + by rewrite <- app_comm_cons, <- IH.
Qed.

Lemma chomp_no_newline s : newline ∉ s -> chomp s = s.
Proof.
  induction s as [|c [|c' s] IH]; intros Hnl; [done| |].
  - simpl. destruct (c =? newline) eqn:E; [|done].
    apply N.eqb_eq in E. subst c. exfalso. apply Hnl. left.
  - rewrite chomp_cons2, IH; [done|].
    intros Hin. apply Hnl. by right.
Qed.

Lemma eol_found i s :
  accepts Eol i s found
  = match s with [] => true | [c] => c =? newline | _ => false end.
Proof. destruct s as [|c [|c' s]]; simpl; [done| |done]. apply andb_true_r. Qed.

(** [.*] followed by one character of a class that has no newline. *)
Lemma star_dot_class cls fuel i s :
  class_matches cls newline = false ->
  (length s < fuel)%nat ->
  star (accepts Dot) fuel i s (fun i' s' => accepts (Chr cls) i' s' found)
  = existsb (class_matches cls) (first_line s).
Proof.
  intros Hnl. revert i s.
  induction fuel as [|fuel IH]; intros i s Hlen; [lia|].
  destruct s as [|c s]; [reflexivity|].
  cbn [star accepts first_line]. cbn [length] in Hlen.
  rewrite IH by lia.
  replace (length s <? length (c :: s))%nat with true
    by (symmetry; apply Nat.ltb_lt; simpl; lia).
  unfold found. rewrite andb_true_r. cbn [andb].
  destruct (c =? newline) eqn:E.
  - apply N.eqb_eq in E. subst c. rewrite Hnl. reflexivity.
  - cbn [negb andb existsb]. apply orb_comm.
Qed.

Lemma ahead_class cls i s k :
  class_matches cls newline = false ->
  accepts (Ahead (Cat (Star Dot) (Chr cls))) i s k
  = existsb (class_matches cls) (first_line s) && k i s.
Proof.
  intros Hnl. cbn [accepts]. f_equal.
  apply (star_dot_class cls (S (length s)) i s Hnl). lia.
Qed.

(** [[...]*$] for a class that has no newline. *)
Lemma star_class_end cls fuel i s :
  class_matches cls newline = false ->
  (length s < fuel)%nat ->
  star (accepts (Chr cls)) fuel i s (fun i' s' => accepts Eol i' s' found)
  = forallb (class_matches cls) (chomp s).
Proof.
  intros Hnl. revert i s.
  induction fuel as [|fuel IH]; intros i s Hlen; [lia|].
  cbn [star]. rewrite eol_found.
  destruct s as [|c [|c' s]].
  - reflexivity.
  - cbn [accepts length]. cbn [length] in Hlen.
    rewrite IH by (simpl; lia). cbn [chomp forallb].
    replace (0 <? 1)%nat with true by reflexivity. cbn [andb].
    rewrite andb_true_r.
    destruct (c =? newline) eqn:E.
    + apply orb_true_r.
    + cbn [forallb]. by rewrite andb_true_r, orb_false_r.
  - cbn [accepts]. cbn [length] in Hlen.
    rewrite IH by (simpl; lia). rewrite chomp_cons2. cbn [forallb].
    replace (length (c' :: s) <? length (c :: c' :: s))%nat with true
      by (symmetry; apply Nat.ltb_lt; simpl; lia).
    cbn [andb]. apply orb_false_r.
Qed.

(** [[...]{n,}$] for a class that has no newline. *)
Lemma at_least_class_end cls n i s :
  class_matches cls newline = false ->
  accepts (Cat (AtLeast n (Chr cls)) Eol) i s found
  = (n <=? length (chomp s))%nat && forallb (class_matches cls) (chomp s).
Proof.
  intros Hnl. cbn [accepts]. revert i s.
  induction n as [|n IH]; intros i s.
  - cbn [times]. rewrite (star_class_end cls _ i s Hnl) by lia. reflexivity.
  - cbn [times accepts]. destruct s as [|c [|c' s]].
    + reflexivity.
    + rewrite IH. cbn [chomp length forallb].
      destruct (c =? newline) eqn:E.
      * apply N.eqb_eq in E. subst c. rewrite Hnl. reflexivity.
      * cbn [length forallb]. destruct n; cbn; [|apply andb_false_r].
        reflexivity.
    + rewrite IH, chomp_cons2. cbn [length forallb].
      change (S n <=? S (length (chomp (c' :: s))))%nat
        with (n <=? length (chomp (c' :: s)))%nat.
      destruct (class_matches cls c), (n <=? length (chomp (c' :: s)))%nat;
        reflexivity.
Qed.

Lemma first_line_chomp (f : codepoint -> bool) s :
  f newline = false -> forallb f (chomp s) = true -> first_line s = chomp s.
Proof.
  intros Hnl. induction s as [|c [|c' s] IH]; [done| |].
  - simpl. by destruct (c =? newline).
  - rewrite chomp_cons2. cbn [forallb first_line].
    intros [Hc Hrest]%andb_true_iff.
    destruct (c =? newline) eqn:E.
    + apply N.eqb_eq in E. subst c. congruence.
    + f_equal. by apply IH.
Qed.

Lemma accepts_cat r1 r2 i s k :
  accepts (Cat r1 r2) i s k
  = accepts r1 i s (fun i' s' => accepts r2 i' s' k).
Proof. reflexivity. Qed.

Lemma accepts_bol s k : accepts Bol 0%nat s k = k 0%nat s.
Proof. reflexivity. Qed.

Lemma class_cons it cls c :
  class_matches (it :: cls) c = item_matches c it || class_matches cls c.
Proof. reflexivity. Qed.

Lemma letter_class_spec c :
  class_matches [ascii_upper; ascii_lower] c = true <-> is_letter c.
Proof.
  rewrite class_cons, class_single, orb_true_iff.
  unfold ascii_upper, ascii_lower. rewrite !item_matches_range. done.
Qed.

Lemma digit_class_spec c : class_matches [CDigit] c = true <-> is_decimal c.
Proof. by rewrite class_single. Qed.

Lemma special_class_spec c :
  class_matches [COneOf validator_specials] c = true
  <-> is_validator_special c.
Proof. rewrite class_single. apply item_matches_one_of. Qed.

Lemma whole_class_spec c :
  class_matches
    [ascii_upper; ascii_lower; CDigit; COneOf validator_specials] c = true
  <-> validator_char c.
Proof.
  rewrite 3!class_cons, class_single, !orb_true_iff.
  unfold ascii_upper, ascii_lower.
  rewrite !item_matches_range, item_matches_one_of.
  unfold validator_char, is_letter, is_upper, is_lower, is_decimal. simpl.
  tauto.
Qed.

(** The pattern, read as a condition on the password without the newline
    that may end it. *)
Lemma password_validator_unfold p :
  password_validator p
  = existsb (class_matches [ascii_upper; ascii_lower]) (first_line p)
    && (existsb (class_matches [CDigit]) (first_line p)
    && (existsb (class_matches [COneOf validator_specials]) (first_line p)
    && ((8 <=? length (chomp p))%nat
        && forallb (class_matches [ascii_upper; ascii_lower; CDigit;
                                   COneOf validator_specials]) (chomp p)))).
Proof.
  unfold password_validator, re_match, password_regex_pattern.
  rewrite accepts_cat, accepts_bol.
  rewrite accepts_cat, ahead_class by reflexivity.
  rewrite accepts_cat, ahead_class by reflexivity.
  rewrite accepts_cat, ahead_class by reflexivity.
  by rewrite at_least_class_end by reflexivity.
Qed.

(** [is_valid] accepts exactly the passwords that meet the five
    conditions once a newline at their end is set aside. *)
Theorem password_validator_chomp (p : pystr) :
  password_validator p = true <-> validator_spec (chomp p).
Proof.
  rewrite password_validator_unfold. unfold validator_spec.
  rewrite !andb_true_iff, Nat.leb_le.
  rewrite (forallb_Forall' _ _ _ whole_class_spec).
  split.
  - intros (Hl & Hd & Hs & Hlen & Hall).
    assert (first_line p = chomp p) as Hfl.
    { apply (first_line_chomp
               (class_matches [ascii_upper; ascii_lower; CDigit;
                               COneOf validator_specials]));
        [reflexivity|]. by apply (forallb_Forall' _ _ _ whole_class_spec). }
    rewrite Hfl in Hl, Hd, Hs.
    apply (existsb_Exists _ _ _ letter_class_spec) in Hl.
    apply (existsb_Exists _ _ _ digit_class_spec) in Hd.
    apply (existsb_Exists _ _ _ special_class_spec) in Hs.
    done.
  - intros (Hl & Hd & Hs & Hlen & Hall).
    assert (first_line p = chomp p) as Hfl.
    { apply (first_line_chomp
               (class_matches [ascii_upper; ascii_lower; CDigit;
                               COneOf validator_specials]));
        [reflexivity|]. by apply (forallb_Forall' _ _ _ whole_class_spec). }
    rewrite Hfl.
    apply (existsb_Exists _ _ _ letter_class_spec) in Hl.
    apply (existsb_Exists _ _ _ digit_class_spec) in Hd.
    apply (existsb_Exists _ _ _ special_class_spec) in Hs.
    done.
Qed.

(** On passwords that hold no newline the validator is the one the
    specification describes. *)
Corollary password_validator_one_line (p : pystr) :
  newline ∉ p -> (password_validator p = true <-> validator_spec p).
Proof.
  intros Hnl. rewrite password_validator_chomp. by rewrite chomp_no_newline.
Qed.

Lemma Exists_chomp (P : codepoint -> Prop) s :
  Exists P (chomp s) -> Exists P s.
Proof.
  intros H. destruct (chomp_cases s) as [E|E]; rewrite E; [done|].
  apply Exists_app. by left.
Qed.

Lemma validator_length p : password_validator p = true -> length_ok p.
Proof.
  intros (_ & _ & _ & Hlen & _)%password_validator_chomp.
  unfold length_ok. pose proof (chomp_length p). lia.
Qed.

Lemma validator_digit p : password_validator p = true -> has_digit p.
Proof.
  intros (_ & Hd & _)%password_validator_chomp. by apply Exists_chomp.
Qed.

(** C2: a password that ends in a newline is accepted although the
    newline is none of the letters, digits and special characters the
    pattern lists, so [is_valid] does not reject every password that
    holds a character outside that set. *)
Theorem password_validator_trailing_newline :
  let p := lit "abcdefg1!" ++ [newline] in
  password_validator p = true
  /\ newline ∈ p /\ ~ validator_char newline /\ ~ validator_spec p.
Proof.
  cbn zeta. split; [reflexivity|]. split.
  - apply list_elem_of_In. apply in_or_app. right. by left.
  - assert (~ validator_char newline) as Hnl.
    { intros H. apply whole_class_spec in H. discriminate H. }
    split; [done|].
    intros (_ & _ & _ & _ & Hall).
    apply Hnl. eapply (proj1 (Forall_forall _ _) Hall).
    apply list_elem_of_In. apply in_or_app. right. by left.
Qed.

(** C10: a password the validator accepts scores at least 2 with the
    evaluator, and some accepted password scores no more: one whose only
    special character is the question mark fails both the case mix and
    the evaluator's special characters. *)
Theorem validator_score_at_least_2 :
  (forall p, password_validator p = true ->
             (2 <= score (password_evaluator p))%nat)
  /\ (let p := lit "abcdefg1?" in
      password_validator p = true
      /\ score (password_evaluator p) = 2%nat
      /\ ~ case_mix p /\ ~ has_special p).
Proof.
  split.
  - intros p Hv. rewrite evaluator_refines.
    unfold evaluator_spec, predicates. cbn [score].
    rewrite (bool_decide_eq_true_2 _ (validator_length p Hv)).
    rewrite (bool_decide_eq_true_2 _ (validator_digit p Hv)).
    destruct (bool_decide (case_mix p)), (bool_decide (has_special p));
      simpl; lia.
  - cbn zeta. split; [reflexivity|]. split; [reflexivity|]. split.
    + intros H. apply (bool_decide_eq_true_2 _) in H.
      rewrite <- case_check in H. discriminate H.
    + intros H. apply (bool_decide_eq_true_2 _) in H.
      rewrite <- special_check in H. discriminate H.
Qed.

Lemma validator_score_at_least_2_witness :
  password_validator (lit "Secure@123") = true
  /\ (2 <= score (password_evaluator (lit "Secure@123")))%nat.
Proof.
  split; [reflexivity|].
  apply (proj1 validator_score_at_least_2 (lit "Secure@123")). reflexivity.
Defined.

(** ** Python operations on records *)

Lemma str_eqb_eq a b : str_eqb a b = true <-> a = b.
Proof. unfold str_eqb. apply bool_decide_eq_true. Qed.

Lemma str_eqb_refl a : str_eqb a a = true.
Proof. by apply str_eqb_eq. Qed.

Lemma py_eq_str_spec v s : py_eq_str v s = true <-> v = JStr s.
Proof.
  destruct v; simpl; try (split; [discriminate | congruence]).
  rewrite str_eqb_eq. split; congruence.
Qed.

Lemma py_eq_str_not v s : v <> JStr s -> py_eq_str v s = false.
Proof.
  intros Hne. destruct (py_eq_str v s) eqn:E; [|done].
  apply py_eq_str_spec in E. done.
Qed.

Lemma py_getitem_field key entry v :
  field key entry = Some v -> py_getitem entry key = Return v.
Proof. destruct entry; simpl; try discriminate. by intros ->. Qed.

(** ** Persistence *)

Section Store.
Context {codec : JsonCodec}.

Lemma data_loader_missing fs file_path :
  fs !! file_path = None -> data_loader fs file_path = JList [].
Proof. unfold data_loader. by intros ->. Qed.

Lemma data_loader_corrupt fs file_path text :
  fs !! file_path = Some text -> json_load text = None ->
  data_loader fs file_path = JList [].
Proof. unfold data_loader. by intros -> ->. Qed.

(** *** The loader on the bytes of a file *)

Lemma data_loader_on_disk_missing (d : disk) file_path :
  d !! file_path = None ->
  data_loader_on_disk d file_path = Returned (JList []).
Proof. unfold data_loader_on_disk. by intros ->. Qed.

(** On a file that decodes, the loader on bytes does what [data_loader]
    does on the text. *)
Lemma data_loader_on_disk_decoded (d : disk) (fs : files) file_path
    bytes text :
  d !! file_path = Some bytes -> read_text bytes = Some text ->
  fs !! file_path = Some text ->
  data_loader_on_disk d file_path = Returned (data_loader fs file_path).
Proof.
  unfold data_loader_on_disk, data_loader. intros -> -> ->.
  by destruct (json_load text).
Qed.

Lemma data_loader_on_disk_not_json (d : disk) file_path bytes text :
  d !! file_path = Some bytes -> read_text bytes = Some text ->
  json_load text = None ->
  data_loader_on_disk d file_path = Returned (JList []).
Proof. unfold data_loader_on_disk. by intros -> -> ->. Qed.

Lemma data_loader_on_disk_undecodable (d : disk) file_path bytes :
  d !! file_path = Some bytes -> read_text bytes = None ->
  data_loader_on_disk d file_path = UnicodeDecodeError.
Proof. unfold data_loader_on_disk. by intros -> ->. Qed.

Lemma continuation_xff : continuation (Byte.to_N Byte.xff) = false.
Proof. reflexivity. Qed.

Lemma second_of_3_xff b1 : second_of_3 b1 (Byte.to_N Byte.xff) = false.
Proof. unfold second_of_3. by repeat case_match. Qed.

Lemma second_of_4_xff b1 : second_of_4 b1 (Byte.to_N Byte.xff) = false.
Proof. unfold second_of_4. by repeat case_match. Qed.

(** No UTF-8 text holds the byte [FF]: wherever it stands, as a first byte
    or inside a sequence, the decoder refuses the file. *)
Lemma utf8_decode_xff (before after : list Byte.byte) :
  utf8_decode (before ++ Byte.xff :: after) = None.
Proof.
  remember (length before) as n eqn:Hn. revert before Hn.
  induction n as [n IH] using lt_wf_ind. intros before Hn.
  assert (forall rest, (length rest < n)%nat ->
            utf8_decode (rest ++ Byte.xff :: after) = None) as Hrest
    by (intros rest Hlt; by apply (IH (length rest))).
  destruct before as [|byte1 before]; [reflexivity|].
  simpl in Hn. cbn [app utf8_decode]. cbv zeta.
  destruct (Byte.to_N byte1 <? 0x80).
  { rewrite Hrest; [done | lia]. }
  destruct ((0xC2 <=? Byte.to_N byte1) && (Byte.to_N byte1 <=? 0xDF)).
  { destruct before as [|byte2 before]; cbn [app].
    - by rewrite continuation_xff.
    - simpl in Hn. rewrite Hrest by lia. by destruct (continuation _). }
  destruct ((0xE0 <=? Byte.to_N byte1) && (Byte.to_N byte1 <=? 0xEF)).
  { destruct before as [|byte2 [|byte3 before]]; cbn [app].
    - destruct after; [done|]. by rewrite second_of_3_xff.
    - by rewrite continuation_xff, andb_false_r.
    - simpl in Hn. rewrite Hrest by lia. by destruct (_ && _). }
  destruct ((0xF0 <=? Byte.to_N byte1) && (Byte.to_N byte1 <=? 0xF4));
    [|done].
  destruct before as [|byte2 [|byte3 [|byte4 before]]]; cbn [app].
  - destruct after as [|? [|? ?]]; try done. by rewrite second_of_4_xff.
  - destruct after; [done|]. by rewrite continuation_xff, andb_false_r.
  - by rewrite continuation_xff, andb_false_r.
  - simpl in Hn. rewrite Hrest by lia. by destruct (_ && _).
Qed.

(** C7: [data_loader] does not turn every corrupt file into the empty
    list.  On a file that holds the byte [FF], wherever it stands and
    whatever surrounds it, the call ends in [UnicodeDecodeError]: the file
    exists, [file.read()] inside [json.load] cannot decode it, and the
    [except] clause names [json.JSONDecodeError] only, so the exception
    reaches the caller where the specification promises the empty list. *)
Theorem data_loader_raises_on_undecodable_file (d : disk)
    (file_path : pystr) (before after : list Byte.byte) :
  data_loader_on_disk (<[file_path := before ++ Byte.xff :: after]> d)
    file_path
  = UnicodeDecodeError.
Proof.
  apply (data_loader_on_disk_undecodable _ _ (before ++ Byte.xff :: after)).
  - apply lookup_insert_eq.
  - unfold read_text. by rewrite utf8_decode_xff.
Qed.

Lemma data_loader_after_saver fs file_path data :
  json_load (json_dump data) = Some data ->
  data_loader (data_saver file_path data fs) file_path = data.
Proof.
  intros Hrt. unfold data_loader, data_saver.
  rewrite lookup_insert_eq. by rewrite Hrt.
Qed.

(** C8: saving a valid collection and loading the same path gives the
    collection back. *)
Theorem save_load_round_trip (X : list json) (file_path : pystr)
    (fs : files) :
  lawful codec ->
  json_valid (JList X) = true ->
  data_loader (data_saver file_path (JList X) fs) file_path = JList X.
Proof.
  intros Hlaw Hvalid. apply data_loader_after_saver. by apply Hlaw.
Qed.

(** Saving one file leaves what the others load. *)
Lemma data_loader_other_file fs path path' data :
  path <> path' ->
  data_loader (data_saver path data fs) path' = data_loader fs path'.
Proof.
  intros Hne. unfold data_loader, data_saver.
  by rewrite lookup_insert_ne.
Qed.

(** ** History *)

Lemma scan_passwords_used entries password :
  Forall (has_field (lit "password")) entries ->
  Exists (password_is password) entries ->
  scan_passwords entries password = Return (false, msg_recent).
Proof.
  induction 1 as [|entry entries [v Hv] Hall IH]; intros Hex.
  - inversion Hex.
  - cbn [scan_passwords]. rewrite (py_getitem_field _ _ _ Hv). cbn [bind].
    destruct (py_eq_str v password) eqn:E; [done|].
    apply IH. inversion Hex as [? ? Hhere | ? ? Hlater]; subst; [|done].
    unfold password_is in Hhere. rewrite Hv in Hhere.
    injection Hhere as ->. simpl in E. by rewrite str_eqb_refl in E.
Qed.

Lemma scan_passwords_fresh entries password :
  Forall (has_field (lit "password")) entries ->
  ~ Exists (password_is password) entries ->
  scan_passwords entries password = Return (true, msg_unique).
Proof.
  induction 1 as [|entry entries [v Hv] Hall IH]; intros Hno; [done|].
  cbn [scan_passwords]. rewrite (py_getitem_field _ _ _ Hv). cbn [bind].
  destruct (py_eq_str v password) eqn:E.
  - exfalso. apply Hno. left. apply py_eq_str_spec in E. by subst v.
  - apply IH. intros Hex. apply Hno. by right.
Qed.

Lemma add_password_used fs entries password :
  data_loader fs PASSWORDS_FILE = JList entries ->
  Forall (has_field (lit "password")) entries ->
  Exists (password_is password) entries ->
  add_password password fs = Return (msg_recent, fs).
Proof.
  intros Hload Hwf Hex. unfold add_password, check_repeated_password.
  rewrite Hload. cbn [py_iter bind].
  by rewrite (scan_passwords_used _ _ Hwf Hex).
Qed.

Lemma add_password_new fs entries password :
  data_loader fs PASSWORDS_FILE = JList entries ->
  Forall (has_field (lit "password")) entries ->
  ~ Exists (password_is password) entries ->
  password_validator password = true ->
  add_password password fs
  = Return (msg_added,
            data_saver PASSWORDS_FILE
              (JList (maintain_last_5 (entries ++ [password_record password])))
              fs).
Proof.
  intros Hload Hwf Hno Hvalid. unfold add_password, check_repeated_password.
  rewrite Hload. cbn [py_iter bind].
  rewrite (scan_passwords_fresh _ _ Hwf Hno). cbn [bind negb].
  by rewrite Hvalid.
Qed.

Lemma add_password_invalid fs entries password :
  data_loader fs PASSWORDS_FILE = JList entries ->
  Forall (has_field (lit "password")) entries ->
  ~ Exists (password_is password) entries ->
  password_validator password = false ->
  add_password password fs = Return (msg_criteria, fs).
Proof.
  intros Hload Hwf Hno Hvalid. unfold add_password, check_repeated_password.
  rewrite Hload. cbn [py_iter bind].
  rewrite (scan_passwords_fresh _ _ Hwf Hno). cbn [bind negb].
  by rewrite Hvalid.
Qed.

Lemma maintain_last_5_room (l : list json) :
  (length l <= 5)%nat -> maintain_last_5 l = l.
Proof.
  intros Hlen. unfold maintain_last_5.
  by replace (5 <? length l)%nat with false
    by (symmetry; apply Nat.ltb_ge; lia).
Qed.

Lemma maintain_last_5_full (l : list json) :
  (5 < length l)%nat -> maintain_last_5 l = tail l.
Proof.
  intros Hlen. unfold maintain_last_5.
  by replace (5 <? length l)%nat with true
    by (symmetry; apply Nat.ltb_lt; lia).
Qed.

Lemma maintain_last_5_length (l : list json) :
  (length l <= 6)%nat -> (length (maintain_last_5 l) <= 5)%nat.
Proof.
  intros Hlen. unfold maintain_last_5.
  destruct (5 <? length l)%nat eqn:E.
  - destruct l; simpl in *; lia.
  - apply Nat.ltb_ge in E. lia.
Qed.

Lemma maintain_last_5_drop (l : list json) :
  (length l <= 6)%nat -> maintain_last_5 l = drop (length l - 5) l.
Proof.
  intros Hlen. unfold maintain_last_5.
  destruct (5 <? length l)%nat eqn:E.
  - apply Nat.ltb_lt in E. replace (length l - 5)%nat with 1%nat by lia.
    by destruct l.
  - apply Nat.ltb_ge in E. by replace (length l - 5)%nat with 0%nat by lia.
Qed.

Lemma password_record_field password :
  field (lit "password") (password_record password) = Some (JStr password).
Proof. reflexivity. Qed.

Lemma password_records_have_field (qs : list pystr) :
  Forall (has_field (lit "password")) (List.map password_record qs).
Proof.
  apply Forall_forall. intros e (q & <- & _)%list_elem_of_In%in_map_iff.
  exists (JStr q). apply password_record_field.
Qed.

Lemma password_records_fresh (qs : list pystr) (p : pystr) :
  p ∉ qs -> ~ Exists (password_is p) (List.map password_record qs).
Proof.
  intros Hnew (e & Hin & His)%Exists_exists.
  apply list_elem_of_In, in_map_iff in Hin. destruct Hin as (q & <- & Hq).
  unfold password_is in His. rewrite password_record_field in His.
  injection His as ->. apply Hnew. by apply list_elem_of_In.
Qed.

(** Either outcome of the scan over a well-formed history. *)
Lemma scan_passwords_cases entries password :
  Forall (has_field (lit "password")) entries ->
  (Exists (password_is password) entries
   /\ scan_passwords entries password = Return (false, msg_recent))
  \/ (~ Exists (password_is password) entries
      /\ scan_passwords entries password = Return (true, msg_unique)).
Proof.
  intros Hwf. induction Hwf as [|entry entries [v Hv] Hall IH].
  - right. split; [by intros H; inversion H | done].
  - destruct (py_eq_str v password) eqn:E.
    + left. assert (Exists (password_is password) (entry :: entries)) as Hex.
      { left. apply py_eq_str_spec in E. by subst v. }
      split; [done|]. apply scan_passwords_used; [|done].
      constructor; [by exists v | done].
    + destruct IH as [[Hex Hscan] | [Hno Hscan]].
      * left. split; [by right|]. cbn [scan_passwords].
        rewrite (py_getitem_field _ _ _ Hv). cbn [bind]. by rewrite E.
      * right. split.
        -- intros Hex. inversion Hex as [? ? Hhere | ? ? Hlater]; subst;
             [|done].
           unfold password_is in Hhere. rewrite Hv in Hhere.
           injection Hhere as ->. simpl in E. by rewrite str_eqb_refl in E.
        -- cbn [scan_passwords].
           rewrite (py_getitem_field _ _ _ Hv). cbn [bind]. by rewrite E.
Qed.

(** ** Links *)

Lemma scan_links_taken entries site username :
  Forall is_link_record entries ->
  Exists (link_is site username) entries ->
  scan_links entries site username = Return true.
Proof.
  induction 1 as [|entry entries [[s Hs] [u Hu]] Hall IH]; intros Hex.
  - inversion Hex.
  - cbn [scan_links]. rewrite (py_getitem_field _ _ _ Hs). cbn [bind].
    destruct (py_eq_str s site) eqn:Es.
    + rewrite (py_getitem_field _ _ _ Hu). cbn [bind].
      destruct (py_eq_str u username) eqn:Eu; [done|].
      apply IH. inversion Hex as [? ? [Hs' Hu'] | ? ? Hlater]; subst; [|done].
      rewrite Hu in Hu'. injection Hu' as ->.
      simpl in Eu. by rewrite str_eqb_refl in Eu.
    + cbn [bind]. apply IH.
      inversion Hex as [? ? [Hs' Hu'] | ? ? Hlater]; subst; [|done].
      rewrite Hs in Hs'. injection Hs' as ->.
      simpl in Es. by rewrite str_eqb_refl in Es.
Qed.

Lemma scan_links_free entries site username :
  Forall is_link_record entries ->
  ~ Exists (link_is site username) entries ->
  scan_links entries site username = Return false.
Proof.
  induction 1 as [|entry entries [[s Hs] [u Hu]] Hall IH]; intros Hno;
    [done|].
  assert (scan_links entries site username = Return false) as Hrest.
  { apply IH. intros Hex. apply Hno. by right. }
  cbn [scan_links]. rewrite (py_getitem_field _ _ _ Hs). cbn [bind].
  destruct (py_eq_str s site) eqn:Es; [|done].
  rewrite (py_getitem_field _ _ _ Hu). cbn [bind].
  destruct (py_eq_str u username) eqn:Eu; [|done].
  exfalso. apply Hno. left.
  apply py_eq_str_spec in Es, Eu. subst s u. by split.
Qed.

(** C6: on a pair that already has a link record [store_link] returns the
    rejection and leaves the files as they are; on any other pair it
    stores, after the records it loaded, the record that holds the site,
    the user name, the password and the score and rank the evaluator
    gives the password, whatever the password is, and returns the success
    message. *)
Theorem store_link_spec (fs : files) (entries : list json)
    (site username password : pystr) :
  data_loader fs LINKS_FILE = JList entries ->
  Forall is_link_record entries ->
  (Exists (link_is site username) entries ->
   store_link site username password fs = Return (msg_link_exists, fs))
  /\ (~ Exists (link_is site username) entries ->
      store_link site username password fs
      = Return (msg_link_saved,
                data_saver LINKS_FILE
                  (JList
                     (entries
                      ++ [JDict
                            [ (lit "site", JStr site);
                              (lit "username", JStr username);
                              (lit "password", JStr password);
                              (lit "score",
                               JInt (Z.of_nat
                                       (score (password_evaluator password))));
                              (lit "rank",
                               JStr (rank (password_evaluator password))) ]]))
                  fs)).
Proof.
  intros Hload Hwf. unfold store_link. rewrite Hload. cbn [py_iter bind].
  split; intros H.
  - by rewrite (scan_links_taken _ _ _ Hwf H).
  - by rewrite (scan_links_free _ _ _ Hwf H).
Qed.

End Store.

(** ** Validity of the records the store writes *)

Lemma decimal_scalar c : unicode_decimal c = true -> scalar_value c = true.
Proof.
  unfold unicode_decimal. intros (r & Hin & Hrun)%existsb_exists.
  assert (forallb (fun r => (snd r <? 0xD800)
                            || ((0xDFFF <? fst r) && (snd r <=? 0x10FFFF)))
            decimal_runs = true) as Hruns by reflexivity.
  rewrite forallb_forall in Hruns. specialize (Hruns r Hin).
  unfold in_run in Hrun. unfold scalar_value.
  apply andb_true_iff in Hrun as [Hlo Hhi].
  apply N.leb_le in Hlo, Hhi.
  apply orb_true_iff in Hruns as [Hbmp | [Hup Hmax]%andb_true_iff].
  - apply N.ltb_lt in Hbmp. apply orb_true_iff. left. apply N.ltb_lt. lia.
  - apply N.ltb_lt in Hup. apply N.leb_le in Hmax.
    apply orb_true_iff. right. apply andb_true_iff.
    split; [apply N.ltb_lt | apply N.leb_le]; lia.
Qed.

Lemma validator_char_scalar c : validator_char c -> scalar_value c = true.
Proof.
  intros [[Hup | Hlow] | [Hdec | Hspecial]].
  - unfold is_upper in Hup. unfold scalar_value.
    apply orb_true_iff. left. apply N.ltb_lt. lia.
  - unfold is_lower in Hlow. unfold scalar_value.
    apply orb_true_iff. left. apply N.ltb_lt. lia.
  - by apply decimal_scalar.
  - unfold is_validator_special in Hspecial.
    apply list_elem_of_In in Hspecial.
    assert (forallb scalar_value validator_specials = true) as Hall
      by reflexivity.
    rewrite forallb_forall in Hall. by apply Hall.
Qed.

Lemma str_valid_app a b : str_valid (a ++ b) = str_valid a && str_valid b.
Proof. apply forallb_app. Qed.

Lemma validator_str_valid p : password_validator p = true -> str_valid p = true.
Proof.
  intros (_ & _ & _ & _ & Hall)%password_validator_chomp.
  assert (str_valid (chomp p) = true) as Hbody.
  { apply forallb_forall. intros c Hc. apply validator_char_scalar.
    apply (proj1 (Forall_forall _ _) Hall). by apply list_elem_of_In. }
  destruct (chomp_cases p) as [E | E]; rewrite E; [done|].
  rewrite str_valid_app, Hbody. reflexivity.
Qed.

Lemma password_record_valid p :
  str_valid p = true -> json_valid (password_record p) = true.
Proof.
  intros Hp. unfold password_record. rewrite evaluator_refines.
  unfold evaluator_spec, predicates.
  destruct (bool_decide (length_ok p)), (bool_decide (case_mix p)),
    (bool_decide (has_digit p)), (bool_decide (has_special p));
    cbn [json_valid forallb List.map fst snd score rank feedback];
    rewrite Hp; reflexivity.
Qed.

Lemma link_record_valid site username password :
  str_valid site = true -> str_valid username = true ->
  str_valid password = true ->
  json_valid (link_record site username password) = true.
Proof.
  intros Hs Hu Hp. unfold link_record. rewrite evaluator_refines.
  unfold evaluator_spec, predicates.
  destruct (bool_decide (length_ok password)),
    (bool_decide (case_mix password)), (bool_decide (has_digit password)),
    (bool_decide (has_special password));
    cbn [json_valid forallb List.map fst snd score rank feedback];
    rewrite Hs, Hu, Hp; reflexivity.
Qed.

Lemma json_valid_list l :
  json_valid (JList l) = true <-> Forall (fun v => json_valid v = true) l.
Proof. cbn [json_valid]. by apply forallb_Forall'. Qed.

Lemma password_records_valid (qs : list pystr) :
  Forall (fun p => password_validator p = true) qs ->
  json_valid (JList (List.map password_record qs)) = true.
Proof.
  intros Hqs. apply json_valid_list. apply Forall_forall.
  intros e (q & <- & Hq)%list_elem_of_In%in_map_iff.
  apply password_record_valid, validator_str_valid.
  apply (proj1 (Forall_forall _ _) Hqs). by apply list_elem_of_In.
Qed.

(** ** The history under a lawful codec *)

Section History.
Context {codec : JsonCodec}.

Lemma load_saved_history fs (h : list json) :
  lawful codec ->
  json_valid (JList h) = true ->
  data_loader (data_saver PASSWORDS_FILE (JList h) fs) PASSWORDS_FILE
  = JList h.
Proof. intros Hlaw Hvalid. apply data_loader_after_saver. by apply Hlaw. Qed.

Lemma maintain_last_5_valid (l : list json) :
  json_valid (JList l) = true -> json_valid (JList (maintain_last_5 l)) = true.
Proof.
  rewrite !json_valid_list. unfold maintain_last_5.
  destruct (5 <? length l)%nat; [|done].
  destruct l; [done|]. cbn [tail]. by intros [_ H]%Forall_cons.
Qed.

Lemma maintain_last_5_keeps_last (l : list json) (x : json) :
  x ∈ maintain_last_5 (l ++ [x]).
Proof.
  unfold maintain_last_5. destruct (5 <? length (l ++ [x]))%nat eqn:E.
  - destruct l as [|y l]; [discriminate E|].
    cbn [app tail]. apply list_elem_of_In, in_or_app. right. by left.
  - apply list_elem_of_In, in_or_app. right. by left.
Qed.

Lemma maintain_last_5_wf (P : json -> Prop) (l : list json) :
  Forall P l -> Forall P (maintain_last_5 l).
Proof.
  unfold maintain_last_5. destruct (5 <? length l)%nat; [|done].
  destruct l; [done|]. cbn [tail]. by intros [_ H]%Forall_cons.
Qed.

Lemma map_drop {A B} (f : A -> B) (n : nat) (l : list A) :
  List.map f (drop n l) = drop n (List.map f l).
Proof.
  revert n. induction l as [|x l IH]; intros [|n]; simpl; try done.
Qed.

(** Adding the passwords [ps] one by one to a history that holds the
    records of [qs] leaves the records of the last five of [qs ++ ps]. *)
Lemma add_passwords_last_5 (ps qs : list pystr) (fs : files) :
  lawful codec ->
  data_loader fs PASSWORDS_FILE = JList (List.map password_record qs) ->
  (length qs <= 5)%nat ->
  NoDup (qs ++ ps) ->
  Forall (fun p => password_validator p = true) (qs ++ ps) ->
  exists fs',
    add_passwords ps fs = Return (replicate (length ps) msg_added, fs')
    /\ data_loader fs' PASSWORDS_FILE
       = JList (List.map password_record
                  (drop (length (qs ++ ps) - 5) (qs ++ ps))).
Proof.
  intros Hlaw. revert qs fs.
  induction ps as [|p ps IH]; intros qs fs Hload Hlen Hnodup Hvalid.
  - exists fs. split; [done|]. rewrite app_nil_r.
    by replace (length qs - 5)%nat with 0%nat by lia.
  - set (qs' := drop (length (qs ++ [p]) - 5) (qs ++ [p])).
    assert (qs ++ p :: ps = (qs ++ [p]) ++ ps) as Hsplit
      by (by rewrite <- app_assoc).
    assert (qs ++ [p] = take (length (qs ++ [p]) - 5) (qs ++ [p]) ++ qs')
      as Hqs' by (symmetry; apply take_drop).
    assert (p ∉ qs) as Hnew.
    { apply NoDup_app in Hnodup as (_ & Hdisj & _).
      intros Hin. apply (Hdisj p Hin). left. }
    assert (password_validator p = true) as Hp.
    { apply Forall_app in Hvalid as [_ Hps]. by inversion Hps. }
    assert (Forall (fun p => password_validator p = true) (qs ++ [p])) as Hqp.
    { rewrite Hsplit in Hvalid. by apply Forall_app in Hvalid as [H _]. }
    cbn [add_passwords].
    rewrite (add_password_new fs (List.map password_record qs) p Hload
               (password_records_have_field qs)
               (password_records_fresh qs p Hnew) Hp).
    cbn [bind snd fst].
    replace (List.map password_record qs ++ [password_record p])
      with (List.map password_record (qs ++ [p]))
      by (by rewrite List.map_app).
    rewrite maintain_last_5_drop
      by (rewrite length_map, length_app; simpl; lia).
    rewrite length_map. rewrite <- (map_drop password_record).
    fold qs'.
    destruct (IH qs'
                (data_saver PASSWORDS_FILE
                   (JList (List.map password_record qs')) fs))
      as (fs' & Hrun & Hfinal).
    + apply load_saved_history; [done|]. apply password_records_valid.
      rewrite Hqs' in Hqp. by apply Forall_app in Hqp as [_ H].
    + unfold qs'. rewrite length_drop, length_app. simpl. lia.
    + rewrite Hsplit, Hqs', <- app_assoc in Hnodup.
      by apply NoDup_app in Hnodup as (_ & _ & H).
    + rewrite Hsplit, Hqs', <- app_assoc in Hvalid.
      by apply Forall_app in Hvalid as [_ H].
    + exists fs'. rewrite Hrun. cbn [bind fst snd replicate length].
      split; [done|]. rewrite Hfinal. do 2 f_equal.
      rewrite Hsplit. unfold qs'.
      rewrite <- (drop_app_le (qs ++ [p]) ps)
        by (rewrite length_app; simpl; lia).
      rewrite drop_drop. f_equal.
      rewrite length_drop, !length_app. simpl. lia.
Qed.

(** C3: [add_password] with a password that is not in the history and
    that [is_valid] accepts appends the record that holds the password
    with the score, the rank and the feedback the evaluator gives it,
    drops the oldest record when more than five are held, saves the
    result and returns the success message; six distinct valid passwords
    added to an empty history leave the records of the last five. *)
Theorem add_password_appends_and_evicts :
  let record := fun password : pystr =>
    JDict [ (lit "password", JStr password);
            (lit "score",
             JInt (Z.of_nat (score (password_evaluator password))));
            (lit "rank", JStr (rank (password_evaluator password)));
            (lit "feedback",
             JList (List.map JStr (feedback (password_evaluator password)))) ]
  in
  (forall fs entries password,
      data_loader fs PASSWORDS_FILE = JList entries ->
      Forall (has_field (lit "password")) entries ->
      ~ Exists (password_is password) entries ->
      password_validator password = true ->
      exists stored,
        add_password password fs
        = Return (msg_added, data_saver PASSWORDS_FILE (JList stored) fs)
        /\ ((length entries < 5)%nat ->
            stored = entries ++ [record password])
        /\ ((5 <= length entries)%nat ->
            stored = tail entries ++ [record password]))
  /\ (lawful codec ->
      forall fs p1 p2 p3 p4 p5 p6,
        data_loader fs PASSWORDS_FILE = JList [] ->
        NoDup [p1; p2; p3; p4; p5; p6] ->
        Forall (fun p => password_validator p = true)
          [p1; p2; p3; p4; p5; p6] ->
        exists fs',
          add_passwords [p1; p2; p3; p4; p5; p6] fs
          = Return (replicate 6 msg_added, fs')
          /\ data_loader fs' PASSWORDS_FILE
             = JList [record p2; record p3; record p4; record p5;
                      record p6]).
Proof.
  intros record. change record with password_record. clear record.
  split.
  - intros fs entries password Hload Hwf Hno Hvalid.
    exists (maintain_last_5 (entries ++ [password_record password])).
    split; [by apply add_password_new|]. split; intros Hlen.
    + apply maintain_last_5_room. rewrite length_app. simpl. lia.
    + rewrite maintain_last_5_full by (rewrite length_app; simpl; lia).
      destruct entries; [simpl in Hlen; lia | done].
  - intros Hlaw fs p1 p2 p3 p4 p5 p6 Hload Hnodup Hvalid.
    apply (add_passwords_last_5 [p1; p2; p3; p4; p5; p6] [] fs Hlaw Hload);
      [simpl; lia | done | done].
Qed.

(** C5: [add_password] with a password that equals the password field of
    a record of the history returns the rejection and leaves the files as
    they are; a valid password given twice is rejected the second time,
    and the second call changes nothing. *)
Theorem add_password_rejects_repeat :
  (forall fs entries password,
      data_loader fs PASSWORDS_FILE = JList entries ->
      Forall (has_field (lit "password")) entries ->
      Exists (password_is password) entries ->
      add_password password fs = Return (msg_recent, fs))
  /\ (lawful codec ->
      forall fs entries password,
        data_loader fs PASSWORDS_FILE = JList entries ->
        Forall (has_field (lit "password")) entries ->
        json_valid (JList entries) = true ->
        password_validator password = true ->
        exists message fs1,
          add_password password fs = Return (message, fs1)
          /\ add_password password fs1 = Return (msg_recent, fs1)).
Proof.
  split; [apply add_password_used|].
  intros Hlaw fs entries password Hload Hwf Hvalid Hp.
  destruct (scan_passwords_cases entries password Hwf)
    as [[Hex _] | [Hno _]].
  - exists msg_recent, fs.
    by rewrite (add_password_used fs entries password Hload Hwf Hex).
  - rewrite (add_password_new fs entries password Hload Hwf Hno Hp).
    eexists _, _. split; [reflexivity|].
    apply (add_password_used _
             (maintain_last_5 (entries ++ [password_record password]))).
    + apply load_saved_history; [done|]. apply maintain_last_5_valid.
      apply json_valid_list, Forall_app. split.
      * by apply json_valid_list.
      * constructor; [|done].
        by apply password_record_valid, validator_str_valid.
    + apply maintain_last_5_wf, Forall_app. split; [done|].
      constructor; [|done]. exists (JStr password).
      apply password_record_field.
    + apply Exists_exists. exists (password_record password).
      split; [apply maintain_last_5_keeps_last | apply password_record_field].
Qed.

End History.

(** ** The JSON text codec is lawful *)

Ltac Zify.zify_post_hook ::= Z.to_euclidean_division_equations.

(** *** Integers *)

Lemma digits_from_value fuel n acc :
  n < 10 * 2 ^ N.of_nat fuel ->
  digits_value 0 (digits_from fuel n acc) = digits_value n acc.
Proof.
  revert n acc. induction fuel as [|fuel IH]; intros n acc Hn.
  - change (2 ^ N.of_nat 0) with 1 in Hn.
    unfold digits_value. cbn [digits_from fold_left]. f_equal. lia.
  - rewrite Nat2N.inj_succ, N.pow_succ_r' in Hn.
    cbn [digits_from]. destruct (n <? 10) eqn:E.
    + apply N.ltb_lt in E. unfold digits_value. cbn [fold_left].
      f_equal. lia.
    + apply N.ltb_ge in E. rewrite IH by lia.
      unfold digits_value. cbn [fold_left]. f_equal. lia.
Qed.

Lemma digits_from_digits fuel n acc :
  forallb is_digit acc = true ->
  forallb is_digit (digits_from fuel n acc) = true.
Proof.
  revert n acc. induction fuel as [|fuel IH]; intros n acc Hacc.
  - cbn [digits_from forallb]. rewrite Hacc, andb_true_r.
    unfold is_digit. apply andb_true_iff.
    split; apply N.leb_le; lia.
  - cbn [digits_from].
    assert (forallb is_digit ((48 + n mod 10) :: acc) = true) as Hacc'.
    { cbn [forallb]. rewrite Hacc, andb_true_r.
      unfold is_digit. apply andb_true_iff.
      split; apply N.leb_le; lia. }
    destruct (n <? 10); [done | by apply IH].
Qed.

Lemma digits_from_head fuel n acc :
  n < 10 * 2 ^ N.of_nat fuel -> 0 < n ->
  exists d rest, digits_from fuel n acc = d :: rest /\ d <> 48.
Proof.
  revert n acc. induction fuel as [|fuel IH]; intros n acc Hn Hpos.
  - change (2 ^ N.of_nat 0) with 1 in Hn.
    exists (48 + n mod 10), acc. split; [done | lia].
  - rewrite Nat2N.inj_succ, N.pow_succ_r' in Hn.
    cbn [digits_from]. destruct (n <? 10) eqn:E.
    + apply N.ltb_lt in E. exists (48 + n mod 10), acc. split; [done | lia].
    + apply N.ltb_ge in E. apply IH; lia.
Qed.

Lemma digits_fuel n : n < 10 * 2 ^ N.of_nat (N.to_nat (N.log2 n)).
Proof.
  rewrite N2Nat.id. destruct (N.eq_dec n 0) as [-> | Hne]; [done|].
  pose proof (N.log2_spec n ltac:(lia)) as [_ Hup].
  rewrite N.pow_succ_r' in Hup. lia.
Qed.

Lemma digits_value_digits n : digits_value 0 (digits n) = n.
Proof. unfold digits. by rewrite digits_from_value by apply digits_fuel. Qed.

Lemma digits_are_digits n : forallb is_digit (digits n) = true.
Proof. by apply digits_from_digits. Qed.

(** No zero leads the digits of a number, the digits of 0 apart. *)
Lemma digits_head n :
  exists d rest, digits n = d :: rest
                 /\ ((d =? 48) && negb (bool_decide (rest = []))) = false.
Proof.
  destruct (N.eq_dec n 0) as [-> | Hne].
  - by exists 48, [].
  - destruct (digits_from_head (N.to_nat (N.log2 n)) n [] (digits_fuel n))
      as (d & rest & Heq & Hd); [lia|].
    exists d, rest. split; [done|].
    apply N.eqb_neq in Hd. by rewrite Hd.
Qed.

Lemma span_digits_app ds rest :
  forallb is_digit ds = true -> number_ends rest = true ->
  span_digits (ds ++ rest) = (ds, rest).
Proof.
  intros Hds Hrest. induction ds as [|d ds IH].
  - destruct rest as [|c rest]; [done|]. simpl in *.
    apply andb_true_iff in Hrest as [Hc _].
    by destruct (is_digit c).
  - cbn [forallb] in Hds. apply andb_true_iff in Hds as [Hd Hds].
    cbn [app span_digits]. by rewrite Hd, IH.
Qed.

Lemma number_ends_fraction rest :
  number_ends rest = true -> starts_fraction rest = false.
Proof.
  destruct rest as [|c rest]; [done|]. cbn [number_ends].
  intros [_ H]%andb_true_iff. by apply negb_true_iff in H.
Qed.

Lemma scan_number_run (negative : bool) d ds rest :
  forallb is_digit (d :: ds) = true ->
  ((d =? 48) && negb (bool_decide (ds = []))) = false ->
  number_ends rest = true ->
  scan_number ((if negative then [45] else []) ++ (d :: ds) ++ rest)
  = Some (let n := Z.of_N (digits_value 0 (d :: ds)) in
          if negative then (- n)%Z else n, rest).
Proof.
  intros Hall Hlead Hrest.
  assert ((d =? 45) = false) as Hsign.
  { cbn [forallb] in Hall. apply andb_true_iff in Hall as [Hd _].
    unfold is_digit in Hd. apply andb_true_iff in Hd as [Hd _].
    apply N.leb_le in Hd. apply N.eqb_neq. lia. }
  unfold scan_number. destruct negative; cbn [app tail].
  - rewrite N.eqb_refl. cbn [tail].
    change (d :: ds ++ rest) with ((d :: ds) ++ rest).
    rewrite (span_digits_app _ _ Hall Hrest).
    by rewrite Hlead, (number_ends_fraction _ Hrest).
  - rewrite Hsign.
    change (d :: ds ++ rest) with ((d :: ds) ++ rest).
    rewrite (span_digits_app _ _ Hall Hrest).
    by rewrite Hlead, (number_ends_fraction _ Hrest).
Qed.

Lemma scan_number_dump n rest :
  number_ends rest = true ->
  scan_number (dump_int n ++ rest) = Some (n, rest).
Proof.
  intros Hrest. unfold dump_int.
  destruct (n <? 0)%Z eqn:E; [apply Z.ltb_lt in E | apply Z.ltb_ge in E].
  - destruct (digits_head (Z.to_N (- n))) as (d & ds & Hdigits & Hlead).
    pose proof (digits_are_digits (Z.to_N (- n))) as Hall.
    pose proof (digits_value_digits (Z.to_N (- n))) as Hvalue.
    rewrite Hdigits in *.
    etrans; [apply (scan_number_run true d ds rest Hall Hlead Hrest)|].
    cbv zeta. rewrite Hvalue. do 2 f_equal. lia.
  - destruct (digits_head (Z.to_N n)) as (d & ds & Hdigits & Hlead).
    pose proof (digits_are_digits (Z.to_N n)) as Hall.
    pose proof (digits_value_digits (Z.to_N n)) as Hvalue.
    rewrite Hdigits in *.
    etrans; [apply (scan_number_run false d ds rest Hall Hlead Hrest)|].
    cbv zeta. rewrite Hvalue. do 2 f_equal. lia.
Qed.

(** *** Strings *)

Lemma hex_value_digit d : d < 16 -> hex_value (hex_digit d) = Some d.
Proof.
  intros Hd. unfold hex_digit, hex_value. destruct (d <? 10) eqn:E.
  - apply N.ltb_lt in E.
    replace ((48 <=? 48 + d) && (48 + d <=? 57)) with true
      by (symmetry; apply andb_true_iff; split; apply N.leb_le; lia).
    f_equal. lia.
  - apply N.ltb_ge in E.
    replace ((48 <=? 87 + d) && (87 + d <=? 57)) with false
      by (symmetry; apply andb_false_iff; right; apply N.leb_gt; lia).
    replace ((97 <=? 87 + d) && (87 + d <=? 102)) with true
      by (symmetry; apply andb_true_iff; split; apply N.leb_le; lia).
    f_equal. lia.
Qed.

Lemma hex4_value_hex4 n :
  n < 65536 ->
  hex4_value (hex_digit (n / 4096)) (hex_digit (n / 256 mod 16))
    (hex_digit (n / 16 mod 16)) (hex_digit (n mod 16)) = Some n.
Proof.
  intros Hn. unfold hex4_value.
  rewrite !hex_value_digit by lia. f_equal. lia.
Qed.

Lemma scan_string_simple e c tail :
  (e =? 117) = false -> simple_escape e = Some c ->
  scan_string (92 :: e :: tail) = push c (scan_string tail).
Proof.
  intros He Hc. cbn [scan_string].
  change (92 =? 34) with false. change (92 =? 92) with true. cbv iota.
  by rewrite He, Hc.
Qed.

Lemma scan_string_plain c tail :
  (c =? 34) = false -> (c =? 92) = false -> (c <? 32) = false ->
  scan_string (c :: tail) = push c (scan_string tail).
Proof. intros H1 H2 H3. cbn [scan_string]. by rewrite H1, H2, H3. Qed.

(** One [\uXXXX] that is no high surrogate stands for itself. *)
Lemma scan_string_u n tail :
  n < 65536 -> is_high_surrogate n = false ->
  scan_string (u_escape n ++ tail) = push n (scan_string tail).
Proof.
  intros Hn Hhigh. unfold u_escape, hex4. cbn [app scan_string].
  change (92 =? 34) with false. change (92 =? 92) with true.
  change (117 =? 117) with true. cbv iota.
  rewrite (hex4_value_hex4 n Hn).
  destruct tail as [|b [|u [|l1 [|l2 [|l3 [|l4 s4]]]]]]; try reflexivity.
  rewrite Hhigh. cbn [andb]. by destruct (hex4_value l1 l2 l3 l4).
Qed.

(** A high surrogate followed by a low one stands for one character. *)
Lemma scan_string_pair hi lo tail :
  is_high_surrogate hi = true -> is_low_surrogate lo = true ->
  scan_string (u_escape hi ++ u_escape lo ++ tail)
  = push (0x10000 + (hi - 0xD800) * 0x400 + (lo - 0xDC00))
         (scan_string tail).
Proof.
  intros Hhi Hlo.
  assert (hi < 65536) as Hhi'.
  { unfold is_high_surrogate in Hhi.
    apply andb_true_iff in Hhi as [_ H]. apply N.leb_le in H. lia. }
  assert (lo < 65536) as Hlo'.
  { unfold is_low_surrogate in Hlo.
    apply andb_true_iff in Hlo as [_ H]. apply N.leb_le in H. lia. }
  unfold u_escape, hex4. cbn [app scan_string].
  change (92 =? 34) with false. change (92 =? 92) with true.
  change (117 =? 117) with true. cbv iota.
  rewrite (hex4_value_hex4 hi Hhi'), (hex4_value_hex4 lo Hlo').
  by rewrite Hhi, Hlo.
Qed.

Lemma scan_string_escape c tail :
  scalar_value c = true ->
  scan_string (escape_char c ++ tail) = push c (scan_string tail).
Proof.
  intros Hc. unfold escape_char.
  destruct (c =? 34) eqn:E34.
  { apply N.eqb_eq in E34. subst c. by apply scan_string_simple. }
  destruct (c =? 92) eqn:E92.
  { apply N.eqb_eq in E92. subst c. by apply scan_string_simple. }
  destruct (c =? 10) eqn:E10.
  { apply N.eqb_eq in E10. subst c. by apply scan_string_simple. }
  destruct (c =? 13) eqn:E13.
  { apply N.eqb_eq in E13. subst c. by apply scan_string_simple. }
  destruct (c =? 9) eqn:E9.
  { apply N.eqb_eq in E9. subst c. by apply scan_string_simple. }
  destruct (c =? 12) eqn:E12.
  { apply N.eqb_eq in E12. subst c. by apply scan_string_simple. }
  destruct (c =? 8) eqn:E8.
  { apply N.eqb_eq in E8. subst c. by apply scan_string_simple. }
  destruct ((32 <=? c) && (c <=? 126)) eqn:Eprint.
  { apply andb_true_iff in Eprint as [Hlo _]. apply N.leb_le in Hlo.
    apply scan_string_plain; [done | done | apply N.ltb_ge; lia]. }
  unfold scalar_value in Hc.
  destruct (c <? 0x10000) eqn:Ebmp.
  - apply N.ltb_lt in Ebmp. apply scan_string_u; [done|].
    unfold is_high_surrogate.
    apply orb_true_iff in Hc as [Hc | [Hc _]%andb_true_iff];
      apply N.ltb_lt in Hc.
    + apply andb_false_iff. left. apply N.leb_gt. lia.
    + apply andb_false_iff. right. apply N.leb_gt. lia.
  - apply N.ltb_ge in Ebmp.
    apply orb_true_iff in Hc as [Hc | [_ Hc]%andb_true_iff];
      [apply N.ltb_lt in Hc; lia | apply N.leb_le in Hc].
    cbv zeta. rewrite <- app_assoc. rewrite scan_string_pair.
    + f_equal. lia.
    + unfold is_high_surrogate. apply andb_true_iff.
      split; apply N.leb_le; lia.
    + unfold is_low_surrogate. apply andb_true_iff.
      split; apply N.leb_le; lia.
Qed.

Lemma scan_string_dump s rest :
  str_valid s = true ->
  scan_string (flat_map escape_char s ++ 34 :: rest) = Some (s, rest).
Proof.
  induction s as [|c s IH]; intros Hs; [reflexivity|].
  cbn [str_valid forallb] in Hs. apply andb_true_iff in Hs as [Hc Hs].
  cbn [flat_map]. rewrite <- app_assoc.
  rewrite (scan_string_escape c _ Hc). by rewrite (IH Hs).
Qed.

(** *** Layout *)

Lemma skip_ws_spaces n s : skip_ws (repeat 32 n ++ s) = skip_ws s.
Proof. induction n as [|n IH]; [done|]. simpl. apply IH. Qed.

Lemma skip_ws_indent level s : skip_ws (indent_to level ++ s) = skip_ws s.
Proof. unfold indent_to. cbn [app skip_ws]. apply skip_ws_spaces. Qed.

Lemma skip_ws_value s : starts_value s = true -> skip_ws s = s.
Proof.
  destruct s as [|c s]; [done|]. cbn [starts_value skip_ws].
  intros [[H _]%andb_true_iff _]%andb_true_iff.
  apply negb_true_iff in H. by rewrite H.
Qed.

Lemma starts_value_app s rest :
  starts_value s = true -> starts_value (s ++ rest) = true.
Proof. by destruct s. Qed.

Lemma dump_int_head n :
  exists c t, dump_int n = c :: t /\ (c = 45 \/ is_digit c = true).
Proof.
  unfold dump_int. destruct (n <? 0)%Z.
  - exists 45, (digits (Z.to_N (- n))). split; [done | by left].
  - destruct (digits_head (Z.to_N n)) as (d & ds & Hdigits & _).
    pose proof (digits_are_digits (Z.to_N n)) as Hall.
    rewrite Hdigits in *. exists d, ds. split; [done|]. right.
    cbn [forallb] in Hall. by apply andb_true_iff in Hall as [H _].
Qed.

Lemma digit_bounds c : is_digit c = true -> 48 <= c <= 57.
Proof.
  unfold is_digit. intros [H1 H2]%andb_true_iff.
  apply N.leb_le in H1, H2. lia.
Qed.

Lemma dump_starts_value level v : starts_value (dump level v) = true.
Proof.
  destruct v as [| [|] | n | s | [|x xs] | [|kv d]]; try reflexivity.
  destruct (dump_int_head n) as (c & t & Heq & Hc).
  cbn [dump]. rewrite Heq. cbn [starts_value]. unfold is_ws.
  destruct Hc as [-> | Hc%digit_bounds]; [reflexivity|].
  rewrite !andb_true_iff, !negb_true_iff, !orb_false_iff.
  repeat split; apply N.eqb_neq; lia.
Qed.

Lemma join_cons (sep c : pystr) (cs : list pystr) :
  join sep (c :: cs) = c ++ flat_map (fun y => sep ++ y) cs.
Proof.
  revert c. induction cs as [|c' cs IH]; intros c.
  - simpl. by rewrite app_nil_r.
  - change (join sep (c :: c' :: cs)) with (c ++ sep ++ join sep (c' :: cs)).
    rewrite IH. cbn [flat_map]. by rewrite <- app_assoc.
Qed.


Lemma strip_prefix_app p rest : strip_prefix p (p ++ rest) = Some rest.
Proof.
  unfold strip_prefix. rewrite take_app_length, drop_app_length.
  by rewrite bool_decide_eq_true_2.
Qed.

(** A dictionary without a repeated key is the one its items build. *)
Lemma dict_set_fresh k v d :
  existsb (str_eqb k) (List.map fst d) = false ->
  dict_set k v d = d ++ [(k, v)].
Proof.
  induction d as [|[k' v'] d IH]; intros Hk; [done|].
  cbn [List.map fst existsb] in Hk. apply orb_false_iff in Hk as [Hk Hd].
  cbn [dict_set].
  assert (str_eqb k' k = false) as ->.
  { destruct (str_eqb k' k) eqn:E; [|done].
    apply str_eqb_eq in E. subst k'. by rewrite str_eqb_refl in Hk. }
  cbn [app]. by rewrite IH.
Qed.

Lemma existsb_app_false {A} (f : A -> bool) a b :
  existsb f (a ++ b) = false <-> existsb f a = false /\ existsb f b = false.
Proof. rewrite existsb_app. apply orb_false_iff. Qed.

Lemma distinct_snoc keys k :
  distinct (keys ++ [k])
  = distinct keys && negb (existsb (str_eqb k) keys).
Proof.
  induction keys as [|k' keys IH].
  - reflexivity.
  - cbn [app distinct]. rewrite IH, existsb_app. cbn [existsb].
    rewrite orb_false_r.
    assert (str_eqb k' k = str_eqb k k') as ->.
    { unfold str_eqb. apply bool_decide_ext. split; congruence. }
    cbn [existsb].
    destruct (existsb (str_eqb k') keys), (str_eqb k k'), (distinct keys),
      (existsb (str_eqb k) keys); reflexivity.
Qed.

Lemma dict_of_pairs_distinct d :
  distinct (List.map fst d) = true -> dict_of_pairs d = d.
Proof.
  unfold dict_of_pairs.
  assert (forall pairs acc,
             distinct (List.map fst (acc ++ pairs)) = true ->
             fold_left (fun d kv => dict_set (fst kv) (snd kv) d) pairs acc
             = acc ++ pairs) as Hgen.
  { induction pairs as [|[k v] pairs IH]; intros acc Hd.
    - by rewrite app_nil_r.
    - cbn [fold_left fst snd].
      replace (acc ++ (k, v) :: pairs) with ((acc ++ [(k, v)]) ++ pairs) in *
        by (by rewrite <- app_assoc).
      rewrite dict_set_fresh.
      + by apply IH.
      + rewrite List.map_app in Hd.
        assert (distinct (List.map fst (acc ++ [(k, v)])) = true) as Hacc.
        { revert Hd. generalize (List.map fst (acc ++ [(k, v)])).
          intros l. induction l as [|x l IHl]; [done|].
          cbn [app distinct]. intros [Hx Hl]%andb_true_iff.
          rewrite (IHl Hl), andb_true_r.
          apply negb_true_iff. apply negb_true_iff in Hx.
          rewrite existsb_app in Hx. by apply orb_false_iff in Hx as [H _]. }
        rewrite List.map_app in Hacc. cbn [List.map fst] in Hacc.
        rewrite distinct_snoc in Hacc.
        apply andb_true_iff in Hacc as [_ H]. by apply negb_true_iff in H. }
  intros Hd. by apply (Hgen d []).
Qed.

(** *** Values *)

Lemma number_ends_sep level s : number_ends (item_sep level ++ s) = true.
Proof. reflexivity. Qed.

Lemma number_ends_indent level s : number_ends (indent_to level ++ s) = true.
Proof. reflexivity. Qed.

Lemma skip_ws_sep level s :
  skip_ws (item_sep level ++ s) = 44 :: indent_to (S level) ++ s.
Proof. reflexivity. Qed.

Lemma skip_ws_space s : skip_ws (32 :: s) = skip_ws s.
Proof. reflexivity. Qed.

Section Nested.
(** The reader is right on every value that fits in [f] units of fuel;
    the items of a list and the members of a dictionary are read with
    that much. *)
Variable f : nat.
Hypothesis parse_value_fits :
  forall g v level rest,
    (g <= f)%nat -> (weight v <= g)%nat -> json_valid v = true ->
    number_ends rest = true ->
    parse_value g (dump level v ++ rest) = Some (v, rest).

Lemma parse_items_dump (xs : list json) :
  forall x g level rest,
    (g <= S f)%nat ->
    (list_sum (List.map (fun x => S (weight x)) (x :: xs)) <= g)%nat ->
    forallb json_valid (x :: xs) = true ->
    parse_items g
      (dump (S level) x
       ++ flat_map (fun y => item_sep level ++ y)
            (List.map (dump (S level)) xs)
       ++ indent_to level ++ 93 :: rest)
    = Some (x :: xs, rest).
Proof.
  induction xs as [|y ys IH]; intros x g level rest Hg Hsum Hvalid;
    cbn [List.map list_sum fold_right forallb] in Hsum, Hvalid;
    apply andb_true_iff in Hvalid as [Hx Hrest];
    (destruct g as [|g]; [lia|]); cbn [parse_items].
  - cbn [List.map flat_map]. rewrite app_nil_l.
    rewrite parse_value_fits; [|lia|lia|done|apply number_ends_indent].
    cbn [opt_bind fst snd]. rewrite skip_ws_indent.
    reflexivity.
  - cbn [List.map flat_map]. rewrite <- !app_assoc.
    rewrite parse_value_fits; [|lia|lia|done|apply number_ends_sep].
    cbn [opt_bind fst snd]. rewrite skip_ws_sep. cbv beta iota.
    change (44 =? 93) with false. change (44 =? 44) with true. cbv iota.
    rewrite skip_ws_indent.
    rewrite skip_ws_value
      by (apply starts_value_app, dump_starts_value).
    rewrite (IH y g level rest); [done | lia | | done].
    cbn [List.map list_sum fold_right]. lia.
Qed.

Lemma member_text_eq level k v s :
  member_text level (k, v) ++ s
  = 34 :: flat_map escape_char k ++ 34 :: 58 :: 32 :: dump (S level) v ++ s.
Proof.
  unfold member_text, dump_str. cbn [fst snd].
  rewrite <- !app_assoc. cbn [app]. rewrite <- !app_assoc. reflexivity.
Qed.

Lemma parse_members_dump (d : list (pystr * json)) :
  forall kv g level rest,
    (g <= S f)%nat ->
    (list_sum (List.map (fun kv => S (weight (snd kv))) (kv :: d)) <= g)%nat ->
    forallb (fun kv => str_valid (fst kv) && json_valid (snd kv)) (kv :: d)
    = true ->
    parse_members g
      (member_text level kv
       ++ flat_map (fun y => item_sep level ++ y)
            (List.map (member_text level) d)
       ++ indent_to level ++ 125 :: rest)
    = Some (kv :: d, rest).
Proof.
  induction d as [|kv' d IH]; intros [k v] g level rest Hg Hsum Hvalid;
    cbn [List.map list_sum fold_right forallb fst snd] in Hsum, Hvalid;
    apply andb_true_iff in Hvalid as [[Hk Hv]%andb_true_iff Hrest];
    (destruct g as [|g]; [lia|]);
    rewrite member_text_eq; cbn [parse_members];
    change (34 =? 34) with true; cbv iota;
    rewrite (scan_string_dump k _ Hk);
    cbn [opt_bind fst snd];
    rewrite (skip_ws_value (58 :: _)) by reflexivity; cbv beta iota;
    change (58 =? 58) with true; cbv iota;
    rewrite skip_ws_space;
    rewrite skip_ws_value by (apply starts_value_app, dump_starts_value).
  - cbn [List.map flat_map]. rewrite app_nil_l.
    rewrite parse_value_fits; [|lia|lia|done|apply number_ends_indent].
    cbn [opt_bind fst snd]. rewrite skip_ws_indent.
    reflexivity.
  - cbn [List.map flat_map]. rewrite <- !app_assoc.
    rewrite parse_value_fits; [|lia|lia|done|apply number_ends_sep].
    cbn [opt_bind fst snd]. rewrite skip_ws_sep. cbv beta iota.
    change (44 =? 125) with false. change (44 =? 44) with true. cbv iota.
    rewrite skip_ws_indent.
    rewrite skip_ws_value
      by (destruct kv'; rewrite member_text_eq; reflexivity).
    rewrite (IH kv' g level rest); [done | lia | | done].
    cbn [List.map list_sum fold_right]. lia.
Qed.

End Nested.

Lemma weight_pos v : (1 <= weight v)%nat.
Proof. destruct v; simpl; lia. Qed.

Lemma dump_list_text level x xs rest :
  dump level (JList (x :: xs)) ++ rest
  = 91 :: indent_to (S level)
       ++ dump (S level) x
       ++ flat_map (fun y => item_sep level ++ y)
            (List.map (dump (S level)) xs)
       ++ indent_to level ++ 93 :: rest.
Proof.
  change (dump level (JList (x :: xs)))
    with ([91] ++ indent_to (S level)
          ++ join (item_sep level) (List.map (dump (S level)) (x :: xs))
          ++ indent_to level ++ [93]).
  cbn [List.map]. rewrite join_cons, <- !app_assoc. reflexivity.
Qed.

Lemma dump_dict_text level kv d rest :
  dump level (JDict (kv :: d)) ++ rest
  = 123 :: indent_to (S level)
        ++ member_text level kv
        ++ flat_map (fun y => item_sep level ++ y)
             (List.map (member_text level) d)
        ++ indent_to level ++ 125 :: rest.
Proof.
  change (dump level (JDict (kv :: d)))
    with ([123] ++ indent_to (S level)
          ++ join (item_sep level) (List.map (member_text level) (kv :: d))
          ++ indent_to level ++ [125]).
  cbn [List.map]. rewrite join_cons, <- !app_assoc. reflexivity.
Qed.

Lemma parse_value_int g n rest :
  number_ends rest = true ->
  parse_value (S g) (dump_int n ++ rest) = Some (JInt n, rest).
Proof.
  intros Hrest. pose proof (scan_number_dump n rest Hrest) as Hscan.
  destruct (dump_int_head n) as (c & t & Heq & Hc).
  rewrite Heq in *. cbn [app parse_value].
  assert ((c =? 34) = false /\ (c =? 91) = false /\ (c =? 123) = false
          /\ (c =? 110) = false /\ (c =? 116) = false
          /\ (c =? 102) = false) as (-> & -> & -> & -> & -> & ->).
  { destruct Hc as [-> | Hc%digit_bounds]; [done|].
    repeat split; apply N.eqb_neq; lia. }
  cbn [app] in Hscan. by rewrite Hscan.
Qed.

Lemma parse_value_str g s rest :
  str_valid s = true ->
  parse_value (S g) (dump_str s ++ rest) = Some (JStr s, rest).
Proof.
  intros Hs. unfold dump_str. cbn [app]. rewrite <- app_assoc.
  cbn [app parse_value].
  change (34 =? 34) with true. cbv iota.
  by rewrite (scan_string_dump s rest Hs).
Qed.

(** With enough fuel the reader gives back the value it was printed
    from and stops where its text ends. *)
Lemma parse_value_dump (f : nat) :
  forall g v level rest,
    (g <= f)%nat -> (weight v <= g)%nat -> json_valid v = true ->
    number_ends rest = true ->
    parse_value g (dump level v ++ rest) = Some (v, rest).
Proof.
  induction f as [|f IH]; intros g v level rest Hg Hw Hvalid Hrest;
    pose proof (weight_pos v) as Hpos; [lia|].
  destruct g as [|g]; [lia|].
  destruct v as [| [|] | n | s | [|x xs] | [|kv d]].
  - reflexivity.
  - reflexivity.
  - reflexivity.
  - by apply parse_value_int.
  - by apply parse_value_str.
  - reflexivity.
  - rewrite dump_list_text. cbn [parse_value].
    change (91 =? 34) with false. change (91 =? 91) with true. cbv iota.
    rewrite skip_ws_indent.
    assert (starts_value
              (dump (S level) x
               ++ flat_map (fun y => item_sep level ++ y)
                    (List.map (dump (S level)) xs)
               ++ indent_to level ++ 93 :: rest) = true) as Hstart
      by apply starts_value_app, dump_starts_value.
    rewrite (skip_ws_value _ Hstart).
    assert (parse_items g
              (dump (S level) x
               ++ flat_map (fun y => item_sep level ++ y)
                    (List.map (dump (S level)) xs)
               ++ indent_to level ++ 93 :: rest) = Some (x :: xs, rest))
      as Hitems
      by (apply (parse_items_dump f IH);
          [lia | cbn [weight] in Hw; lia | done]).
    destruct (dump (S level) x
              ++ flat_map (fun y => item_sep level ++ y)
                   (List.map (dump (S level)) xs)
              ++ indent_to level ++ 93 :: rest) as [|c1 s1];
      [discriminate Hstart|].
    cbn [starts_value] in Hstart.
    apply andb_true_iff in Hstart as [[_ H93]%andb_true_iff _].
    apply negb_true_iff in H93. rewrite H93, Hitems. reflexivity.
  - reflexivity.
  - cbn [json_valid] in Hvalid. apply andb_true_iff in Hvalid as [Hall Hkeys].
    rewrite dump_dict_text. cbn [parse_value].
    change (123 =? 34) with false. change (123 =? 91) with false.
    change (123 =? 123) with true. cbv iota.
    rewrite skip_ws_indent.
    assert (starts_value
              (member_text level kv
               ++ flat_map (fun y => item_sep level ++ y)
                    (List.map (member_text level) d)
               ++ indent_to level ++ 125 :: rest) = true) as Hstart
      by (destruct kv; rewrite member_text_eq; reflexivity).
    rewrite (skip_ws_value _ Hstart).
    assert (parse_members g
              (member_text level kv
               ++ flat_map (fun y => item_sep level ++ y)
                    (List.map (member_text level) d)
               ++ indent_to level ++ 125 :: rest) = Some (kv :: d, rest))
      as Hitems
      by (apply (parse_members_dump f IH);
          [lia | cbn [weight] in Hw; lia | done]).
    destruct (member_text level kv
              ++ flat_map (fun y => item_sep level ++ y)
                   (List.map (member_text level) d)
              ++ indent_to level ++ 125 :: rest) as [|c1 s1];
      [discriminate Hstart|].
    cbn [starts_value] in Hstart.
    apply andb_true_iff in Hstart as [_ H125].
    apply negb_true_iff in H125. rewrite H125, Hitems.
    cbn [opt_bind fst snd]. by rewrite (dict_of_pairs_distinct _ Hkeys).
Qed.

Lemma items_length {A} (w : A -> nat) (text : A -> pystr) level (xs : list A) :
  Forall (fun y => (w y <= length (text y))%nat) xs ->
  (list_sum (List.map (fun y => S (w y)) xs)
   <= length (flat_map (fun t => item_sep level ++ t) (List.map text xs)))%nat.
Proof.
  induction 1 as [|y ys Hy Hys IH]; [done|].
  unfold list_sum in *. cbn [List.map fold_right flat_map].
  rewrite !length_app.
  change (length (item_sep level)) with (S (length (indent_to (S level)))).
  lia.
Qed.

Lemma sum_bounds {A} (w : A -> nat) (xs : list A) (n : nat) :
  (list_sum (List.map (fun y => S (w y)) xs) <= n)%nat ->
  Forall (fun y => (w y <= n)%nat) xs.
Proof.
  induction xs as [|y ys IH]; [done|].
  unfold list_sum in *. cbn [List.map fold_right]. intros Hsum.
  constructor; [lia | apply IH; lia].
Qed.

Lemma list_sum_cons (x : nat) (l : list nat) :
  list_sum (x :: l) = (x + list_sum l)%nat.
Proof. reflexivity. Qed.

(** The text of a value is at least as long as the fuel it takes. *)
Lemma weight_le_dump (n : nat) :
  forall v level, (weight v <= n)%nat ->
                  (weight v <= length (dump level v))%nat.
Proof.
  induction n as [|n IH]; intros v level Hw;
    pose proof (weight_pos v) as Hpos; [lia|].
  destruct v as [| [|] | z | s | [|x xs] | [|kv d]];
    try (cbn; lia).
  - pose proof (dump_starts_value level (JInt z)) as Hstart.
    destruct (dump level (JInt z)); [discriminate Hstart | simpl; lia].
  - rewrite <- (app_nil_r (dump level (JList (x :: xs)))), dump_list_text.
    cbn [weight List.map] in Hw. rewrite list_sum_cons in Hw.
    assert (weight x <= length (dump (S level) x))%nat as Hx
      by (apply IH; lia).
    assert (Forall (fun y => (weight y <= length (dump (S level) y))%nat) xs)
      as Hxs.
    { eapply Forall_impl; [apply (sum_bounds weight xs n); lia|].
      intros y Hy. by apply IH. }
    pose proof (items_length weight (dump (S level)) level xs Hxs) as Hlen.
    cbn [weight List.map length]. rewrite list_sum_cons.
    rewrite !length_app. cbn [length]. lia.
  - rewrite <- (app_nil_r (dump level (JDict (kv :: d)))), dump_dict_text.
    cbn [weight List.map] in Hw. rewrite list_sum_cons in Hw.
    assert (forall kv : pystr * json,
               (weight (snd kv) <= n)%nat ->
               (weight (snd kv) <= length (member_text level kv))%nat) as Hm.
    { intros kv' Hkv'. unfold member_text. rewrite !length_app.
      pose proof (IH (snd kv') (S level) Hkv'). lia. }
    assert (weight (snd kv) <= length (member_text level kv))%nat as Hx
      by (apply Hm; lia).
    assert (Forall (fun y : pystr * json =>
                      (weight (snd y) <= length (member_text level y))%nat) d)
      as Hxs.
    { eapply Forall_impl;
        [apply (sum_bounds (fun kv => weight (snd kv)) d n); lia|].
      intros y Hy. by apply Hm. }
    pose proof (items_length (fun kv => weight (snd kv)) (member_text level)
                  level d Hxs) as Hlen.
    cbn [weight List.map length]. rewrite list_sum_cons.
    rewrite !length_app. cbn [length]. lia.
Qed.

(** The printer and the reader of the JSON text satisfy the assumption
    made on the [json] module. *)
Theorem python_json_lawful : lawful python_json.
Proof.
  intros v Hvalid. cbn [json_dump json_load python_json]. unfold loads.
  rewrite (skip_ws_value _ (dump_starts_value 0 v)).
  rewrite <- (app_nil_r (dump 0 v)) at 2.
  rewrite (parse_value_dump (length (dump 0 v)) (length (dump 0 v)) v 0 []);
    [reflexivity | lia | | done | reflexivity].
  by apply (weight_le_dump (weight v)).
Qed.

(** ** Runs on concrete inputs *)

Example evaluate_secure :
  password_evaluator (lit "Secure@123")
  = {| score := 4; rank := lit "Excellent"; feedback := [] |}.
Proof. reflexivity. Qed.

Example evaluate_weak :
  let a := password_evaluator (lit "weak") in
  score a = O /\ rank a = lit "Weak" /\ length (feedback a) = 4%nat.
Proof. vm_compute. auto. Qed.

(** [#] is outside the validator's set although the evaluator counts it. *)
Example validator_rejects_hash :
  score (password_evaluator (lit "Abcdefg1#")) = 4%nat
  /\ password_validator (lit "Abcdefg1#") = false.
Proof. split; reflexivity. Qed.

Example dump_record :
  @json_load python_json
    (@json_dump python_json (JList [password_record (lit "weak")]))
  = Some (JList [password_record (lit "weak")]).
Proof. vm_compute. reflexivity. Qed.

(** C4: the Save Password button of the page appends to the history and
    saves it without evicting anything: pressed on a history that holds
    five records it leaves six in the file, so an insert does not always
    keep the stored history within five records. *)
Theorem save_button_exceeds_5 :
  let five := [lit "Alpha@111"; lit "Bravo@222"; lit "Delta@333";
               lit "Gamma@444"; lit "Omega@555"] in
  let password := lit "Secure@123" in
  let six := List.map password_record five
             ++ [JDict [(lit "password", JStr password);
                        (lit "rank", JInt 4)]] in
  (let* added := @add_passwords python_json five ∅ in
   let fs5 := snd added in
   let* password_history := @load_passwords python_json fs5 in
   let* saved :=
     @save_password_button python_json 5 true password
       (password_evaluator password) password_history fs5 in
   Return (fst added, @data_loader python_json (snd saved) PASSWORDS_FILE))
  = Return (replicate 5 msg_added, JList six)
  /\ length six = 6%nat.
Proof. vm_compute. split; reflexivity. Qed.

(** What [add_password] itself saves stays within five records when the
    history it loaded did. *)
Lemma add_password_within_5 `{JsonCodec} fs entries password :
  data_loader fs PASSWORDS_FILE = JList entries ->
  Forall (has_field (lit "password")) entries ->
  ~ Exists (password_is password) entries ->
  password_validator password = true ->
  (length entries <= 5)%nat ->
  exists stored,
    add_password password fs
    = Return (msg_added, data_saver PASSWORDS_FILE (JList stored) fs)
    /\ (length stored <= 5)%nat.
Proof.
  intros Hload Hwf Hno Hvalid Hlen.
  exists (maintain_last_5 (entries ++ [password_record password])).
  split; [by apply add_password_new|].
  apply maintain_last_5_length. rewrite length_app. simpl. lia.
Qed.

(** ** Witnesses *)

(** The loader on bytes at work: a file that is not JSON gives the empty
    list, the file [data_saver] writes for an empty history gives it
    back. *)
Lemma data_loader_on_disk_examples :
  @data_loader_on_disk python_json
    (<[PASSWORDS_FILE := ascii_bytes "{not json"]> ∅) PASSWORDS_FILE
  = Returned (JList [])
  /\ read_text (ascii_bytes "[]") = Some (@json_dump python_json (JList []))
  /\ @data_loader_on_disk python_json
       (<[PASSWORDS_FILE := ascii_bytes "[]"]> ∅) PASSWORDS_FILE
     = Returned (JList []).
Proof. by vm_compute. Qed.

Lemma save_load_round_trip_witness :
  json_valid (JList [password_record (lit "Secure@123")]) = true
  /\ @data_loader python_json
       (@data_saver python_json PASSWORDS_FILE
          (JList [password_record (lit "Secure@123")]) ∅)
       PASSWORDS_FILE
     = JList [password_record (lit "Secure@123")].
Proof.
  split; [reflexivity|].
  apply (@save_load_round_trip python_json
           [password_record (lit "Secure@123")] PASSWORDS_FILE ∅
           python_json_lawful).
  reflexivity.
Defined.

Lemma add_password_appends_and_evicts_witness :
  let excellent := fun password : pystr =>
    JDict [ (lit "password", JStr password); (lit "score", JInt 4);
            (lit "rank", JStr (lit "Excellent")); (lit "feedback", JList []) ]
  in
  (exists stored,
      @add_password python_json (lit "abcdefg1?") ∅
      = Return (msg_added,
                @data_saver python_json PASSWORDS_FILE (JList stored) ∅)
      /\ stored
         = [JDict [ (lit "password", JStr (lit "abcdefg1?"));
                    (lit "score", JInt 2);
                    (lit "rank", JStr (lit "Good"));
                    (lit "feedback",
                     JList [JStr msg_case; JStr msg_special]) ]])
  /\ (exists fs',
         @add_passwords python_json
           [lit "Alpha@111"; lit "Bravo@222"; lit "Delta@333";
            lit "Gamma@444"; lit "Omega@555"; lit "Secure@123"] ∅
         = Return (replicate 6 msg_added, fs')
         /\ @data_loader python_json fs' PASSWORDS_FILE
            = JList [excellent (lit "Bravo@222"); excellent (lit "Delta@333");
                     excellent (lit "Gamma@444"); excellent (lit "Omega@555");
                     excellent (lit "Secure@123")]).
Proof.
  cbv zeta. split.
  - destruct (proj1 (@add_password_appends_and_evicts python_json)
                ∅ [] (lit "abcdefg1?"))
      as (stored & Hrun & Hroom & _).
    + reflexivity.
    + constructor.
    + intros H. inversion H.
    + reflexivity.
    + exists stored. split; [exact Hrun|]. apply Hroom. simpl. lia.
  - apply (proj2 (@add_password_appends_and_evicts python_json)
             python_json_lawful ∅).
    + reflexivity.
    + refine (bool_decide_unpack _ _). vm_compute. exact I.
    + repeat constructor.
Defined.

Lemma add_password_rejects_repeat_witness :
  let fs1 := @data_saver python_json PASSWORDS_FILE
               (JList [password_record (lit "Secure@123")]) ∅ in
  @add_password python_json (lit "Secure@123") fs1
  = Return (msg_recent, fs1)
  /\ exists message fs2,
       @add_password python_json (lit "Bravo@222") fs1
       = Return (message, fs2)
       /\ @add_password python_json (lit "Bravo@222") fs2
          = Return (msg_recent, fs2).
Proof.
  cbv zeta.
  assert (@data_loader python_json
            (@data_saver python_json PASSWORDS_FILE
               (JList [password_record (lit "Secure@123")]) ∅)
            PASSWORDS_FILE
          = JList [password_record (lit "Secure@123")]) as Hload
    by (vm_compute; reflexivity).
  assert (Forall (has_field (lit "password"))
            [password_record (lit "Secure@123")]) as Hwf
    by (constructor; [by exists (JStr (lit "Secure@123")) | constructor]).
  split.
  - apply (proj1 (@add_password_rejects_repeat python_json) _
             [password_record (lit "Secure@123")]); [exact Hload | exact Hwf |].
    left. reflexivity.
  - apply (proj2 (@add_password_rejects_repeat python_json)
             python_json_lawful _ [password_record (lit "Secure@123")]);
      [exact Hload | exact Hwf | reflexivity | reflexivity].
Defined.

Lemma store_link_spec_witness :
  let first := JDict [ (lit "site", JStr (lit "https://example.com"));
                       (lit "username", JStr (lit "user123"));
                       (lit "password", JStr (lit "Secure@123"));
                       (lit "score", JInt 4);
                       (lit "rank", JStr (lit "Excellent")) ] in
  let second := JDict [ (lit "site", JStr (lit "https://example.com"));
                        (lit "username", JStr (lit "User123"));
                        (lit "password", JStr (lit "weak"));
                        (lit "score", JInt 0);
                        (lit "rank", JStr (lit "Weak")) ] in
  let fs1 := @data_saver python_json LINKS_FILE (JList [first]) ∅ in
  @store_link python_json (lit "https://example.com") (lit "user123")
    (lit "other") fs1
  = Return (msg_link_exists, fs1)
  /\ @store_link python_json (lit "https://example.com") (lit "User123")
       (lit "weak") fs1
     = Return (msg_link_saved,
               @data_saver python_json LINKS_FILE
                 (JList ([first] ++ [second])) fs1).
Proof.
  cbv zeta.
  assert (@data_loader python_json
            (@data_saver python_json LINKS_FILE
               (JList [link_record (lit "https://example.com")
                         (lit "user123") (lit "Secure@123")]) ∅)
            LINKS_FILE
          = JList [link_record (lit "https://example.com")
                     (lit "user123") (lit "Secure@123")]) as Hload
    by (vm_compute; reflexivity).
  assert (Forall is_link_record
            [link_record (lit "https://example.com")
               (lit "user123") (lit "Secure@123")]) as Hwf.
  { constructor; [|constructor].
    split; [by exists (JStr (lit "https://example.com"))
           | by exists (JStr (lit "user123"))]. }
  split.
  - apply (proj1 (@store_link_spec python_json _ _
                    (lit "https://example.com") (lit "user123")
                    (lit "other") Hload Hwf)).
    left. split; reflexivity.
  - apply (proj2 (@store_link_spec python_json _ _
                    (lit "https://example.com") (lit "User123")
                    (lit "weak") Hload Hwf)).
    intros Hex. inversion Hex as [? ? [_ Huser] | ? ? Hnil]; subst.
    + discriminate Huser.
    + inversion Hnil.
Defined.

(** The comparison with the history is exact: the same letters in another
    case are another password. *)
Example add_password_other_case :
  (let* first := @add_password python_json (lit "Secure@123") ∅ in
   let* second := @add_password python_json (lit "secure@123") (snd first) in
   let* third := @add_password python_json (lit "Secure@123") (snd second) in
   Return [fst first; fst second; fst third])
  = Return [msg_added; msg_added; msg_recent].
Proof. vm_compute. reflexivity. Qed.

(** A second link for the same site and user name is refused and the
    first record stays as it was. *)
Example store_link_twice :
  (let* first :=
     @store_link python_json (lit "example.com") (lit "user") (lit "one") ∅ in
   let* second :=
     @store_link python_json (lit "example.com") (lit "user") (lit "two")
       (snd first) in
   Return (fst first, fst second,
           @get_linked_passwords python_json (snd second)))
  = Return (msg_link_saved, msg_link_exists,
            JList [link_record (lit "example.com") (lit "user") (lit "one")]).
Proof. vm_compute. reflexivity. Qed.

(** * Further properties *)

(** ** The evaluator *)

Lemma score_sum (p : pystr) :
  score (password_evaluator p)
  = (Nat.b2n (bool_decide (length_ok p)) + Nat.b2n (bool_decide (case_mix p))
     + Nat.b2n (bool_decide (has_digit p))
     + Nat.b2n (bool_decide (has_special p)))%nat.
Proof.
  rewrite evaluator_refines. unfold evaluator_spec, predicates.
  cbn [score].
  by destruct (bool_decide (length_ok p)), (bool_decide (case_mix p)),
    (bool_decide (has_digit p)), (bool_decide (has_special p)).
Qed.

Lemma score_plus_feedback_sum (p : pystr) :
  (score (password_evaluator p) + length (feedback (password_evaluator p))
   = 4)%nat.
Proof.
  unfold password_evaluator. cbn [score feedback]. by rewrite !check_total.
Qed.

Lemma b2n_decide_mono (P Q : Prop) `{Decision P, Decision Q} :
  (P -> Q) -> (Nat.b2n (bool_decide P) <= Nat.b2n (bool_decide Q))%nat.
Proof.
  intros HPQ. destruct (bool_decide P) eqn:EP; [|simpl; lia].
  apply bool_decide_eq_true in EP.
  by rewrite (bool_decide_eq_true_2 Q (HPQ EP)).
Qed.

Lemma Exists_inside {A} (P : A -> Prop) (pre p post : list A) :
  Exists P p -> Exists P (pre ++ p ++ post).
Proof. intros H. apply Exists_app. right. apply Exists_app. by left. Qed.

Lemma length_ok_inside (pre p post : pystr) :
  length_ok p -> length_ok (pre ++ p ++ post).
Proof. unfold length_ok. rewrite !length_app. lia. Qed.

Lemma case_mix_inside (pre p post : pystr) :
  case_mix p -> case_mix (pre ++ p ++ post).
Proof. intros [Hu Hl]. split; by apply Exists_inside. Qed.

Lemma decide_mono (P Q : Prop) `{Decision P, Decision Q} :
  (P -> Q) -> bool_decide P = true -> bool_decide Q = true.
Proof.
  intros HPQ HP. apply bool_decide_eq_true. apply HPQ.
  by apply bool_decide_eq_true in HP.
Qed.

(** X1: characters added before or after a password never lower its
    score, and every feedback message of the longer password is one the
    shorter password already had, in the same order. *)
Theorem score_grows_with_password (pre p post : pystr) :
  (score (password_evaluator p)
   <= score (password_evaluator (pre ++ p ++ post)))%nat
  /\ feedback (password_evaluator (pre ++ p ++ post))
     `sublist_of` feedback (password_evaluator p).
Proof.
  pose proof (decide_mono _ _ (length_ok_inside pre p post)) as H1.
  pose proof (decide_mono _ _ (case_mix_inside pre p post)) as H2.
  pose proof (decide_mono (has_digit p) (has_digit (pre ++ p ++ post))
                (Exists_inside _ pre p post)) as H3.
  pose proof (decide_mono (has_special p) (has_special (pre ++ p ++ post))
                (Exists_inside _ pre p post)) as H4.
  rewrite !evaluator_refines. unfold evaluator_spec, predicates.
  cbn [score feedback].
  destruct (bool_decide (length_ok p)),
    (bool_decide (length_ok (pre ++ p ++ post)));
    try (specialize (H1 eq_refl); discriminate H1);
    destruct (bool_decide (case_mix p)),
      (bool_decide (case_mix (pre ++ p ++ post)));
    try (specialize (H2 eq_refl); discriminate H2);
    destruct (bool_decide (has_digit p)),
      (bool_decide (has_digit (pre ++ p ++ post)));
    try (specialize (H3 eq_refl); discriminate H3);
    destruct (bool_decide (has_special p)),
      (bool_decide (has_special (pre ++ p ++ post)));
    try (specialize (H4 eq_refl); discriminate H4);
    (split; [simpl; lia|]); cbn [List.filter List.map fst snd negb];
    repeat first [apply sublist_nil | apply sublist_skip | apply sublist_cons].
Qed.

Lemma Exists_perm {A} (P : A -> Prop) (l1 l2 : list A) :
  l1 ≡ₚ l2 -> Exists P l1 -> Exists P l2.
Proof.
  intros Hperm (x & Hin & Hx)%Exists_exists. apply Exists_exists.
  exists x. split; [by rewrite <- Hperm | done].
Qed.

(** X2: the evaluation depends on which characters a password holds and
    how many, not on their order. *)
Theorem evaluator_ignores_order (p q : pystr) :
  p ≡ₚ q -> password_evaluator p = password_evaluator q.
Proof.
  intros Hperm. rewrite !evaluator_refines.
  assert (bool_decide (length_ok p) = bool_decide (length_ok q)) as E1.
  { apply bool_decide_ext. unfold length_ok.
    by rewrite (Permutation_length Hperm). }
  assert (bool_decide (case_mix p) = bool_decide (case_mix q)) as E2.
  { apply bool_decide_ext. unfold case_mix.
    split; intros [Hu Hl]; split;
      (eapply Exists_perm; [|eassumption]); done. }
  assert (bool_decide (has_digit p) = bool_decide (has_digit q)) as E3.
  { apply bool_decide_ext. split; apply Exists_perm; done. }
  assert (bool_decide (has_special p) = bool_decide (has_special q)) as E4.
  { apply bool_decide_ext. split; apply Exists_perm; done. }
  unfold evaluator_spec, predicates. by rewrite E1, E2, E3, E4.
Qed.

Lemma evaluator_ignores_order_witness :
  lit "Secure@123" ≡ₚ lit "321@eruceS"
  /\ password_evaluator (lit "Secure@123")
     = password_evaluator (lit "321@eruceS").
Proof.
  assert (lit "Secure@123" ≡ₚ lit "321@eruceS") as Hperm
    by (change (lit "321@eruceS") with (rev (lit "Secure@123"));
        apply Permutation_rev).
  split; [exact Hperm|]. by apply evaluator_ignores_order.
Defined.

Lemma score_at_most_4 (p : pystr) : (score (password_evaluator p) <= 4)%nat.
Proof. pose proof (score_plus_feedback_sum p). lia. Qed.

Lemma rank_of_score (p : pystr) :
  rank (password_evaluator p)
  = nth (score (password_evaluator p)) password_strength_ranking [].
Proof.
  pose proof (score_at_most_4 p) as Hle.
  unfold password_evaluator in *. cbn [score rank] in *.
  by rewrite Nat.min_l.
Qed.

(** X3: the rank tells the score: two passwords have the same rank
    exactly when they have the same score, and the rank is Excellent
    exactly when there is no feedback. *)
Theorem rank_tells_score (p q : pystr) :
  (rank (password_evaluator p) = rank (password_evaluator q)
   <-> score (password_evaluator p) = score (password_evaluator q))
  /\ (rank (password_evaluator p) = lit "Excellent"
      <-> feedback (password_evaluator p) = []).
Proof.
  pose proof (score_at_most_4 p) as Hp.
  pose proof (score_at_most_4 q) as Hq.
  pose proof (score_plus_feedback_sum p) as Hsum.
  rewrite !rank_of_score.
  destruct (score (password_evaluator p)) as [|[|[|[|[|n]]]]]; [| | | | |lia];
    (split;
     [ destruct (score (password_evaluator q)) as [|[|[|[|[|m]]]]];
         [| | | | |lia]; (split; [intros H; try discriminate H | intros H;
                                  try discriminate H]); reflexivity
     | split; [intros H; try discriminate H | intros H; rewrite H in Hsum;
                                              try discriminate Hsum] ]).
  - destruct (feedback (password_evaluator p)); [done | discriminate Hsum].
  - reflexivity.
Qed.

(** X4: a password shorter than 8 characters scores at most 3 and its
    first feedback message is the one about the length. *)
Theorem short_password_feedback (p : pystr) :
  (length p < 8)%nat ->
  (score (password_evaluator p) <= 3)%nat
  /\ exists others,
       feedback (password_evaluator p) = msg_length :: others.
Proof.
  intros Hshort. rewrite evaluator_refines.
  unfold evaluator_spec, predicates. cbn [score feedback].
  assert (bool_decide (length_ok p) = false) as ->
    by (apply bool_decide_eq_false; unfold length_ok; lia).
  split.
  - destruct (bool_decide (case_mix p)), (bool_decide (has_digit p)),
      (bool_decide (has_special p)); simpl; lia.
  - cbn [List.filter fst negb List.map snd]. eauto.
Qed.

Lemma short_password_feedback_witness :
  (length (lit "Ab1!") < 8)%nat
  /\ (score (password_evaluator (lit "Ab1!")) <= 3)%nat
  /\ exists others,
       feedback (password_evaluator (lit "Ab1!")) = msg_length :: others.
Proof.
  split; [simpl; lia|]. apply (short_password_feedback (lit "Ab1!")).
  simpl. lia.
Defined.

Lemma rank_tells_score_witness :
  score (password_evaluator (lit "Secure@123"))
  = score (password_evaluator (lit "Abcdef1!"))
  /\ rank (password_evaluator (lit "Secure@123"))
     = rank (password_evaluator (lit "Abcdef1!")).
Proof.
  split; [reflexivity|].
  apply (proj1 (rank_tells_score (lit "Secure@123") (lit "Abcdef1!"))).
  reflexivity.
Defined.

(** ** The validator *)

Lemma chomp_snoc_newline (body : pystr) : chomp (body ++ [newline]) = body.
Proof.
  induction body as [|c [|c' body] IH]; [done|done|].
  change ((c :: c' :: body) ++ [newline])
    with (c :: c' :: (body ++ [newline])).
  rewrite chomp_cons2. f_equal. exact IH.
Qed.

Lemma validator_char_not_newline (body : pystr) :
  Forall validator_char body -> newline ∉ body.
Proof.
  intros Hall Hin. apply (proj1 (Forall_forall _ _) Hall) in Hin.
  apply whole_class_spec in Hin. discriminate Hin.
Qed.

(** X5: [password_validator] accepts exactly the strings made of a body
    of at least 8 letters, digits and characters of [@$!%*?&] that holds
    a letter, a digit and one of those characters, followed by nothing or
    by a single newline. *)
Theorem password_validator_exact (p : pystr) :
  password_validator p = true
  <-> exists body, (p = body \/ p = body ++ [newline]) /\ validator_spec body.
Proof.
  rewrite password_validator_chomp. split.
  - intros Hspec. exists (chomp p). split; [apply chomp_cases | done].
  - intros (body & Hshape & Hspec).
    assert (chomp p = body) as ->; [|done].
    destruct Hshape as [-> | ->].
    + apply chomp_no_newline, validator_char_not_newline.
      by destruct Hspec as (_ & _ & _ & _ & H).
    + apply chomp_snoc_newline.
Qed.

Lemma password_validator_exact_witness :
  validator_spec (lit "Secure@123")
  /\ password_validator (lit "Secure@123") = true.
Proof.
  assert (validator_spec (lit "Secure@123")) as Hspec.
  { apply (password_validator_one_line (lit "Secure@123"));
      [|reflexivity].
    intros Hin. apply list_elem_of_In in Hin. simpl in Hin.
    repeat (destruct Hin as [Hin | Hin]; [discriminate Hin|]). exact Hin. }
  split; [exact Hspec|].
  apply (proj2 (password_validator_exact (lit "Secure@123"))).
  exists (lit "Secure@123"). split; [by left | exact Hspec].
Defined.

Lemma elem_of_chomp (c : codepoint) (p : pystr) :
  c ∈ p -> c ∈ chomp p \/ c = newline.
Proof.
  intros Hin. destruct (chomp_cases p) as [E | E]; rewrite E in Hin.
  - by left.
  - apply elem_of_app in Hin as [Hin | Hin]; [by left|].
    apply list_elem_of_singleton in Hin. by right.
Qed.

Lemma shared_special_spec (c : codepoint) :
  c ∈ shared_specials
  <-> c ∈ evaluator_specials /\ (validator_char c \/ c = newline).
Proof.
  split.
  - intros Hin. change shared_specials with [64; 36; 33; 37; 42; 38] in Hin.
    assert (c ∈ evaluator_specials /\ c ∈ validator_specials) as [He Hv].
    { repeat (apply elem_of_cons in Hin as [-> | Hin];
              [split; apply list_elem_of_In; simpl; tauto|]).
      by apply elem_of_nil in Hin. }
    split; [done|]. left. right. right. exact Hv.
  - intros [He Hv].
    change evaluator_specials with [33; 64; 35; 36; 37; 94; 38; 42] in He.
    repeat (apply elem_of_cons in He as [-> | He];
            [first [ apply list_elem_of_In; simpl; tauto
                   | exfalso; destruct Hv as [Hv | Hv]; [|discriminate Hv];
                     apply whole_class_spec in Hv; discriminate Hv ]|]).
    by apply elem_of_nil in He.
Qed.

(** X6: a password the validator accepts is rated Excellent by the
    evaluator exactly when it mixes upper and lower case and holds a
    special character other than the question mark. *)
Theorem accepted_password_excellent (p : pystr) :
  password_validator p = true ->
  (score (password_evaluator p) = 4%nat
   <-> case_mix p /\ Exists (fun c => c ∈ shared_specials) p).
Proof.
  intros Hvalid.
  assert (has_special p <-> Exists (fun c => c ∈ shared_specials) p)
    as Hspecial.
  { apply password_validator_chomp in Hvalid as (_ & _ & _ & _ & Hall).
    unfold has_special. rewrite !Exists_exists.
    split; intros (c & Hin & Hc); exists c; (split; [done|]).
    - apply shared_special_spec. split; [done|].
      destruct (elem_of_chomp c p Hin) as [Hbody | ->]; [left | by right].
      by apply (proj1 (Forall_forall _ _) Hall).
    - by apply shared_special_spec in Hc as [Hc _]. }
  rewrite <- Hspecial, score_sum.
  rewrite (bool_decide_eq_true_2 _ (validator_length p Hvalid)).
  rewrite (bool_decide_eq_true_2 _ (validator_digit p Hvalid)).
  destruct (bool_decide (case_mix p)) eqn:E1,
    (bool_decide (has_special p)) eqn:E2; simpl;
    try apply bool_decide_eq_true in E1;
    try apply bool_decide_eq_true in E2;
    try apply bool_decide_eq_false in E1;
    try apply bool_decide_eq_false in E2;
    (split; [intros H; try discriminate H; done | intros [H1 H2]; done]).
Qed.

Lemma accepted_password_excellent_witness :
  password_validator (lit "Secure@123") = true
  /\ score (password_evaluator (lit "Secure@123")) = 4%nat.
Proof.
  split; [reflexivity|].
  apply (proj2 (accepted_password_excellent (lit "Secure@123") eq_refl)).
  split.
  - split; apply Exists_exists.
    + exists 83. split; [apply list_elem_of_In; simpl; tauto|].
      unfold is_upper. lia.
    + exists 101. split; [apply list_elem_of_In; simpl; tauto|].
      unfold is_lower. lia.
  - apply Exists_exists. exists 64.
    split; apply list_elem_of_In; simpl; tauto.
Defined.

(** ** The history of password_utils.py *)

Section HistoryMore.
Context {codec : JsonCodec}.

(** X7: on a history whose records all have a password field,
    [check_repeated_password] answers "not unique" exactly when some
    record holds the password, and "unique" exactly when none does. *)
Theorem check_repeated_password_spec (fs : files) (entries : list json)
    (password : pystr) :
  data_loader fs PASSWORDS_FILE = JList entries ->
  Forall (has_field (lit "password")) entries ->
  (check_repeated_password fs password = Return (false, msg_recent)
   <-> Exists (password_is password) entries)
  /\ (check_repeated_password fs password = Return (true, msg_unique)
      <-> ~ Exists (password_is password) entries).
Proof.
  intros Hload Hwf. unfold check_repeated_password.
  rewrite Hload. cbn [py_iter bind].
  destruct (scan_passwords_cases entries password Hwf)
    as [[Hex ->] | [Hno ->]].
  - split; split; done.
  - split; split; done.
Qed.

Lemma scan_passwords_raises pre e post password err :
  Forall (has_field (lit "password")) pre ->
  ~ Exists (password_is password) pre ->
  py_getitem e (lit "password") = Raise err ->
  scan_passwords (pre ++ e :: post) password = Raise err.
Proof.
  induction 1 as [|entry pre [v Hv] Hall IH]; intros Hno Herr.
  - cbn [app scan_passwords]. by rewrite Herr.
  - cbn [app scan_passwords]. rewrite (py_getitem_field _ _ _ Hv).
    cbn [bind]. destruct (py_eq_str v password) eqn:E.
    + exfalso. apply Hno. left. apply py_eq_str_spec in E. by subst v.
    + apply IH; [|done]. intros Hex. apply Hno. by right.
Qed.

Lemma py_getitem_no_field e key :
  field key e = None ->
  py_getitem e key
  = Raise (match e with JDict _ => KeyError | _ => TypeError end).
Proof. destruct e; simpl; try done. by intros ->. Qed.

(** X8: a record without a password field that comes before any record
    holding the password makes [check_repeated_password] and
    [add_password] raise: [KeyError] when the record is a dictionary,
    [TypeError] when it is not. *)
Theorem add_password_malformed_record (fs : files) (pre post : list json)
    (e : json) (password : pystr) :
  data_loader fs PASSWORDS_FILE = JList (pre ++ e :: post) ->
  Forall (has_field (lit "password")) pre ->
  ~ Exists (password_is password) pre ->
  field (lit "password") e = None ->
  let err := match e with JDict _ => KeyError | _ => TypeError end in
  check_repeated_password fs password = Raise err
  /\ add_password password fs = Raise err.
Proof.
  intros Hload Hwf Hno Hmissing err.
  assert (check_repeated_password fs password = Raise err) as Hcheck.
  { unfold check_repeated_password. rewrite Hload. cbn [py_iter bind].
    apply scan_passwords_raises; [done | done |].
    by apply py_getitem_no_field. }
  split; [exact Hcheck|]. unfold add_password. by rewrite Hcheck.
Qed.

(** X9: [add_password] never stores a password the validator rejects:
    on a well-formed history it returns the "recently used" message when
    the password is in the history and the "criteria" message otherwise,
    and the files stay as they were. *)
Theorem add_password_never_stores_invalid (fs : files) (entries : list json)
    (password : pystr) :
  data_loader fs PASSWORDS_FILE = JList entries ->
  Forall (has_field (lit "password")) entries ->
  password_validator password = false ->
  (Exists (password_is password) entries ->
   add_password password fs = Return (msg_recent, fs))
  /\ (~ Exists (password_is password) entries ->
      add_password password fs = Return (msg_criteria, fs)).
Proof.
  intros Hload Hwf Hinvalid. split; intros H.
  - by apply (add_password_used fs entries).
  - by apply (add_password_invalid fs entries).
Qed.

(** X10: what [add_password] stores has one record more than the history
    it loaded while that held fewer than five, and as many as the history
    from then on; the new record is the last one.  A history of more than
    five records is therefore never brought back to five. *)
Theorem add_password_stored_length (fs : files) (entries : list json)
    (password : pystr) :
  data_loader fs PASSWORDS_FILE = JList entries ->
  Forall (has_field (lit "password")) entries ->
  ~ Exists (password_is password) entries ->
  password_validator password = true ->
  exists stored,
    add_password password fs
    = Return (msg_added, data_saver PASSWORDS_FILE (JList stored) fs)
    /\ length stored
       = (if (length entries <? 5)%nat then S (length entries)
          else length entries)
    /\ last stored = Some (password_record password).
Proof.
  intros Hload Hwf Hno Hvalid.
  exists (maintain_last_5 (entries ++ [password_record password])).
  split; [by apply add_password_new|].
  destruct (length entries <? 5)%nat eqn:E.
  - apply Nat.ltb_lt in E.
    rewrite maintain_last_5_room by (rewrite length_app; simpl; lia).
    rewrite length_app, last_snoc. simpl. split; [lia | done].
  - apply Nat.ltb_ge in E.
    rewrite maintain_last_5_full by (rewrite length_app; simpl; lia).
    destruct entries as [|e entries]; [simpl in E; lia|].
    cbn [app tail]. rewrite length_app, last_snoc. simpl. split; [lia | done].
Qed.

Lemma stored_passwords_app a b :
  stored_passwords (a ++ b) = stored_passwords a ++ stored_passwords b.
Proof. apply List.map_app. Qed.

Lemma password_not_stored entries password :
  ~ Exists (password_is password) entries ->
  Some (JStr password) ∉ stored_passwords entries.
Proof.
  intros Hno Hin. apply Hno. apply Exists_exists.
  apply list_elem_of_In, in_map_iff in Hin as (e & He & Hin).
  exists e. split; [by apply list_elem_of_In | done].
Qed.

(** X11: [add_password] keeps the stored passwords pairwise distinct: if
    no two records of the history hold the same password field, no two
    records of what it saves do. *)
Theorem add_password_keeps_distinct (fs fs' : files) (entries : list json)
    (password message : pystr) :
  data_loader fs PASSWORDS_FILE = JList entries ->
  Forall (has_field (lit "password")) entries ->
  NoDup (stored_passwords entries) ->
  add_password password fs = Return (message, fs') ->
  fs' = fs
  \/ exists stored,
       fs' = data_saver PASSWORDS_FILE (JList stored) fs
       /\ NoDup (stored_passwords stored).
Proof.
  intros Hload Hwf Hnodup Hrun.
  destruct (scan_passwords_cases entries password Hwf)
    as [[Hex _] | [Hno _]].
  - rewrite (add_password_used fs entries password Hload Hwf Hex) in Hrun.
    left. by injection Hrun.
  - destruct (password_validator password) eqn:Hvalid.
    + rewrite (add_password_new fs entries password Hload Hwf Hno Hvalid)
        in Hrun.
      right. eexists. split; [by injection Hrun|].
      assert (NoDup (stored_passwords
                       (entries ++ [password_record password]))) as Hall.
      { rewrite stored_passwords_app. apply NoDup_app.
        split; [done|]. split; [|apply NoDup_singleton].
        intros x Hx Hx'. apply list_elem_of_singleton in Hx'. subst x.
        by apply (password_not_stored entries password Hno). }
      unfold maintain_last_5.
      destruct (5 <? length (entries ++ [password_record password]))%nat;
        [|done].
      destruct (entries ++ [password_record password]); [done|].
      cbn [tail]. by apply NoDup_cons in Hall as [_ H].
    + rewrite (add_password_invalid fs entries password Hload Hwf Hno
                 Hvalid) in Hrun.
      left. by injection Hrun.
Qed.

(** X12: when the passwords file holds JSON that is not a list,
    [add_password] saves nothing: it raises [TypeError] or
    [AttributeError], or, for an empty object or string and a password
    the validator rejects, returns the "criteria" message. *)
Theorem add_password_not_a_list (fs : files) (data : json)
    (password : pystr) :
  data_loader fs PASSWORDS_FILE = data ->
  (forall l, data <> JList l) ->
  match add_password password fs with
  | Return (message, fs') =>
      message = msg_criteria /\ fs' = fs
      /\ password_validator password = false
  | Raise e => e = TypeError \/ e = AttributeError
  end.
Proof.
  intros Hload Hnot. unfold add_password, check_repeated_password.
  rewrite Hload.
  destruct data as [| b | n | s | l | d];
    try (cbn [py_iter bind]; by left).
  - destruct s as [|c s]; [|cbn; by left].
    cbn [py_iter List.map bind scan_passwords negb].
    destruct (password_validator password); cbn; [by right | done].
  - by destruct (Hnot l).
  - destruct d as [|kv d]; [|cbn; by left].
    cbn [py_iter List.map bind scan_passwords negb].
    destruct (password_validator password); cbn; [by right | done].
Qed.

End HistoryMore.

(** ** The two collections *)

Section Collections.
Context {codec : JsonCodec}.

Lemma add_password_inv password fs message fs' :
  add_password password fs = Return (message, fs') ->
  fs' = fs \/ exists stored, fs' = data_saver PASSWORDS_FILE (JList stored) fs.
Proof.
  unfold add_password.
  destruct (check_repeated_password fs password) as [[unique m]|e];
    cbn [bind]; [|discriminate].
  destruct unique; cbn [negb].
  - destruct (password_validator password); cbn [negb].
    + destruct (py_append _ _) as [l|e]; cbn [bind]; [|discriminate].
      intros H. injection H as _ <-. right. by eexists.
    + intros H. injection H as _ <-. by left.
  - intros H. injection H as _ <-. by left.
Qed.

Lemma store_link_inv site username password fs message fs' :
  store_link site username password fs = Return (message, fs') ->
  fs' = fs \/ exists stored, fs' = data_saver LINKS_FILE (JList stored) fs.
Proof.
  unfold store_link.
  destruct (py_iter _) as [entries|e]; cbn [bind]; [|discriminate].
  destruct (scan_links _ _ _) as [taken|e]; cbn [bind]; [|discriminate].
  destruct taken.
  - intros H. injection H as _ <-. by left.
  - destruct (py_append _ _) as [l|e]; cbn [bind]; [|discriminate].
    intros H. injection H as _ <-. right. by eexists.
Qed.

Lemma files_differ : PASSWORDS_FILE <> LINKS_FILE.
Proof. discriminate. Qed.

(** X13: the two collections do not disturb each other: whatever
    [add_password] does, [get_linked_passwords] returns what it returned
    before, and whatever [store_link] does, the history that
    [add_password] and [check_repeated_password] load is the same. *)
Theorem collections_are_separate :
  (forall password fs message fs',
      add_password password fs = Return (message, fs') ->
      get_linked_passwords fs' = get_linked_passwords fs)
  /\ (forall site username password fs message fs',
         store_link site username password fs = Return (message, fs') ->
         data_loader fs' PASSWORDS_FILE = data_loader fs PASSWORDS_FILE).
Proof.
  split.
  - intros password fs message fs' [-> | [stored ->]]%add_password_inv;
      [done|].
    unfold get_linked_passwords. apply data_loader_other_file.
    apply files_differ.
  - intros site username password fs message fs'
      [-> | [stored ->]]%store_link_inv; [done|].
    apply data_loader_other_file. intros H. by apply files_differ.
Qed.

Lemma scan_links_cases entries site username :
  Forall is_link_record entries ->
  (Exists (link_is site username) entries
   /\ scan_links entries site username = Return true)
  \/ (~ Exists (link_is site username) entries
      /\ scan_links entries site username = Return false).
Proof.
  intros Hwf. induction Hwf as [|entry entries [[s Hs] [u Hu]] Hall IH].
  - right. split; [by intros H; inversion H | done].
  - destruct (py_eq_str s site && py_eq_str u username) eqn:E.
    + apply andb_true_iff in E as [Es Eu].
      apply py_eq_str_spec in Es, Eu. subst s u.
      assert (Exists (link_is site username) (entry :: entries)) as Hex
        by (left; by split).
      left. split; [done|]. apply scan_links_taken; [|done].
      constructor; [|done]. split; [by eexists | by eexists].
    + destruct IH as [[Hex Hscan] | [Hno Hscan]].
      * left. split; [by right|]. apply scan_links_taken; [|by right].
        constructor; [|done]. split; [by eexists | by eexists].
      * right. assert (~ Exists (link_is site username) (entry :: entries))
          as Hno'.
        { intros Hex. inversion Hex as [? ? [Hs' Hu'] | ? ? Hlater]; subst;
            [|done].
          rewrite Hs in Hs'. rewrite Hu in Hu'.
          injection Hs' as ->. injection Hu' as ->.
          simpl in E. by rewrite !str_eqb_refl in E. }
        split; [done|]. apply scan_links_free; [|done].
        constructor; [|done]. split; [by eexists | by eexists].
Qed.

Lemma store_link_taken fs entries site username password :
  data_loader fs LINKS_FILE = JList entries ->
  Forall is_link_record entries ->
  Exists (link_is site username) entries ->
  store_link site username password fs = Return (msg_link_exists, fs).
Proof.
  intros Hload Hwf Hex. unfold store_link. rewrite Hload.
  cbn [py_iter bind]. by rewrite (scan_links_taken _ _ _ Hwf Hex).
Qed.

Lemma store_link_free fs entries site username password :
  data_loader fs LINKS_FILE = JList entries ->
  Forall is_link_record entries ->
  ~ Exists (link_is site username) entries ->
  store_link site username password fs
  = Return (msg_link_saved,
            data_saver LINKS_FILE
              (JList (entries ++ [link_record site username password])) fs).
Proof.
  intros Hload Hwf Hno. unfold store_link. rewrite Hload.
  cbn [py_iter bind]. by rewrite (scan_links_free _ _ _ Hwf Hno).
Qed.

Lemma link_record_fields site username password :
  field (lit "site") (link_record site username password) = Some (JStr site)
  /\ field (lit "username") (link_record site username password)
     = Some (JStr username).
Proof. split; reflexivity. Qed.

Lemma link_not_paired entries site username :
  ~ Exists (link_is site username) entries ->
  (Some (JStr site), Some (JStr username)) ∉ link_pairs entries.
Proof.
  intros Hno Hin. apply Hno. apply Exists_exists.
  apply list_elem_of_In, in_map_iff in Hin as (e & He & Hin).
  exists e. split; [by apply list_elem_of_In|].
  injection He as Hs Hu. by split.
Qed.

(** X14: [store_link] keeps the (site, username) pairs of the collection
    pairwise distinct: if no two records of the links it loaded share
    their pair, no two records of what it saves do. *)
Theorem store_link_keeps_pairs_unique (fs fs' : files)
    (entries : list json) (site username password message : pystr) :
  data_loader fs LINKS_FILE = JList entries ->
  Forall is_link_record entries ->
  NoDup (link_pairs entries) ->
  store_link site username password fs = Return (message, fs') ->
  fs' = fs
  \/ exists stored,
       fs' = data_saver LINKS_FILE (JList stored) fs
       /\ NoDup (link_pairs stored).
Proof.
  intros Hload Hwf Hnodup Hrun.
  destruct (scan_links_cases entries site username Hwf)
    as [[Hex _] | [Hno _]].
  - rewrite (store_link_taken fs entries site username password Hload Hwf
               Hex) in Hrun.
    left. by injection Hrun.
  - rewrite (store_link_free fs entries site username password Hload Hwf
               Hno) in Hrun.
    right. eexists.
    split; [by injection Hrun|].
    unfold link_pairs. rewrite List.map_app. apply NoDup_app.
    split; [done|]. split; [|apply NoDup_singleton].
    intros x Hx Hx'. apply list_elem_of_singleton in Hx'. subst x.
    by apply (link_not_paired entries site username Hno).
Qed.

End Collections.

(** ** Runs of several calls *)

Section Runs.
Context {codec : JsonCodec}.

Lemma load_saved_links fs (links : list json) :
  lawful codec ->
  json_valid (JList links) = true ->
  data_loader (data_saver LINKS_FILE (JList links) fs) LINKS_FILE
  = JList links.
Proof. intros Hlaw Hvalid. apply data_loader_after_saver. by apply Hlaw. Qed.

Lemma json_valid_snoc (l : list json) (x : json) :
  json_valid (JList l) = true -> json_valid x = true ->
  json_valid (JList (l ++ [x])) = true.
Proof.
  rewrite !json_valid_list. intros Hl Hx. apply Forall_app.
  split; [done | by constructor].
Qed.

(** X15: after [store_link] stored a link, [get_linked_passwords] returns
    the links held before followed by the new record, and a second
    [store_link] for the same site and user name, whatever its password,
    is refused and leaves the files as they are. *)
Theorem store_link_then_get (fs : files) (entries : list json)
    (site username password password' : pystr) :
  lawful codec ->
  data_loader fs LINKS_FILE = JList entries ->
  Forall is_link_record entries ->
  json_valid (JList entries) = true ->
  str_valid site = true -> str_valid username = true ->
  str_valid password = true ->
  ~ Exists (link_is site username) entries ->
  exists fs',
    store_link site username password fs = Return (msg_link_saved, fs')
    /\ get_linked_passwords fs'
       = JList (entries ++ [link_record site username password])
    /\ store_link site username password' fs'
       = Return (msg_link_exists, fs').
Proof.
  intros Hlaw Hload Hwf Hvalid Hs Hu Hp Hno.
  eexists. split; [by apply (store_link_free fs entries)|].
  assert (data_loader
            (data_saver LINKS_FILE
               (JList (entries ++ [link_record site username password])) fs)
            LINKS_FILE
          = JList (entries ++ [link_record site username password]))
    as Hload'.
  { apply load_saved_links; [done|].
    apply json_valid_snoc; [done | by apply link_record_valid]. }
  split; [exact Hload'|].
  apply (store_link_taken _
           (entries ++ [link_record site username password]));
    [exact Hload' | |].
  - apply Forall_app. split; [done|]. constructor; [|done].
    split; [by exists (JStr site) | by exists (JStr username)].
  - apply Exists_app. right. left. split; reflexivity.
Qed.

(** X16: distinct valid passwords added one by one to an empty history,
    however many, are all accepted and leave the records of the last
    five of them, oldest first. *)
Theorem add_passwords_keep_last_5 (ps : list pystr) (fs : files) :
  lawful codec ->
  data_loader fs PASSWORDS_FILE = JList [] ->
  NoDup ps ->
  Forall (fun p => password_validator p = true) ps ->
  exists fs',
    add_passwords ps fs = Return (replicate (length ps) msg_added, fs')
    /\ data_loader fs' PASSWORDS_FILE
       = JList (List.map password_record (drop (length ps - 5) ps)).
Proof.
  intros Hlaw Hload Hnodup Hvalid.
  apply (add_passwords_last_5 ps [] fs Hlaw Hload); [simpl; lia | done | done].
Qed.

(** X17: a password saved with the page's button is refused by
    [add_password] afterwards as recently used: both paths share the
    file, and the record the page writes has the password field the
    check reads. *)
Theorem page_save_then_add_password (fs : files) (entries : list json)
    (password : pystr) (result : analysis) :
  lawful codec ->
  Forall (has_field (lit "password")) entries ->
  json_valid (JList entries) = true ->
  str_valid password = true ->
  ~ Exists (password_is password) entries ->
  exists history' fs',
    save_password_button 5 true password result (JList entries) fs
    = Return (history', fs')
    /\ add_password password fs' = Return (msg_recent, fs').
Proof.
  intros Hlaw Hwf Hvalid Hp Hno.
  assert (exists existing,
             collect_passwords entries = Return existing
             /\ existsb (fun v => py_eq_str v password) existing = false)
    as (existing & Hcollect & Hfresh).
  { clear Hvalid. induction Hwf as [|e entries [v Hv] Hall IH].
    - by exists [].
    - destruct IH as (existing & Hcollect & Hfresh).
      { intros Hex. apply Hno. by right. }
      exists (v :: existing). cbn [collect_passwords].
      rewrite (py_getitem_field _ _ _ Hv), Hcollect. cbn [bind existsb].
      split; [done|]. rewrite Hfresh, orb_false_r.
      apply py_eq_str_not. intros ->. apply Hno. by left. }
  unfold save_password_button. cbn [py_iter bind].
  rewrite Hcollect. cbn [bind]. rewrite Hfresh.
  change (5 =? 5)%nat with true. cbn [py_append bind].
  eexists _, _. split; [reflexivity|].
  set (entry := JDict [(lit "password", JStr password);
                       (lit "rank", JInt (Z.of_nat (score result)))]).
  apply (add_password_used _ (entries ++ [entry])).
  - unfold save_passwords.
    change password_file with PASSWORDS_FILE.
    apply (data_loader_after_saver fs PASSWORDS_FILE), Hlaw.
    apply json_valid_snoc; [done|]. unfold entry.
    cbn [json_valid forallb fst snd List.map]. rewrite Hp. reflexivity.
  - apply Forall_app. split; [done|]. constructor; [|done].
    by exists (JStr password).
  - apply Exists_app. right. left. reflexivity.
Qed.

End Runs.

(** ** Links with a record that lacks a field *)

Section PartialRecords.
Context {codec : JsonCodec}.

Lemma scan_links_skip pre rest site username :
  Forall is_link_record pre ->
  ~ Exists (link_is site username) pre ->
  scan_links (pre ++ rest) site username = scan_links rest site username.
Proof.
  induction 1 as [|entry pre [[s Hs] [u Hu]] Hall IH]; intros Hno; [done|].
  cbn [app scan_links]. rewrite (py_getitem_field _ _ _ Hs). cbn [bind].
  assert (scan_links (pre ++ rest) site username
          = scan_links rest site username) as Hrest.
  { apply IH. intros Hex. apply Hno. by right. }
  destruct (py_eq_str s site) eqn:Es; [|by cbn [bind]].
  rewrite (py_getitem_field _ _ _ Hu). cbn [bind].
  destruct (py_eq_str u username) eqn:Eu; [|done].
  exfalso. apply Hno. left.
  apply py_eq_str_spec in Es, Eu. subst s u. by split.
Qed.

(** X18: a link record that has a site but no user name is passed over
    by [store_link] when its site differs from the one asked for, the
    [and] not looking further, and makes it raise [KeyError] when the
    site is the same. *)
Theorem store_link_record_without_username (fs : files)
    (pre post : list json) (d : list (pystr * json)) (s : json)
    (site username password : pystr) :
  data_loader fs LINKS_FILE = JList (pre ++ JDict d :: post) ->
  Forall is_link_record pre ->
  ~ Exists (link_is site username) pre ->
  assoc (lit "site") d = Some s ->
  assoc (lit "username") d = None ->
  (s = JStr site ->
   store_link site username password fs = Raise KeyError)
  /\ (s <> JStr site ->
      Forall is_link_record post ->
      ~ Exists (link_is site username) post ->
      store_link site username password fs
      = Return (msg_link_saved,
                data_saver LINKS_FILE
                  (JList ((pre ++ JDict d :: post)
                          ++ [link_record site username password])) fs)).
Proof.
  intros Hload Hwf Hno Hs Hu. unfold store_link. rewrite Hload.
  cbn [py_iter bind]. rewrite (scan_links_skip _ _ _ _ Hwf Hno).
  cbn [scan_links py_getitem]. rewrite Hs. cbn [bind]. split.
  - intros ->. cbn [py_eq_str]. rewrite str_eqb_refl.
    cbn [py_getitem]. by rewrite Hu.
  - intros Hother Hwf' Hno'. rewrite (py_eq_str_not _ _ Hother).
    cbn [bind]. by rewrite (scan_links_free _ _ _ Hwf' Hno').
Qed.

End PartialRecords.

(** ** main.py *)

Section Page.
Context {codec : JsonCodec}.


Lemma collect_passwords_spec entries password :
  Forall (has_field (lit "password")) entries ->
  exists existing,
    collect_passwords entries = Return existing
    /\ (existsb (fun v => py_eq_str v password) existing = true
        <-> Exists (password_is password) entries).
Proof.
  induction 1 as [|e entries [v Hv] Hall IH].
  - exists []. split; [done|]. split; [done | by intros H; inversion H].
  - destruct IH as (existing & Hcollect & Hiff).
    exists (v :: existing). cbn [collect_passwords].
    rewrite (py_getitem_field _ _ _ Hv), Hcollect. cbn [bind existsb].
    split; [done|]. rewrite orb_true_iff, Hiff, Exists_cons.
    unfold password_is at 2. rewrite Hv, py_eq_str_spec.
    split; (intros [H | H]; [left | by right]); congruence.
Qed.

(** X20: the Save Password handler changes the files only when all five
    display checks passed, the button was pressed and no record of the
    history holds the password; it then saves the history with one
    record added, holding the password and, under [rank], the numeric
    score.  Otherwise history and files are returned as they were. *)
Theorem save_password_button_spec (n : nat) (clicked : bool)
    (password : pystr) (result : analysis) (entries : list json)
    (fs : files) :
  Forall (has_field (lit "password")) entries ->
  (n = 5%nat -> clicked = true ->
   ~ Exists (password_is password) entries ->
   let history' :=
     JList (entries
            ++ [JDict [(lit "password", JStr password);
                       (lit "rank", JInt (Z.of_nat (score result)))]]) in
   save_password_button n clicked password result (JList entries) fs
   = Return (history', save_passwords history' fs))
  /\ (n <> 5%nat \/ clicked = false
      \/ Exists (password_is password) entries ->
      save_password_button n clicked password result (JList entries) fs
      = Return (JList entries, fs)).
Proof.
  intros Hwf.
  destruct (collect_passwords_spec entries password Hwf)
    as (existing & Hcollect & Hiff).
  unfold save_password_button. cbn [py_iter bind].
  rewrite Hcollect. cbn [bind]. split.
  - intros -> -> Hno. change (5 =? 5)%nat with true. cbv iota.
    assert (existsb (fun v => py_eq_str v password) existing = false) as ->.
    { apply not_true_iff_false. intros H. by apply Hiff in H. }
    reflexivity.
  - intros Hcases. destruct (n =? 5)%nat eqn:En; [|done].
    destruct (existsb _ existing) eqn:E; [done|].
    destruct clicked; [|done].
    apply Nat.eqb_eq in En.
    destruct Hcases as [H | [H | H]]; [done | done |].
    apply Hiff in H. discriminate H.
Qed.

End Page.

(** ** main.py: the history tab *)

Section HistoryTab.
Context {codec : JsonCodec}.
Implicit Types (inputs : nat -> pystr * bool) (existing : list json).
Implicit Types bound : option (list json).

Lemma row_ok_getitems entry :
  row_ok entry ->
  exists r p, py_getitem entry (lit "rank") = Return r
              /\ py_getitem entry (lit "password") = Return p.
Proof.
  intros [[r Hr] [p Hp]]. exists r, p.
  split; by apply py_getitem_field.
Qed.

Lemma history_row_inert bound i entry h fs :
  row_ok entry -> history_row bound i entry [] false h fs = Continue.
Proof.
  intros (r & p & Hr & Hp)%row_ok_getitems. unfold history_row.
  by rewrite Hr, Hp.
Qed.

(** Rows with an empty edit field and no Delete pressed are passed. *)
Lemma history_rows_skip bound inputs pre rest h fs :
  forall i,
    Forall row_ok pre ->
    (forall j, (i <= j < i + length pre)%nat -> inputs j = ([], false)) ->
    history_rows bound inputs i (pre ++ rest) h fs
    = history_rows bound inputs (i + length pre) rest h fs.
Proof.
  induction pre as [|e pre IH]; intros i Hwf Hinert.
  - cbn [app length]. by rewrite Nat.add_0_r.
  - apply Forall_cons in Hwf as [He Hpre]. cbn [app history_rows length].
    rewrite (Hinert i) by (simpl; lia). cbn [fst snd].
    rewrite (history_row_inert _ _ _ _ _ He).
    rewrite IH; [f_equal; lia | done |].
    intros j Hj. apply Hinert. simpl. lia.
Qed.

Lemma history_tab_at bound inputs l i e fs :
  Forall row_ok l ->
  (forall j, (j < i)%nat -> inputs j = ([], false)) ->
  l !! i = Some e ->
  history_tab bound inputs (JList l) fs
  = match history_row bound i e (fst (inputs i)) (snd (inputs i))
            (JList l) fs with
    | Continue =>
        history_rows bound inputs (S i) (drop (S i) l) (JList l) fs
    | r => r
    end.
Proof.
  intros Hwf Hinert Hi.
  pose proof (take_drop_middle l i e Hi) as Hsplit.
  assert (length (take i l) = i) as Hlen
    by (apply length_take_le; apply lookup_lt_Some in Hi; lia).
  unfold history_tab. cbn [py_truthy py_iter].
  assert (bool_decide (l = []) = false) as ->
    by (apply bool_decide_eq_false; intros ->; discriminate Hi).
  cbn [negb]. rewrite <- Hsplit at 1.
  rewrite history_rows_skip.
  - rewrite Hlen. reflexivity.
  - rewrite <- Hsplit in Hwf. by apply Forall_app in Hwf as [H _].
  - intros j Hj. apply Hinert. lia.
Qed.

(** X21: pressing Delete on row [i], the rows before it left alone,
    saves the history without its [i]-th record and with the other
    records in their order; nothing else is looked at. *)
Theorem history_tab_delete bound inputs (l : list json) (i : nat)
    (e : json) (fs : files) :
  Forall row_ok l ->
  (forall j, (j < i)%nat -> inputs j = ([], false)) ->
  l !! i = Some e ->
  inputs i = ([], true) ->
  history_tab bound inputs (JList l) fs
  = Rerun (JList (delete i l), save_passwords (JList (delete i l)) fs).
Proof.
  intros Hwf Hinert Hi Hrow.
  rewrite (history_tab_at bound inputs l i e fs Hwf Hinert Hi).
  rewrite Hrow. cbn [fst snd].
  assert (row_ok e) as (r & p & Hr & Hp)%row_ok_getitems
    by (apply (proj1 (Forall_forall _ _) Hwf), list_elem_of_lookup; eauto).
  unfold history_row. rewrite Hr, Hp. cbn [pop_at].
  apply lookup_lt_Some in Hi.
  by replace (i <? length l)%nat with true
    by (symmetry; by apply Nat.ltb_lt).
Qed.

Lemma assoc_dict_set_same k v d : assoc k (dict_set k v d) = Some v.
Proof.
  induction d as [|[k' v'] d IH]; cbn [dict_set assoc].
  - by rewrite str_eqb_refl.
  - destruct (str_eqb k' k) eqn:E; cbn [assoc]; by rewrite E.
Qed.

Lemma assoc_dict_set_other k k' v d :
  k' <> k -> assoc k' (dict_set k v d) = assoc k' d.
Proof.
  intros Hne. induction d as [|[k0 v0] d IH]; cbn [dict_set assoc].
  - destruct (str_eqb k k') eqn:E; [|done].
    apply str_eqb_eq in E. congruence.
  - destruct (str_eqb k0 k) eqn:E; cbn [assoc].
    + apply str_eqb_eq in E. subst k0.
      destruct (str_eqb k k') eqn:E'; [|done].
      apply str_eqb_eq in E'. congruence.
    + by rewrite IH.
Qed.

Lemma history_tab_edit_run existing inputs (l : list json) (i : nat)
    (d : list (pystr * json)) (new_password : pystr) (fs : files) :
  Forall row_ok l ->
  (forall j, (j < i)%nat -> inputs j = ([], false)) ->
  l !! i = Some (JDict d) ->
  fst (inputs i) = new_password ->
  new_password <> [] ->
  existsb (fun v => py_eq_str v new_password) existing = false ->
  let edited :=
    JDict (dict_set (lit "password") (JStr new_password) d) in
  history_tab (Some existing) inputs (JList l) fs
  = Rerun (JList (<[i := edited]> l),
           save_passwords (JList (<[i := edited]> l)) fs).
Proof.
  intros Hwf Hinert Hi Hnew Hnonempty Hfresh edited.
  rewrite (history_tab_at (Some existing) inputs l i (JDict d) fs
             Hwf Hinert Hi).
  rewrite Hnew.
  assert (row_ok (JDict d)) as (r & p & Hr & Hp)%row_ok_getitems
    by (apply (proj1 (Forall_forall _ _) Hwf), list_elem_of_lookup; eauto).
  unfold history_row. rewrite Hr, Hp.
  destruct new_password as [|c new_password]; [done|].
  rewrite Hfresh. cbn [set_password_at]. by rewrite Hi.
Qed.

(** X22: typing a new password into the edit field of row [i], the rows
    before it left alone and the password not among the existing ones,
    saves the history with the password field of record [i] replaced and
    everything else as it was: the other records, and in record [i] every
    other field, so its rank stays the one of the old password. *)
Theorem history_tab_edit existing inputs (l : list json) (i : nat)
    (d : list (pystr * json)) (new_password : pystr) (fs : files) :
  Forall row_ok l ->
  (forall j, (j < i)%nat -> inputs j = ([], false)) ->
  l !! i = Some (JDict d) ->
  fst (inputs i) = new_password ->
  new_password <> [] ->
  existsb (fun v => py_eq_str v new_password) existing = false ->
  let edited :=
    JDict (dict_set (lit "password") (JStr new_password) d) in
  history_tab (Some existing) inputs (JList l) fs
  = Rerun (JList (<[i := edited]> l),
           save_passwords (JList (<[i := edited]> l)) fs)
  /\ (forall j, j <> i -> <[i := edited]> l !! j = l !! j)
  /\ field (lit "password") edited = Some (JStr new_password)
  /\ (forall key, key <> lit "password" ->
                  field key edited = field key (JDict d)).
Proof.
  intros Hwf Hinert Hi Hnew Hnonempty Hfresh edited. split.
  - by apply history_tab_edit_run.
  - split; [|split].
    + intros j Hj. by apply list_lookup_insert_ne.
    + apply assoc_dict_set_same.
    + intros key Hkey. by apply assoc_dict_set_other.
Qed.

(** X23: an edit whose new password is already among the existing ones
    changes nothing: with no other field filled and no button pressed the
    run goes through the whole tab without saving. *)
Theorem history_tab_edit_refused inputs (l : list json) (i : nat)
    (e : json) (new_password : pystr) existing (fs : files) :
  Forall row_ok l ->
  (forall j, j <> i -> inputs j = ([], false)) ->
  l !! i = Some e ->
  inputs i = (new_password, false) ->
  existsb (fun v => py_eq_str v new_password) existing = true ->
  history_tab (Some existing) inputs (JList l) fs = Continue.
Proof.
  intros Hwf Hinert Hi Hrow Hdup.
  assert (row_ok e) as (r & p & Hr & Hp)%row_ok_getitems
    by (apply (proj1 (Forall_forall _ _) Hwf), list_elem_of_lookup; eauto).
  rewrite (history_tab_at (Some existing) inputs l i e fs Hwf); [|
    intros j Hj; apply Hinert; lia | done].
  rewrite Hrow. cbn [fst snd]. unfold history_row. rewrite Hr, Hp.
  assert (history_rows (Some existing) inputs (S i) (drop (S i) l)
            (JList l) fs = Continue) as Hrest.
  { pose proof (history_rows_skip (Some existing) inputs (drop (S i) l) []
                  (JList l) fs (S i)) as Hskip.
    rewrite app_nil_r in Hskip. rewrite Hskip; [done | |].
    - pose proof (take_drop (S i) l) as Hsplit.
      rewrite <- Hsplit in Hwf. by apply Forall_app in Hwf as [_ H].
    - intros j Hj. apply Hinert. lia. }
  destruct new_password as [|c new_password]; [exact Hrest|].
  by rewrite Hdup.
Qed.

Lemma saved_shape (r : page_error + json) (l : list json) fs h' fs' :
  (forall h, r = inr h ->
             exists l', h = JList l' /\ (length l' <= length l)%nat) ->
  saved r fs = Rerun (h', fs') ->
  exists l', h' = JList l' /\ (length l' <= length l)%nat
             /\ fs' = save_passwords (JList l') fs.
Proof.
  intros Hshape. destruct r as [e|h]; cbn [saved]; [discriminate|].
  intros H. injection H as <- <-.
  destruct (Hshape h eq_refl) as (l' & -> & Hlen). eauto.
Qed.

Lemma pop_at_shape (l : list json) i h :
  pop_at (JList l) i = inr h ->
  exists l', h = JList l' /\ (length l' <= length l)%nat.
Proof.
  cbn [pop_at]. destruct (i <? length l)%nat eqn:E; [|discriminate].
  apply Nat.ltb_lt in E.
  intros H. injection H as <-. eexists. split; [done|].
  rewrite length_delete by (by apply lookup_lt_is_Some). lia.
Qed.

Lemma set_password_at_shape (l : list json) i new_password h :
  set_password_at (JList l) i new_password = inr h ->
  exists l', h = JList l' /\ (length l' <= length l)%nat.
Proof.
  cbn [set_password_at]. destruct (l !! i) as [[| | | | |d]|];
    try discriminate.
  intros H. injection H as <-. eexists. split; [done|].
  by rewrite length_insert.
Qed.

(** X24: whatever is typed and pressed in the history tab, a run that
    saves writes a list that is no longer than the history it showed:
    the tab never adds a record. *)
Theorem history_tab_never_grows bound inputs (l : list json) (fs : files)
    (h' : json) (fs' : files) :
  history_tab bound inputs (JList l) fs = Rerun (h', fs') ->
  exists l', h' = JList l' /\ (length l' <= length l)%nat
             /\ fs' = save_passwords (JList l') fs.
Proof.
  unfold history_tab. cbn [py_truthy py_iter].
  destruct (negb (bool_decide (l = []))); [|discriminate].
  generalize 0%nat. generalize l at 1 as entries.
  induction entries as [|e entries IH]; intros i; [discriminate|].
  cbn [history_rows].
  destruct (history_row bound i e (fst (inputs i)) (snd (inputs i))
              (JList l) fs) as [|[h fs0]|err] eqn:Hrow;
    [apply IH | | discriminate].
  intros H. injection H as <- <-. revert Hrow. unfold history_row.
  destruct (py_getitem e (lit "rank")); [|discriminate].
  destruct (py_getitem e (lit "password")); [|discriminate].
  assert ((if snd (inputs i) then saved (pop_at (JList l) i) fs else Continue)
          = Rerun (h, fs0) ->
          exists l', h = JList l' /\ (length l' <= length l)%nat
                     /\ fs0 = save_passwords (JList l') fs) as Hdelete.
  { destruct (snd (inputs i)); [|discriminate].
    apply saved_shape. intros h0. apply pop_at_shape. }
  destruct (fst (inputs i)) as [|c new_password]; [exact Hdelete|].
  destruct bound as [existing|]; [|discriminate].
  destruct (existsb _ existing); [exact Hdelete|].
  apply saved_shape. intros h0. apply set_password_at_shape.
Qed.

Lemma row_ok_password (l : list json) :
  Forall row_ok l -> Forall (has_field (lit "password")) l.
Proof. intros H. eapply Forall_impl; [exact H|]. by intros e [_ He]. Qed.

(** X25: an edit in the history tab is carried out only while the
    checker field holds text: with the field empty the page stops with
    [NameError], [existing_passwords] never having been bound; with text
    in it, and the Save Password button not pressed, the new password is
    written into record [i]. *)
Theorem page_run_edit (inp : page_input) (fs : files) (l : list json)
    (i : nat) (d : list (pystr * json)) (new_password : pystr) :
  load_passwords fs = Return (JList l) ->
  Forall row_ok l ->
  (forall j, (j < i)%nat -> rows inp j = ([], false)) ->
  l !! i = Some (JDict d) ->
  fst (rows inp i) = new_password ->
  new_password <> [] ->
  ~ Exists (password_is new_password) l ->
  save_clicked inp = false ->
  (typed inp = [] -> page_run inp fs = Crash NameError)
  /\ (typed inp <> [] ->
      let edited :=
        JList (<[i := JDict (dict_set (lit "password") (JStr new_password)
                               d)]> l) in
      page_run inp fs = Rerun (edited, save_passwords edited fs)).
Proof.
  intros Hload Hwf Hinert Hi Hnew Hnonempty Hfresh Hsave.
  unfold page_run. rewrite Hload. split.
  - intros ->.
    rewrite (history_tab_at None (rows inp) l i (JDict d) fs Hwf Hinert Hi).
    assert (row_ok (JDict d)) as (r & p & Hr & Hp)%row_ok_getitems
      by (apply (proj1 (Forall_forall _ _) Hwf), list_elem_of_lookup; eauto).
    unfold history_row. rewrite Hr, Hp, Hnew.
    by destruct new_password.
  - intros Htyped. destruct (typed inp) as [|c password] eqn:E; [done|].
    cbn [py_iter bind].
    destruct (collect_passwords_spec l new_password (row_ok_password l Hwf))
      as (existing & -> & Hiff).
    rewrite Hsave, andb_false_r.
    apply (history_tab_edit_run existing (rows inp) l i d new_password fs);
      try done.
    apply not_true_iff_false. intros H. by apply Hiff in H.
Qed.

(** X26: a save from the checker tab ends the run: the history with the
    new record is written and nothing typed or pressed in the history
    tab during that run is carried out. *)
Theorem page_run_save (inp : page_input) (fs : files) (l : list json) :
  load_passwords fs = Return (JList l) ->
  Forall (has_field (lit "password")) l ->
  typed inp <> [] ->
  passed_checks inp = 5%nat ->
  save_clicked inp = true ->
  ~ Exists (password_is (typed inp)) l ->
  let history' :=
    JList (l ++ [JDict [(lit "password", JStr (typed inp));
                        (lit "rank",
                         JInt (Z.of_nat
                                 (score (password_evaluator (typed inp)))))]])
  in
  page_run inp fs = Rerun (history', save_passwords history' fs)
  /\ save_password_button (passed_checks inp) (save_clicked inp) (typed inp)
       (password_evaluator (typed inp)) (JList l) fs
     = Return (history', save_passwords history' fs).
Proof.
  intros Hload Hwf Htyped Hpassed Hsave Hfresh. cbv zeta.
  destruct (collect_passwords_spec l (typed inp) Hwf)
    as (existing & Hcollect & Hiff).
  assert (existsb (fun v => py_eq_str v (typed inp)) existing = false)
    as Hnot by (apply not_true_iff_false; intros H; by apply Hiff in H).
  split.
  - unfold page_run. rewrite Hload.
    destruct (typed inp) as [|c password] eqn:E; [done|].
    cbv beta iota zeta.
    cbn [py_iter bind]. rewrite Hcollect, Hpassed, Hsave, Hnot.
    reflexivity.
  - unfold save_password_button. cbn [py_iter bind].
    rewrite Hcollect. cbn [bind]. rewrite Hpassed, Hsave, Hnot.
    reflexivity.
Qed.

End HistoryTab.

(** ** Witnesses of the further properties *)

Lemma password_record_row_ok (p : pystr) : row_ok (password_record p).
Proof.
  split; [by exists (JStr (rank (password_evaluator p)))
         | by exists (JStr p)].
Qed.

Lemma check_repeated_password_spec_witness :
  let fs1 := @data_saver python_json PASSWORDS_FILE
               (JList [password_record (lit "Secure@123")]) ∅ in
  @check_repeated_password python_json fs1 (lit "Secure@123")
  = Return (false, msg_recent)
  /\ @check_repeated_password python_json fs1 (lit "secure@123")
     = Return (true, msg_unique).
Proof.
  cbv zeta.
  assert (@data_loader python_json
            (@data_saver python_json PASSWORDS_FILE
               (JList [password_record (lit "Secure@123")]) ∅)
            PASSWORDS_FILE
          = JList [password_record (lit "Secure@123")]) as Hload
    by (vm_compute; reflexivity).
  assert (Forall (has_field (lit "password"))
            [password_record (lit "Secure@123")]) as Hwf
    by (constructor; [by exists (JStr (lit "Secure@123")) | constructor]).
  split.
  - apply (proj1 (@check_repeated_password_spec python_json _ _
                    (lit "Secure@123") Hload Hwf)).
    left. reflexivity.
  - apply (proj2 (@check_repeated_password_spec python_json _ _
                    (lit "secure@123") Hload Hwf)).
    intros Hex. inversion Hex as [? ? Hhere | ? ? Hnil]; subst.
    + discriminate Hhere.
    + inversion Hnil.
Defined.

Lemma add_password_malformed_record_witness :
  let fs1 := @data_saver python_json PASSWORDS_FILE
               (JList [JDict [(lit "rank", JStr (lit "Weak"))];
                       JStr (lit "text")]) ∅ in
  @add_password python_json (lit "Secure@123") fs1 = Raise KeyError.
Proof.
  cbv zeta.
  apply (@add_password_malformed_record python_json _ []
           [JStr (lit "text")] (JDict [(lit "rank", JStr (lit "Weak"))])
           (lit "Secure@123")).
  - vm_compute. reflexivity.
  - constructor.
  - intros H. inversion H.
  - reflexivity.
Defined.

Lemma add_password_never_stores_invalid_witness :
  password_validator (lit "weak") = false
  /\ @add_password python_json (lit "weak") ∅ = Return (msg_criteria, ∅).
Proof.
  split; [reflexivity|].
  destruct (@add_password_never_stores_invalid python_json ∅ []
              (lit "weak")) as [_ Hfresh].
  - reflexivity.
  - constructor.
  - reflexivity.
  - apply Hfresh. intros H. inversion H.
Defined.

Lemma add_password_stored_length_witness :
  exists stored,
    @add_password python_json (lit "Secure@123") ∅
    = Return (msg_added,
              @data_saver python_json PASSWORDS_FILE (JList stored) ∅)
    /\ length stored = 1%nat
    /\ last stored = Some (password_record (lit "Secure@123")).
Proof.
  apply (@add_password_stored_length python_json ∅ [] (lit "Secure@123")).
  - reflexivity.
  - constructor.
  - intros H. inversion H.
  - reflexivity.
Defined.

Lemma add_password_keeps_distinct_witness :
  let fs' := @data_saver python_json PASSWORDS_FILE
               (JList [password_record (lit "Secure@123")]) ∅ in
  fs' = ∅
  \/ exists stored,
       fs' = @data_saver python_json PASSWORDS_FILE (JList stored) ∅
       /\ NoDup (stored_passwords stored).
Proof.
  cbv zeta.
  apply (@add_password_keeps_distinct python_json ∅ _ []
           (lit "Secure@123") msg_added).
  - reflexivity.
  - constructor.
  - constructor.
  - reflexivity.
Defined.

Lemma add_password_not_a_list_witness :
  let fs1 : files := <[PASSWORDS_FILE := lit "{}"]> ∅ in
  @data_loader python_json fs1 PASSWORDS_FILE = JDict []
  /\ match @add_password python_json (lit "weak") fs1 with
     | Return (message, fs') =>
         message = msg_criteria /\ fs' = fs1
         /\ password_validator (lit "weak") = false
     | Raise e => e = TypeError \/ e = AttributeError
     end.
Proof.
  cbv zeta. split; [reflexivity|].
  apply (@add_password_not_a_list python_json _ (JDict []) (lit "weak")).
  - reflexivity.
  - intros l H. discriminate H.
Defined.

Lemma collections_are_separate_witness :
  let fs' := @data_saver python_json PASSWORDS_FILE
               (JList [password_record (lit "Secure@123")]) ∅ in
  @get_linked_passwords python_json fs' = @get_linked_passwords python_json ∅.
Proof.
  cbv zeta.
  apply (proj1 (@collections_are_separate python_json)
           (lit "Secure@123") ∅ msg_added).
  reflexivity.
Defined.

Lemma store_link_keeps_pairs_unique_witness :
  let fs' := @data_saver python_json LINKS_FILE
               (JList [link_record (lit "example.com") (lit "user")
                         (lit "pw")]) ∅ in
  fs' = ∅
  \/ exists stored,
       fs' = @data_saver python_json LINKS_FILE (JList stored) ∅
       /\ NoDup (link_pairs stored).
Proof.
  cbv zeta.
  apply (@store_link_keeps_pairs_unique python_json ∅ _ []
           (lit "example.com") (lit "user") (lit "pw") msg_link_saved).
  - reflexivity.
  - constructor.
  - constructor.
  - reflexivity.
Defined.

Lemma store_link_then_get_witness :
  exists fs',
    @store_link python_json (lit "example.com") (lit "user") (lit "one") ∅
    = Return (msg_link_saved, fs')
    /\ @get_linked_passwords python_json fs'
       = JList ([] ++ [link_record (lit "example.com") (lit "user")
                         (lit "one")])
    /\ @store_link python_json (lit "example.com") (lit "user") (lit "two")
         fs'
       = Return (msg_link_exists, fs').
Proof.
  apply (@store_link_then_get python_json ∅ [] (lit "example.com")
           (lit "user") (lit "one") (lit "two") python_json_lawful);
    try reflexivity.
  - constructor.
  - intros H. inversion H.
Defined.

Lemma add_passwords_keep_last_5_witness :
  exists fs',
    @add_passwords python_json
      [lit "Alpha@111"; lit "Bravo@222"; lit "Delta@333"; lit "Gamma@444";
       lit "Omega@555"; lit "Sigma@666"; lit "Theta@777"] ∅
    = Return (replicate 7 msg_added, fs')
    /\ @data_loader python_json fs' PASSWORDS_FILE
       = JList (List.map password_record
                  [lit "Delta@333"; lit "Gamma@444"; lit "Omega@555";
                   lit "Sigma@666"; lit "Theta@777"]).
Proof.
  apply (@add_passwords_keep_last_5 python_json
           [lit "Alpha@111"; lit "Bravo@222"; lit "Delta@333";
            lit "Gamma@444"; lit "Omega@555"; lit "Sigma@666";
            lit "Theta@777"] ∅ python_json_lawful).
  - reflexivity.
  - refine (bool_decide_unpack _ _). vm_compute. exact I.
  - repeat constructor.
Defined.

Lemma page_save_then_add_password_witness :
  exists history' fs',
    @save_password_button python_json 5 true (lit "Abcdefg1#")
      (password_evaluator (lit "Abcdefg1#")) (JList []) ∅
    = Return (history', fs')
    /\ @add_password python_json (lit "Abcdefg1#") fs'
       = Return (msg_recent, fs').
Proof.
  apply (@page_save_then_add_password python_json ∅ [] (lit "Abcdefg1#")
           (password_evaluator (lit "Abcdefg1#")) python_json_lawful);
    try reflexivity.
  - constructor.
  - intros H. inversion H.
Defined.

Lemma store_link_record_without_username_witness :
  let partial := JDict [(lit "site", JStr (lit "example.com"))] in
  let fs1 := @data_saver python_json LINKS_FILE (JList [partial]) ∅ in
  @store_link python_json (lit "example.com") (lit "user") (lit "pw") fs1
  = Raise KeyError
  /\ @store_link python_json (lit "other.org") (lit "user") (lit "pw") fs1
     = Return (msg_link_saved,
               @data_saver python_json LINKS_FILE
                 (JList ([partial]
                         ++ [link_record (lit "other.org") (lit "user")
                               (lit "pw")])) fs1).
Proof.
  cbv zeta.
  assert (@data_loader python_json
            (@data_saver python_json LINKS_FILE
               (JList [JDict [(lit "site", JStr (lit "example.com"))]]) ∅)
            LINKS_FILE
          = JList ([] ++ JDict [(lit "site", JStr (lit "example.com"))]
                   :: [])) as Hload
    by (vm_compute; reflexivity).
  assert (~ Exists (link_is (lit "example.com") (lit "user")) []) as Hno1
    by (intros H; inversion H).
  assert (~ Exists (link_is (lit "other.org") (lit "user")) []) as Hno2
    by (intros H; inversion H).
  split.
  - apply (proj1 (@store_link_record_without_username python_json _ [] []
                    _ (JStr (lit "example.com")) (lit "example.com")
                    (lit "user") (lit "pw") Hload (Forall_nil_2 _) Hno1
                    eq_refl eq_refl)).
    reflexivity.
  - apply (proj2 (@store_link_record_without_username python_json _ [] []
                    _ (JStr (lit "example.com")) (lit "other.org")
                    (lit "user") (lit "pw") Hload (Forall_nil_2 _) Hno2
                    eq_refl eq_refl)).
    + intros H. discriminate H.
    + constructor.
    + exact Hno2.
Defined.

Lemma save_password_button_spec_witness :
  @save_password_button python_json 4 true (lit "Secure@123")
    (password_evaluator (lit "Secure@123")) (JList []) ∅
  = Return (JList [], ∅)
  /\ @save_password_button python_json 5 true (lit "Secure@123")
       (password_evaluator (lit "Secure@123")) (JList []) ∅
     = Return (JList [JDict [(lit "password", JStr (lit "Secure@123"));
                             (lit "rank", JInt 4)]],
               @save_passwords python_json
                 (JList [JDict [(lit "password", JStr (lit "Secure@123"));
                                (lit "rank", JInt 4)]]) ∅).
Proof.
  split.
  - apply (proj2 (@save_password_button_spec python_json 4 true
                    (lit "Secure@123")
                    (password_evaluator (lit "Secure@123")) [] ∅
                    (Forall_nil_2 _))).
    left. lia.
  - apply (proj1 (@save_password_button_spec python_json 5 true
                    (lit "Secure@123")
                    (password_evaluator (lit "Secure@123")) [] ∅
                    (Forall_nil_2 _)) eq_refl eq_refl).
    intros H. inversion H.
Defined.

Lemma history_tab_delete_witness :
  let l := [password_record (lit "Alpha@111");
            password_record (lit "Bravo@222")] in
  @history_tab python_json None (fun j => ([], (j =? 1)%nat)) (JList l) ∅
  = Rerun (JList [password_record (lit "Alpha@111")],
           @save_passwords python_json
             (JList [password_record (lit "Alpha@111")]) ∅).
Proof.
  cbv zeta.
  apply (@history_tab_delete python_json None (fun j => ([], (j =? 1)%nat))
           [password_record (lit "Alpha@111");
            password_record (lit "Bravo@222")] 1
           (password_record (lit "Bravo@222")) ∅).
  - repeat constructor; apply password_record_row_ok.
  - intros j Hj. assert (j = 0%nat) as -> by lia. reflexivity.
  - reflexivity.
  - reflexivity.
Defined.

Lemma history_tab_edit_witness :
  let l := [password_record (lit "Alpha@111")] in
  let inputs := fun j : nat => (lit "Bravo@222", false) in
  exists edited,
    @history_tab python_json (Some [JStr (lit "Alpha@111")]) inputs
      (JList l) ∅
    = Rerun (JList [edited], @save_passwords python_json (JList [edited]) ∅)
    /\ field (lit "password") edited = Some (JStr (lit "Bravo@222"))
    /\ field (lit "rank") edited
       = field (lit "rank") (password_record (lit "Alpha@111")).
Proof.
  cbv zeta.
  destruct (@history_tab_edit python_json [JStr (lit "Alpha@111")]
              (fun j : nat => (lit "Bravo@222", false))
              [password_record (lit "Alpha@111")] 0
              [ (lit "password", JStr (lit "Alpha@111"));
                (lit "score",
                 JInt (Z.of_nat
                         (score (password_evaluator (lit "Alpha@111")))));
                (lit "rank",
                 JStr (rank (password_evaluator (lit "Alpha@111"))));
                (lit "feedback",
                 JList (List.map JStr
                          (feedback (password_evaluator (lit "Alpha@111")))))]
              (lit "Bravo@222") ∅) as (Hrun & _ & Hpassword & Hothers).
  - repeat constructor; apply password_record_row_ok.
  - intros j Hj. lia.
  - reflexivity.
  - reflexivity.
  - discriminate.
  - reflexivity.
  - eexists. split; [exact Hrun|]. split; [exact Hpassword|].
    apply Hothers. discriminate.
Defined.

Lemma history_tab_edit_refused_witness :
  let l := [password_record (lit "Alpha@111");
            password_record (lit "Bravo@222")] in
  @history_tab python_json
    (Some [JStr (lit "Alpha@111"); JStr (lit "Bravo@222")])
    (fun j => if (j =? 0)%nat then (lit "Bravo@222", false) else ([], false))
    (JList l) ∅
  = Continue.
Proof.
  cbv zeta.
  apply (@history_tab_edit_refused python_json
           (fun j => if (j =? 0)%nat then (lit "Bravo@222", false)
                     else ([], false))
           [password_record (lit "Alpha@111");
            password_record (lit "Bravo@222")] 0
           (password_record (lit "Alpha@111")) (lit "Bravo@222")).
  - repeat constructor; apply password_record_row_ok.
  - intros j Hj. destruct j; [done | reflexivity].
  - reflexivity.
  - reflexivity.
  - reflexivity.
Defined.

Lemma history_tab_never_grows_witness :
  let l := [password_record (lit "Alpha@111");
            password_record (lit "Bravo@222")] in
  exists l',
    JList [password_record (lit "Bravo@222")] = JList l'
    /\ (length l' <= length l)%nat
    /\ @save_passwords python_json
         (JList [password_record (lit "Bravo@222")]) ∅
       = @save_passwords python_json (JList l') ∅.
Proof.
  cbv zeta.
  apply (@history_tab_never_grows python_json None
           (fun j => ([], (j =? 0)%nat))
           [password_record (lit "Alpha@111");
            password_record (lit "Bravo@222")] ∅).
  reflexivity.
Defined.

Lemma page_run_edit_witness :
  let l := [password_record (lit "Alpha@111")] in
  let fs1 := @data_saver python_json PASSWORDS_FILE (JList l) ∅ in
  let row := fun j : nat => (lit "Bravo@222", false) in
  @page_run python_json
    {| typed := []; passed_checks := 0; save_clicked := false; rows := row |}
    fs1
  = Crash NameError
  /\ exists edited,
       @page_run python_json
         {| typed := lit "x"; passed_checks := 1; save_clicked := false;
            rows := row |} fs1
       = Rerun (edited, @save_passwords python_json edited fs1).
Proof.
  cbv zeta.
  assert (@load_passwords python_json
            (@data_saver python_json PASSWORDS_FILE
               (JList [password_record (lit "Alpha@111")]) ∅)
          = Return (JList [password_record (lit "Alpha@111")])) as Hload
    by (vm_compute; reflexivity).
  assert (Forall row_ok [password_record (lit "Alpha@111")]) as Hwf
    by (repeat constructor; apply password_record_row_ok).
  assert (~ Exists (password_is (lit "Bravo@222"))
            [password_record (lit "Alpha@111")]) as Hfresh.
  { intros Hex. inversion Hex as [? ? Hhere | ? ? Hnil]; subst.
    - discriminate Hhere.
    - inversion Hnil. }
  split.
  - refine (proj1 (@page_run_edit python_json
                     {| typed := []; passed_checks := 0;
                        save_clicked := false;
                        rows := fun j : nat => (lit "Bravo@222", false) |}
                     _ [password_record (lit "Alpha@111")] 0 _
                     (lit "Bravo@222") Hload Hwf _ _ _ _ Hfresh _) _);
      try reflexivity.
    + intros j Hj. lia.
    + discriminate.
  - eexists.
    refine (proj2 (@page_run_edit python_json
                     {| typed := lit "x"; passed_checks := 1;
                        save_clicked := false;
                        rows := fun j : nat => (lit "Bravo@222", false) |}
                     _ [password_record (lit "Alpha@111")] 0 _
                     (lit "Bravo@222") Hload Hwf _ _ _ _ Hfresh _) _);
      try reflexivity.
    + intros j Hj. lia.
    + discriminate.
    + discriminate.
Defined.

Lemma page_run_save_witness :
  let inp := {| typed := lit "Secure@123"; passed_checks := 5;
                save_clicked := true;
                rows := fun j : nat => (lit "Bravo@222", true) |} in
  let history' := JList [JDict [(lit "password", JStr (lit "Secure@123"));
                                (lit "rank", JInt 4)]] in
  @page_run python_json inp ∅
  = Rerun (history', @save_passwords python_json history' ∅).
Proof.
  cbv zeta.
  refine (proj1 (@page_run_save python_json
                   {| typed := lit "Secure@123"; passed_checks := 5;
                      save_clicked := true;
                      rows := fun j : nat => (lit "Bravo@222", true) |}
                   ∅ [] _ _ _ _ _ _)); try reflexivity.
  - constructor.
  - discriminate.
  - intros H. inversion H.
Defined.
